(** * Export ingestion and reconciliation engine: a shallow embedding

    The development follows the Python sources file by file:

    - [Py]               the fragment of Python's built-in behaviour the code
                         relies on (str methods, float and int parsing, round,
                         min, truthiness);
    - [normalizer_utils] [normalize_post_type], [compute_ctr],
                         [extract_hashtags], [extract_mentions];
    - [export_ingester]  [safe_int], [safe_float], [extract_urn_from_url],
                         [clean_rate], [find_column], [_guess_header_index],
                         the rows built by [_sheet_to_dataframe_with_dates],
                         the per-row part of [process_posts_file],
                         [load_posts_df_robust], [_process_demographics_df];
    - [supabase_io]      [_safe_int], [_recompute_rates], [upsert_posts];
    - [debug_dates]      [likely_ambiguous] and the choice made in [main];
    - [reclassify_post_types] the rewriting rule of [run].

    Conventions.

    - A Python [str] is a Rocq [string]; a character is read as the code point
      of the same number (U+0000 .. U+00FF), and [isspace], [lower], [\d] and
      [\w] are given their exact Python meaning on that range.
    - A Python [float] is a [pyfloat]: an exact rational, or one of [inf],
      [-inf], [nan].  Arithmetic on finite values is exact; binary64 rounding
      error is not represented.  [nan] and the infinities behave as in Python
      (comparisons with [nan] are false, [round] keeps them, [int] raises).
    - A raised exception is [None] in an [option], or the [Raise] constructor
      of [outcome] where the code distinguishes results from failures.
    - A [dict] is a [gmap string pyval]. *)

From Stdlib Require Import ZArith QArith Qabs Qround Lia List Ascii String DecimalString.
From stdpp Require Import gmap strings list fin_maps.

Local Close Scope Q_scope.
Local Open Scope string_scope.

(* ===================================================================== *)
(** * Python built-ins                                                     *)
(* ===================================================================== *)

Module Py.

(** ** Characters and strings *)

Definition code (c : ascii) : N := N_of_ascii c.

(** [str.isspace] on U+0000 .. U+00FF: TAB..CR, FS..US, SPACE, NEL, NBSP. *)
Definition is_space (c : ascii) : bool :=
  let n := code c in
  ((9 <=? n) && (n <=? 13) || (28 <=? n) && (n <=? 32) || (n =? 133) || (n =? 160))%N.

(** [\d] and the digits accepted by [int] and [float]: on this range, 0-9. *)
Definition is_digit (c : ascii) : bool :=
  let n := code c in ((48 <=? n) && (n <=? 57))%N.

Definition digit_val (c : ascii) : Z := Z.of_N (code c) - 48.

(** [str.lower] on one character: A-Z, and the Latin-1 capitals U+00C0 ..
    U+00DE except the multiplication sign U+00D7. *)
Definition lower_char (c : ascii) : ascii :=
  let n := code c in
  if ((65 <=? n) && (n <=? 90) || (192 <=? n) && (n <=? 222) && negb (n =? 215))%N
  then ascii_of_N (n + 32) else c.

Fixpoint lower (s : string) : string :=
  match s with
  | EmptyString => EmptyString
  | String c s' => String (lower_char c) (lower s')
  end.

Fixpoint lstrip (s : string) : string :=
  match s with
  | EmptyString => EmptyString
  | String c s' => if is_space c then lstrip s' else s
  end.

Fixpoint rstrip (s : string) : string :=
  match s with
  | EmptyString => EmptyString
  | String c s' =>
      match rstrip s' with
      | EmptyString => if is_space c then EmptyString else String c EmptyString
      | r => String c r
      end
  end.

(** [s.strip()] *)
Definition strip (s : string) : string := rstrip (lstrip s).

(** The white space that [int(s)] and [float(s)] skip at both ends of
    [s]: tab to carriage return and the space, and the two spaces above
    U+007F, which the conversion first turns into " ".  U+001C .. U+001F,
    which [str.strip] removes, are not skipped. *)
Definition is_number_space (c : ascii) : bool :=
  let n := code c in
  ((9 <=? n) && (n <=? 13) || (n =? 32) || (n =? 133) || (n =? 160))%N.

Fixpoint lskip (p : ascii -> bool) (s : string) : string :=
  match s with
  | EmptyString => EmptyString
  | String c s' => if p c then lskip p s' else s
  end.

Fixpoint rskip (p : ascii -> bool) (s : string) : string :=
  match s with
  | EmptyString => EmptyString
  | String c s' =>
      match rskip p s' with
      | EmptyString => if p c then EmptyString else String c EmptyString
      | r => String c r
      end
  end.

Definition number_strip (s : string) : string :=
  rskip is_number_space (lskip is_number_space s).

(** [s.startswith(p)] *)
Fixpoint startswith (s p : string) : bool :=
  match p, s with
  | EmptyString, _ => true
  | String _ _, EmptyString => false
  | String a p', String b s' => if Ascii.eqb a b then startswith s' p' else false
  end.

(** [p in s] for strings *)
Fixpoint contains (s p : string) : bool :=
  if startswith s p then true
  else match s with
       | EmptyString => false
       | String _ s' => contains s' p
       end.

(** [s.endswith(p)] *)
Fixpoint endswith (s p : string) : bool :=
  if String.eqb s p then true
  else match s with
       | EmptyString => false
       | String _ s' => endswith s' p
       end.

(** [s.replace(c, '')] for a one-character [c] *)
Fixpoint remove_char (c : ascii) (s : string) : string :=
  match s with
  | EmptyString => EmptyString
  | String a s' => if Ascii.eqb a c then remove_char c s' else String a (remove_char c s')
  end.

(** [' '.join([a, b, c])] *)
Definition join3 (a b c : string) : string := a +:+ " " +:+ b +:+ " " +:+ c.

(** [any(k in s for k in ks)] *)
Definition any_in (ks : list string) (s : string) : bool :=
  existsb (fun k => contains s k) ks.

(** [str(n)] for an [int] *)
Definition str_of_int (z : Z) : string := NilZero.string_of_int (Z.to_int z).

(** ** Floats *)

Inductive pyfloat : Type :=
| Fin (q : Q)
| PInf
| NInf
| NaN.

Definition of_int (z : Z) : pyfloat := Fin (inject_Z z).

(** [x < y] *)
Definition flt (x y : pyfloat) : bool :=
  match x, y with
  | NaN, _ | _, NaN => false
  | Fin a, Fin b => match Qcompare a b with Lt => true | _ => false end
  | Fin _, PInf => true
  | Fin _, NInf => false
  | PInf, _ => false
  | NInf, NInf => false
  | NInf, _ => true
  end.

(** [x <= y] *)
Definition fle (x y : pyfloat) : bool :=
  match x, y with
  | NaN, _ | _, NaN => false
  | Fin a, Fin b => match Qcompare a b with Gt => false | _ => true end
  | Fin _, PInf => true
  | Fin _, NInf => false
  | PInf, PInf => true
  | PInf, _ => false
  | NInf, _ => true
  end.

(** [min(x, y)]: the first argument unless the second is smaller. *)
Definition min2 (x y : pyfloat) : pyfloat := if flt y x then y else x.

(** [abs(x)] *)
Definition fabs (x : pyfloat) : pyfloat :=
  match x with
  | Fin q => Fin (Qabs q)
  | PInf | NInf => PInf
  | NaN => NaN
  end.

(** [x * 100.0] *)
Definition mul100 (x : pyfloat) : pyfloat :=
  match x with
  | Fin q => Fin (q * inject_Z 100)%Q
  | other => other
  end.

Definition pow10 (n : nat) : positive := Nat.iter n (Pos.mul 10) 1%positive.

(** Nearest integer, ties to the even one. *)
Definition round_half_even (q : Q) : Z :=
  let n := Qnum q in
  let d := Z.pos (Qden q) in
  let fl := (n / d)%Z in
  match (2 * (n mod d) ?= d)%Z with
  | Lt => fl
  | Gt => (fl + 1)%Z
  | Eq => if Z.even fl then fl else (fl + 1)%Z
  end.

Definition round_q (q : Q) (ndigits : nat) : Q :=
  Qred (round_half_even (q * inject_Z (Z.pos (pow10 ndigits))) # pow10 ndigits).

(** [round(x, ndigits)]: infinities and nan round to themselves. *)
Definition round (x : pyfloat) (ndigits : nat) : pyfloat :=
  match x with
  | Fin q => Fin (round_q q ndigits)
  | other => other
  end.

(** [(a / b) * 100.0] for ints [a], [b] with [b <> 0]. *)
Definition ratio100 (a b : Z) : pyfloat :=
  Fin ((inject_Z a / inject_Z b) * inject_Z 100)%Q.

(** [int(x)] for a float: truncation; raises on nan and the infinities. *)
Definition int_of_float (x : pyfloat) : option Z :=
  match x with
  | Fin q => Some (Z.quot (Qnum q) (Z.pos (Qden q)))
  | _ => None
  end.

(** Truthiness of a float: only zero is false. *)
Definition float_truthy (x : pyfloat) : bool :=
  match x with
  | Fin q => negb (Qeq_bool q 0)
  | _ => true
  end.

(** ** Parsing numbers: [int(s)] and [float(s)] *)

(** digitpart ::= digit (["_"] digit)*, read greedily; [acc] is the value
    so far and [n] the number of digits read. *)
Fixpoint digits_loop (acc : Z) (n : nat) (s : string) : Z * nat * string :=
  match s with
  | String c r =>
      if is_digit c then digits_loop (acc * 10 + digit_val c)%Z (S n) r
      else if Ascii.eqb c "_" then
        match r with
        | String d r' =>
            if is_digit d then digits_loop (acc * 10 + digit_val d)%Z (S n) r'
            else (acc, n, s)
        | EmptyString => (acc, n, s)
        end
      else (acc, n, s)
  | EmptyString => (acc, n, s)
  end.

(** Reads a digitpart continuing the mantissa [acc]; [None] when the input
    does not start with a digit. *)
Definition digitpart (acc : Z) (s : string) : option (Z * nat * string) :=
  match s with
  | String c r =>
      if is_digit c then Some (digits_loop (acc * 10 + digit_val c)%Z 1 r) else None
  | EmptyString => None
  end.

(** Optional sign: [true] for "-". *)
Definition read_sign (s : string) : bool * string :=
  match s with
  | String c r =>
      if Ascii.eqb c "-" then (true, r)
      else if Ascii.eqb c "+" then (false, r)
      else (false, s)
  | EmptyString => (false, s)
  end.

(** [int(s)], base 10; [None] is ValueError. *)
Definition int_of_str (s : string) : option Z :=
  let '(neg, r) := read_sign (number_strip s) in
  match digitpart 0 r with
  | Some (v, _, EmptyString) => Some (if neg then (- v)%Z else v)
  | _ => None
  end.

(** A finite literal overflows to an infinity from 2^1024 - 2^970 on, and
    underflows to zero up to 2^-1075, half the smallest positive float. *)
Definition overflow_threshold : Z := (2 ^ 1024 - 2 ^ 970)%Z.

Definition underflow_threshold : Q := 1 # Z.to_pos (2 ^ 1075).

Definition finite_or_inf (q : Q) : pyfloat :=
  if Qle_bool (inject_Z overflow_threshold) q then PInf
  else if Qle_bool q (inject_Z (- overflow_threshold)) then NInf
  else if Qle_bool (Qabs q) underflow_threshold then Fin 0
  else Fin (Qred q).

(** exponent ::= ("e" | "E") [sign] digitpart; an absent exponent is 0. *)
Definition read_exponent (s : string) : option Z :=
  match s with
  | EmptyString => Some 0%Z
  | String c r =>
      if Ascii.eqb (lower_char c) "e" then
        let '(neg, r') := read_sign r in
        match digitpart 0 r' with
        | Some (v, _, EmptyString) => Some (if neg then (- v)%Z else v)
        | _ => None
        end
      else None
  end.

(** mantissa * 10^e as a rational *)
Definition scale10 (m e : Z) : Q :=
  if (0 <=? e)%Z then inject_Z (m * 10 ^ e)
  else (m # Z.to_pos (10 ^ (- e)))%Q.

(** number ::= [digitpart] "." digitpart | digitpart ["."], then the
    exponent.  Returns the unsigned value. *)
Definition read_number (s : string) : option Q :=
  match digitpart 0 s with
  | Some (ip, _, r) =>
      match r with
      | String c r' =>
          if Ascii.eqb c "." then
            match digitpart ip r' with
            | Some (m, nfrac, r'') =>
                match read_exponent r'' with
                | Some e => Some (scale10 m (e - Z.of_nat nfrac))
                | None => None
                end
            | None =>
                match read_exponent r' with
                | Some e => Some (scale10 ip e)
                | None => None
                end
            end
          else
            match read_exponent r with
            | Some e => Some (scale10 ip e)
            | None => None
            end
      | EmptyString => Some (inject_Z ip)
      end
  | None =>
      match s with
      | String c r' =>
          if Ascii.eqb c "." then
            match digitpart 0 r' with
            | Some (m, nfrac, r'') =>
                match read_exponent r'' with
                | Some e => Some (scale10 m (e - Z.of_nat nfrac))
                | None => None
                end
            | None => None
            end
          else None
      | EmptyString => None
      end
  end.

(** [float(s)]; [None] is ValueError. *)
Definition float_of_str (s : string) : option pyfloat :=
  let '(neg, r) := read_sign (number_strip s) in
  let w := lower r in
  if String.eqb w "inf" || String.eqb w "infinity" then Some (if neg then NInf else PInf)
  else if String.eqb w "nan" then Some NaN
  else
    match read_number r with
    | Some q => Some (finite_or_inf (if neg then - q else q)%Q)
    | None => None
    end.

(** ** Values held in cells and dict entries *)

Inductive pyval : Type :=
| VNone
| VInt (z : Z)
| VFloat (x : pyfloat)
| VStr (s : string)
| VList (l : list string).

(** [isinstance(v, float) and pd.isna(v)] *)
Definition is_float_nan (v : pyval) : bool :=
  match v with
  | VFloat NaN => true
  | _ => false
  end.

End Py.

(* ===================================================================== *)
(** * normalizer_utils.py                                                  *)
(* ===================================================================== *)

Module normalizer_utils.
Import Py.

Definition CANON_POST_TYPES : list string :=
  ["text"; "article"; "image"; "document"; "video"].

(** The labels that describe distribution, not content type. *)
Definition DISTRIBUTION_LABELS : list string :=
  ["organic"; "sponsored"; "paid"; "boosted"; "promoted"].

(** [x in ys] for a list of strings *)
Definition in_list (x : string) (ys : list string) : bool :=
  existsb (String.eqb x) ys.

(** [normalize_post_type(raw_type, content, url, title)]; an argument that
    is [None] or omitted is the empty string. *)
Definition normalize_post_type (raw_type content url title : string) : string :=
  let raw := lower (strip raw_type) in
  let text := lower (join3 content url title) in
  let raw := if in_list raw DISTRIBUTION_LABELS then "" else raw in
  if contains raw "video" || contains text "video" then "video"
  else if any_in ["image"; "photo"; "picture"] raw
          || any_in ["image"; "photo"; "picture"; "jpg"; "jpeg"; "png"] text then "image"
  else if any_in ["document"; "pdf"; "doc"] raw
          || any_in ["document"; "pdf"; ".pdf"; ".ppt"; ".pptx"; ".doc"; ".docx"; ".slideshare"] text
       then "document"
  else if any_in ["article"; "link"] raw || contains text "/pulse/" then "article"
  else if contains raw "text" || contains raw "status" then "text"
  else if contains text "http" then "article" else "text".

(** [compute_ctr(clicks, impressions)] *)
Definition compute_ctr (clicks impressions : Z) : pyfloat :=
  if negb (impressions =? 0)%Z && (0 <? impressions)%Z
  then round (ratio100 clicks impressions) 4
  else of_int 0.

(** ** [extract_hashtags] and [extract_mentions] *)

(** [\w] on U+0000 .. U+00FF: the characters that are alphanumeric for
    Python (letters, digits, superscript digits, fractions) and "_". *)
Definition is_word (c : ascii) : bool :=
  let n := code c in
  (is_digit c
   || (65 <=? n) && (n <=? 90) || (97 <=? n) && (n <=? 122) || (n =? 95)
   || (n =? 170) || (n =? 178) || (n =? 179) || (n =? 181) || (n =? 185) || (n =? 186)
   || (188 <=? n) && (n <=? 190)
   || (192 <=? n) && (n <=? 214) || (216 <=? n) && (n <=? 246) || (248 <=? n) && (n <=? 255))%N.

(** [[\w\.\-]] *)
Definition is_mention_char (c : ascii) : bool :=
  is_word c || Ascii.eqb c "." || Ascii.eqb c "-".

(** Where a left-to-right scan for [marker] followed by one or more
    characters of a class stands: outside a match (remembering whether the
    last character was "&"), just after a marker, or inside a match with
    the characters captured so far. *)
Inductive scan_state : Type :=
| Idle (after_amp : bool)
| Marked
| Capturing (captured : string).

Section Scan.

(** [guard] is the lookbehind [(?<!&)]. *)
Variable marker : ascii.
Variable in_class : ascii -> bool.
Variable guard : bool.

(** The state after reading [c] outside a match, the previous character
    being "&" or not. *)
Definition idle_step (after_amp : bool) (c : ascii) : scan_state :=
  if Ascii.eqb c marker && negb (guard && after_amp) then Marked
  else Idle (Ascii.eqb c "&").

(** [re.findall] of [marker([class]+)], the captured groups in order. *)
Fixpoint find_groups (st : scan_state) (s : string) : list string :=
  match s with
  | EmptyString =>
      match st with
      | Capturing captured => [captured]
      | _ => []
      end
  | String c r =>
      match st with
      | Capturing captured =>
          if in_class c then find_groups (Capturing (captured +:+ String c EmptyString)) r
          else captured :: find_groups (idle_step false c) r
      | Marked =>
          if in_class c then find_groups (Capturing (String c EmptyString)) r
          else find_groups (idle_step (Ascii.eqb marker "&") c) r
      | Idle after_amp => find_groups (idle_step after_amp c) r
      end
  end.

End Scan.

(** [re.findall(r'(?<!&)#([\w\d_]+)', text)] *)
Definition hashtag_groups (text : string) : list string :=
  find_groups "#" is_word true (Idle false) text.

(** [re.findall(r'@([\w\.\-]+)', text)] *)
Definition mention_groups (text : string) : list string :=
  find_groups "@" is_mention_char false (Idle false) text.

(** [{f'{prefix}{t.strip()}' for t in tags if t.strip()}], as the list of
    its elements with repetitions. *)
Definition tagged (prefix : string) (groups : list string) : list string :=
  (fun t => prefix +:+ strip t)
    <$> filter (fun t => Is_true (negb (String.eqb (strip t) ""))) groups.

Section Tags.

(** [list(s)] for a set [s]: the order in which Python enumerates a set of
    strings is not fixed, and is a parameter here. *)
Variable set_order : list string -> list string.

(** [extract_hashtags(text)] *)
Definition extract_hashtags (text : string) : list string :=
  if String.eqb text "" then []
  else take 50 (set_order (tagged "#" (hashtag_groups text))).

(** [extract_mentions(text)] *)
Definition extract_mentions (text : string) : list string :=
  if String.eqb text "" then []
  else take 50 (set_order (tagged "@" (mention_groups text))).

End Tags.

End normalizer_utils.

(* ===================================================================== *)
(** * export_ingester.py                                                   *)
(* ===================================================================== *)

Module export_ingester.
Import Py.
Import normalizer_utils.

(** ** Spreadsheet cells seen by the numeric helpers

    [CNone] is [None]; a float cell may be [nan] (a blank cell of a numeric
    column).  Date-typed cells do not occur in the metric columns and are
    not represented. *)
Inductive cell : Type :=
| CNone
| CInt (z : Z)
| CFloat (x : pyfloat)
| CStr (s : string).

(** [value is None or (isinstance(value, float) and pd.isna(value))] *)
Definition is_missing (v : cell) : bool :=
  match v with
  | CNone | CFloat NaN => true
  | _ => false
  end.

(** ** The pattern [[\d,]+(?:\.\d+)?] *)

Definition digit_or_comma (c : ascii) : bool := is_digit c || Ascii.eqb c ",".

(** Longest prefix whose characters satisfy [p], and the rest. *)
Fixpoint span (p : ascii -> bool) (s : string) : string * string :=
  match s with
  | String c r =>
      if p c then let '(a, b) := span p r in (String c a, b) else (EmptyString, s)
  | EmptyString => (EmptyString, EmptyString)
  end.

(** The match starting at the head of [s], which satisfies [[\d,]]. *)
Definition number_token (s : string) : string :=
  let '(run, rest) := span digit_or_comma s in
  match rest with
  | String c r =>
      if Ascii.eqb c "." then
        match span is_digit r with
        | (EmptyString, _) => run
        | (frac, _) => run +:+ "." +:+ frac
        end
      else run
  | EmptyString => run
  end.

(** [re.search(r'[\d,]+(?:\.\d+)?', s)]: the leftmost match, if any. *)
Fixpoint search_number (s : string) : option string :=
  match s with
  | String c r => if digit_or_comma c then Some (number_token s) else search_number r
  | EmptyString => None
  end.

(** ** What [str] prints before the decimal point of a finite float

    [repr] writes a float [x] with 1e-4 <= |x| < 1e16 (and zero)
    positionally, and any other one as [d.ddde+XX]; the pattern above then
    matches the digits up to the exponent, and [int(float(...))] keeps the
    integer part: the integer part of |x| in the first case, the leading
    digit in the second. *)

Fixpoint leading_digit_loop (fuel : nat) (q : Q) : Z :=
  match fuel with
  | O => 0%Z
  | S fuel' =>
      if Qle_bool 10 q then leading_digit_loop fuel' (q / 10)%Q
      else if Qle_bool 1 q then (Qnum q / Z.pos (Qden q))%Z
      else leading_digit_loop fuel' (q * 10)%Q
  end.

Definition leading_digit (q : Q) : Z :=
  leading_digit_loop (S (Z.to_nat (Z.log2 (Qnum q)) + Pos.to_nat (Pos.size (Qden q)))) q.

Definition repr_integer_digits (q : Q) : Z :=
  let a := Qabs q in
  if Qeq_bool a 0 then 0%Z
  else if Qle_bool (1 # 10000) a && negb (Qle_bool (inject_Z (10 ^ 16)) a)
  then (Qnum a / Z.pos (Qden a))%Z
  else leading_digit a.

(** [int(float(s))], [None] when either conversion raises. *)
Definition int_float_of_str (s : string) : option Z :=
  match float_of_str s with
  | Some x => int_of_float x
  | None => None
  end.

(** The part of [safe_int] and [safe_float] that works on [str(value)]. *)
Definition number_text (text : string) : string :=
  let s := strip (remove_char "," (remove_char "%" text)) in
  match search_number s with
  | Some tok => remove_char "," tok
  | None => s
  end.

(** [safe_int(value)] *)
Definition safe_int (value : cell) : Z :=
  if is_missing value then 0%Z
  else match value with
       | CStr text => default 0%Z (int_float_of_str (number_text text))
       | CInt z => default 0%Z (int_float_of_str (number_text (str_of_int z)))
       | CFloat (Fin q) => repr_integer_digits q
       | _ => 0%Z
       end.

(** The branch of [clean_rate] taken when [float(...)] returns [val]. *)
Definition rate_of_number (val : pyfloat) : pyfloat :=
  if flt (of_int 0) val && flt val (of_int 1)
  then round (mul100 val) 6
  else round val 6.

(** [clean_rate] on [s = str(value).strip()] *)
Definition clean_rate_text (s : string) : pyfloat :=
  if endswith s "%" then
    default (of_int 0) (float_of_str (strip (remove_char "," (remove_char "%" s))))
  else
    match float_of_str (remove_char "," s) with
    | Some val => rate_of_number val
    | None => of_int 0
    end.

(** [clean_rate(value)].  For a float argument [str(value)] has no "%" and
    no ",", and [float(str(value))] is the argument again, so the second
    [try] computes on the argument itself. *)
Definition clean_rate (value : cell) : pyfloat :=
  if is_missing value then of_int 0
  else match value with
       | CStr text => clean_rate_text (strip text)
       | CInt z => clean_rate_text (strip (str_of_int z))
       | CFloat x => rate_of_number x
       | CNone => of_int 0
       end.

(** ** [find_column] *)

(** [df.columns] is given as the list of [str(c)] of its labels. *)
Fixpoint find_column_loop (cols lowered : list string) (candidates : list string)
  : option string :=
  match candidates with
  | [] => None
  | name :: rest =>
      let nl := lower name in
      match list_find (fun c => c = nl) lowered with
      | Some (i, _) => cols !! i
      | None =>
          match list_find (fun c => Is_true (contains c nl)) lowered with
          | Some (i, _) => cols !! i
          | None => find_column_loop cols lowered rest
          end
      end
  end.

Definition find_column (columns : list string) (candidates : list string) : option string :=
  let cols := strip <$> columns in
  let lowered := lower <$> cols in
  find_column_loop cols lowered candidates.

(** ** The per-row part of [process_posts_file] *)

(** The columns located by [find_column] at the top of [process_posts_file]. *)
Record post_columns : Type := {
  post_title_col : option string;
  post_link_col : option string;
  distribution_col : option string;
  content_type_col : option string;
  created_col : option string;
  impressions_col : option string;
  views_col : option string;
  clicks_col : option string;
  ctr_col : option string;
  likes_col : option string;
  comments_col : option string;
  reposts_col : option string;
  engagement_rate_col : option string
}.

Definition map_columns (columns : list string) : post_columns :=
  {| post_title_col := find_column columns ["post title"; "title"];
     post_link_col := find_column columns ["post link"; "url"; "link"; "permalink"];
     distribution_col := find_column columns ["post type"];
     content_type_col :=
       find_column columns ["content type"; "content format"; "format"; "media"; "type"];
     created_col := find_column columns ["created date"; "date"; "published"];
     impressions_col := find_column columns ["impressions"];
     views_col := find_column columns ["views"; "offsite views"];
     clicks_col := find_column columns ["clicks"; "link clicks"; "unique clicks"];
     ctr_col := find_column columns ["click through rate (ctr)"; "ctr"];
     likes_col := find_column columns ["likes"; "reactions"];
     comments_col := find_column columns ["comments"];
     reposts_col := find_column columns ["reposts"; "shares"; "share"];
     engagement_rate_col := find_column columns ["engagement rate"; "engagement"] |}.

(** One row of the grid.  The three text fields are given as the string
    [str(row.get(col) or "")]; the metric cells are those of the row, and
    [row.get(col)] of an absent label is [None]. *)
Record post_row : Type := {
  title_text : string;
  link_text : string;
  content_type_text : string;
  metrics : gmap string cell
}.

(** What the row's record takes from code that is not modelled here: the
    MD5-derived identifier, the configured company, the parsed date and the
    extracted tags. *)
Record row_context : Type := {
  ctx_post_id : string;
  ctx_company_id : string;
  ctx_created_iso : string;
  ctx_hashtags : list string;
  ctx_mentions : list string
}.

Definition row_get (row : post_row) (col : string) : cell :=
  default CNone (metrics row !! col).

Record post_record : Type := {
  post_id : string;
  company_id : string;
  post_content : string;
  post_date : string;
  impressions : Z;
  clicks : Z;
  likes : Z;
  comments : Z;
  shares : Z;
  engagement_rate : pyfloat;
  reach : Z;
  post_type : string;
  post_url : string;
  post_title : string;
  ctr : pyfloat;
  hashtags : list string;
  mentions : list string
}.

(** [col] as a condition: [None] and the empty label are false. *)
Definition located (col : option string) : option string :=
  match col with
  | Some EmptyString => None
  | other => other
  end.

(** [safe_int(row.get(col)) if col else 0] *)
Definition int_column (row : post_row) (col : option string) : Z :=
  match located col with
  | Some c => safe_int (row_get row c)
  | None => 0%Z
  end.

(** The body of the [for _, row in df.iterrows()] loop; [None] is the
    [continue] taken on an empty title. *)
Definition normalize_row (cols : post_columns) (ctx : row_context) (row : post_row)
  : option post_record :=
  let title := strip (title_text row) in
  if String.eqb title "" then None
  else
    let url := strip (link_text row) in
    let impressions0 := int_column row (impressions_col cols) in
    let impressions :=
      match located (views_col cols) with
      | Some v => if (impressions0 =? 0)%Z then safe_int (row_get row v) else impressions0
      | None => impressions0
      end in
    let clicks := int_column row (clicks_col cols) in
    let ctr_val :=
      match located (ctr_col cols) with
      | Some c => clean_rate (row_get row c)
      | None => compute_ctr clicks impressions
      end in
    let likes := int_column row (likes_col cols) in
    let comments := int_column row (comments_col cols) in
    let shares := int_column row (reposts_col cols) in
    let engagement_rate :=
      if (0 <? impressions)%Z
      then round (ratio100 (likes + comments + shares + clicks) impressions) 6
      else match located (engagement_rate_col cols) with
           | Some c => clean_rate (row_get row c)
           | None => of_int 0
           end in
    let post_type := normalize_post_type (content_type_text row) title url title in
    Some {| post_id := ctx_post_id ctx;
            company_id := ctx_company_id ctx;
            post_content := String.substring 0 2000 title;
            post_date := ctx_created_iso ctx;
            impressions := impressions;
            clicks := clicks;
            likes := likes;
            comments := comments;
            shares := shares;
            engagement_rate := min2 engagement_rate (of_int 100);
            reach := impressions;
            post_type := post_type;
            post_url := url;
            post_title := String.substring 0 500 title;
            ctr := if flt (of_int 0) ctr_val then ctr_val else compute_ctr clicks impressions;
            hashtags := ctx_hashtags ctx;
            mentions := ctx_mentions ctx |}.

(** ** [load_posts_df_robust] *)

(** The result of running code that may raise; [e] names the exception,
    always a subclass of [Exception] (I/O, parsing, lookup and recursion
    errors). *)
Inductive outcome (A : Type) : Type :=
| Return (a : A)
| Raise (e : string).

Arguments Return {A} a.
Arguments Raise {A} e.

#[export] Instance outcome_ret : MRet outcome := fun A a => Return a.

#[export] Instance outcome_bind : MBind outcome := fun A B k m =>
  match m with
  | Return a => k a
  | Raise e => Raise e
  end.

(** [try: body / except Exception: handler] (also the bare [except:]) *)
Definition try_except {A : Type} (body : outcome A) (handler : outcome A) : outcome A :=
  match body with
  | Return a => Return a
  | Raise _ => handler
  end.

Record DataFrame : Type := {
  df_columns : list string;
  df_rows : list (list cell)
}.

(** [pd.DataFrame()] *)
Definition empty_frame : DataFrame := {| df_columns := []; df_rows := [] |}.

(** [df.empty] *)
Definition df_empty (df : DataFrame) : bool :=
  (length (df_columns df) =? 0)%nat || (length (df_rows df) =? 0)%nat.

(** [xs[0]] *)
Definition first_item (xs : list string) : outcome string :=
  match xs with
  | x :: _ => Return x
  | [] => Raise "IndexError"
  end.

Definition CSV_ENCODINGS : list string :=
  ["utf-8"; "cp1252"; "latin-1"; "iso-8859-1"; "utf-16"].

Section Loader.

(** The file system and the libraries that read it are parameters: what
    each call returns or raises is left open. *)
Context {Path : Type}.
(** [file_path.suffix] *)
Variable suffix : Path -> string.
(** [zipfile.ZipFile(file_path, "r").namelist()] *)
Variable zip_namelist : Path -> outcome (list string).
(** creating [unzipped_<stem>], [z.extract(target, ...)], and the path of
    the extracted member *)
Variable zip_extract : Path -> string -> outcome Path.
(** [zipfile.is_zipfile(file_path)]: it answers [False] on an [OSError],
    and raises what else opening the path raises ([ValueError] for a path
    with a null character, [UnicodeEncodeError]) *)
Variable is_zipfile : Path -> outcome bool.
(** [pd.ExcelFile(file_path, engine='openpyxl').sheet_names] *)
Variable excel_sheet_names : Path -> outcome (list string).
(** [pd.read_excel(file_path, sheet_name=..., engine='openpyxl', header=0)] *)
Variable read_excel : Path -> string -> outcome DataFrame.
(** [pd.read_csv(file_path, encoding=enc)], [None] for the default *)
Variable read_csv : Path -> option string -> outcome DataFrame.
(** [xlrd.open_workbook(file_path).sheet_names()] *)
Variable xlrd_sheet_names : Path -> outcome (list string).
(** [_sheet_to_dataframe_with_dates(book.sheet_by_name(target), book.datemode)] *)
Variable xlrd_sheet_frame : Path -> string -> outcome DataFrame.

(** [preferred[0] if preferred else candidates[0]], also
    [next((n for n in names if 'post' in n.lower()), names[0])] *)
Definition pick_posts (names : list string) : outcome string :=
  fallback ← first_item names;
  Return (default fallback (head (filter (fun n => Is_true (contains (lower n) "post")) names))).

(** [read_xls_posts_via_xlrd(file_path)] *)
Definition read_xls_posts_via_xlrd (file_path : Path) : outcome DataFrame :=
  names ← xlrd_sheet_names file_path;
  target ← pick_posts names;
  xlrd_sheet_frame file_path target.

(** The loop over encodings: the first read that does not raise. *)
Fixpoint read_csv_any (file_path : Path) (encodings : list string) : outcome DataFrame :=
  match encodings with
  | enc :: rest =>
      try_except (read_csv file_path (Some enc)) (read_csv_any file_path rest)
  | [] => Return empty_frame
  end.

Definition tabular_member (m : string) : bool :=
  let l := lower m in endswith l ".csv" || endswith l ".xls" || endswith l ".xlsx".

(** [load_posts_df_robust(file_path)].  [depth] is the number of frames
    left before the interpreter's recursion limit: the call itself raises
    RecursionError when none is left. *)
Fixpoint load_posts_df_robust (depth : nat) (file_path : Path) : outcome DataFrame :=
  match depth with
  | O => Raise "RecursionError"
  | S depth' =>
      let ext := lower (suffix file_path) in
      if String.eqb ext ".zip" then
        try_except
          (members ← zip_namelist file_path;
           let candidates := filter (fun m => Is_true (tabular_member m)) members in
           match candidates with
           | [] => Return empty_frame
           | first :: _ =>
               let preferred :=
                 filter (fun c => Is_true (contains (lower c) "post")) candidates in
               let target := default first (head preferred) in
               inner_path ← zip_extract file_path target;
               load_posts_df_robust depth' inner_path
           end)
          (Return empty_frame)
      else if String.eqb ext ".xlsx" then
        let misnamed_csv := read_csv_any file_path CSV_ENCODINGS in
        is_zip ← is_zipfile file_path;
        if is_zip : bool then
          try_except
            (sheets ← excel_sheet_names file_path;
             target_sheet ← pick_posts sheets;
             read_excel file_path target_sheet)
            misnamed_csv
        else misnamed_csv
      else if String.eqb ext ".xls" then
        try_except (read_xls_posts_via_xlrd file_path) (Return empty_frame)
      else if String.eqb ext ".csv" then
        read_csv_any file_path CSV_ENCODINGS
      else
        try_except (read_csv file_path None) (Return empty_frame)
  end.

End Loader.

(** ** [safe_float] *)

(** The digits [str] prints before the exponent of a finite float, as a
    number: the float's absolute value when it is printed positionally,
    its mantissa between 1 and 10 otherwise. *)
Fixpoint mantissa_loop (fuel : nat) (q : Q) : Q :=
  match fuel with
  | O => q
  | S fuel' =>
      if Qle_bool 10 q then mantissa_loop fuel' (q / 10)%Q
      else if Qle_bool 1 q then q
      else mantissa_loop fuel' (q * 10)%Q
  end.

Definition repr_unsigned (q : Q) : Q :=
  let a := Qabs q in
  if Qeq_bool a 0 then 0%Q
  else if Qle_bool (1 # 10000) a && negb (Qle_bool (inject_Z (10 ^ 16)) a)
  then Qred a
  else Qred (mantissa_loop
               (S (Z.to_nat (Z.log2 (Qnum a)) + Pos.to_nat (Pos.size (Qden a)))) a).

(** [safe_float(value)] *)
Definition safe_float (value : cell) : pyfloat :=
  if is_missing value then of_int 0
  else match value with
       | CStr text => default (of_int 0) (float_of_str (number_text text))
       | CInt z => default (of_int 0) (float_of_str (number_text (str_of_int z)))
       | CFloat (Fin q) => Fin (repr_unsigned q)
       | CFloat x => x
       | CNone => of_int 0
       end.

(** ** [extract_urn_from_url] *)

(** [s] without its prefix [p]; [None] when [s] does not start with [p]. *)
Fixpoint drop_prefix (p s : string) : option string :=
  match p, s with
  | EmptyString, _ => Some s
  | String _ _, EmptyString => None
  | String a p', String b s' => if Ascii.eqb a b then drop_prefix p' s' else None
  end.

(** [urn:li:<kind>:[0-9]+] at the head of [s] *)
Definition urn_of_kind (kind : string) (s : string) : option string :=
  let prefix := "urn:li:" +:+ kind +:+ ":" in
  match drop_prefix prefix s with
  | Some rest =>
      match span is_digit rest with
      | (EmptyString, _) => None
      | (digits, _) => Some (prefix +:+ digits)
      end
  | None => None
  end.

(** [(urn:li:(?:activity|ugcPost):[0-9]+)] at the head of [s] *)
Definition urn_here (s : string) : option string :=
  match urn_of_kind "activity" s with
  | Some u => Some u
  | None => urn_of_kind "ugcPost" s
  end.

(** [re.search] of that pattern: the leftmost match *)
Fixpoint search_urn (s : string) : option string :=
  match urn_here s with
  | Some u => Some u
  | None =>
      match s with
      | String _ r => search_urn r
      | EmptyString => None
      end
  end.

(** [extract_urn_from_url(url)] *)
Definition extract_urn_from_url (url : string) : string :=
  if String.eqb url "" then "" else default "" (search_urn url).

(** ** [_guess_header_index] and the rows of a legacy sheet *)

Definition HEADER_HINTS : list string :=
  ["post"; "title"; "link"; "impressions"; "views"; "click"; "ctr";
   "likes"; "comments"; "repost"; "share"; "engagement"; "content type";
   "created"; "date"; "published"].

(** A row is given by the [str(x)] of its cells.
    [[str(x).strip().lower() for x in row if str(x).strip()]] *)
Definition row_tokens (row : list string) : list string :=
  (fun x => lower (strip x))
    <$> filter (fun x => Is_true (negb (String.eqb (strip x) ""))) row.

Definition row_score (row : list string) : nat :=
  let tokens := row_tokens row in
  (length (filter (fun t => Is_true (any_in HEADER_HINTS t)) tokens)
   + length (filter (fun t => (0 < String.length t)%nat) tokens))%nat.

(** The loop over [range(min(10, len(rows)))], at row [i]. *)
Fixpoint guess_loop (rows : list (list string)) (i best_idx : nat) (best_score : Z) : nat :=
  match rows with
  | [] => best_idx
  | row :: rest =>
      let score := Z.of_nat (row_score row) in
      if (best_score <? score)%Z then guess_loop rest (S i) i score
      else guess_loop rest (S i) best_idx best_score
  end.

(** [_guess_header_index(rows)] *)
Definition _guess_header_index (rows : list (list string)) : nat :=
  guess_loop (take 10 rows) 0 0 (-1).

Section Sheet.

(** The cells of a sheet are of any type with a [str]; [blank] is the
    empty string used for padding. *)
Context {A : Type}.
Variable text : A -> string.
Variable blank : A.

(** [str(x).strip() if str(x).strip() else f"Column_{i}"] *)
Definition header_name (i : nat) (x : A) : string :=
  let s := strip (text x) in
  if String.eqb s "" then "Column_" +:+ str_of_int (Z.of_nat i) else s.

(** [all(str(x).strip() == '' for x in r)] *)
Definition all_blank (r : list A) : bool :=
  forallb (fun x => String.eqb (strip (text x)) "") r.

(** The row padded or cut to [n] cells. *)
Definition fit_row (n : nat) (r : list A) : list A :=
  if (length r <? n)%nat then (r ++ replicate (n - length r) blank)%list
  else if (n <? length r)%nat then take n r
  else r.

(** [fixed_rows] *)
Definition fixed_rows (n : nat) (data_rows : list (list A)) : list (list A) :=
  fit_row n <$> filter (fun r => Is_true (negb (all_blank r))) data_rows.

(** The header and the rows handed to [pd.DataFrame] by
    [_sheet_to_dataframe_with_dates]; [None] for a sheet without rows. *)
Definition sheet_grid (rows : list (list A)) : option (list string * list (list A)) :=
  match rows with
  | [] => None
  | first :: _ =>
      let header_idx := _guess_header_index ((fun r : list A => text <$> r) <$> rows) in
      let header := imap header_name (default first (rows !! header_idx)) in
      Some (header, fixed_rows (length header) (drop (S header_idx) rows))
  end.

End Sheet.

(** ** [_process_demographics_df] *)

(** [s.replace(a, b)] for one-character [a] and [b] *)
Fixpoint replace_char (a b : ascii) (s : string) : string :=
  match s with
  | EmptyString => EmptyString
  | String c r => String (if Ascii.eqb c a then b else c) (replace_char a b r)
  end.

(** The demographic type of a sheet; [sheet_name] is "" for [None]. *)
Definition demo_type_of (sheet_name : string) : string :=
  let sheet_lower := lower (if String.eqb sheet_name "" then "general" else sheet_name) in
  if any_in ["location"; "country"; "city"; "region"; "geography"] sheet_lower
  then "location"
  else if any_in ["function"; "job"; "role"; "occupation"] sheet_lower then "job_function"
  else if any_in ["seniority"; "level"; "experience"] sheet_lower then "seniority"
  else if any_in ["company"; "organization"; "employer"; "size"] sheet_lower
  then "company_size"
  else if String.eqb sheet_name "" then "general"
  else replace_char " " "_" sheet_lower.

Record demo_columns : Type := {
  value_col : option string;
  count_col : option string;
  percentage_col : option string
}.

(** The loop [for col in df.columns]: the first label of each kind. *)
Fixpoint detect_loop (columns : list string) (found : demo_columns) : demo_columns :=
  match columns with
  | [] => found
  | col :: rest =>
      let cl := strip (lower col) in
      let value :=
        match located (value_col found) with
        | None =>
            if any_in ["name"; "value"; "location"; "function"; "title"; "category"] cl
            then Some col else value_col found
        | Some _ => value_col found
        end in
      let count :=
        match located (count_col found) with
        | None =>
            if any_in ["count"; "number"; "followers"; "audience"; "members"; "total"] cl
            then Some col else count_col found
        | Some _ => count_col found
        end in
      let percentage :=
        match located (percentage_col found) with
        | None =>
            if any_in ["percentage"; "percent"; "%"; "share"; "pct"] cl
            then Some col else percentage_col found
        | Some _ => percentage_col found
        end in
      detect_loop rest
        {| value_col := value; count_col := count; percentage_col := percentage |}
  end.

(** The three columns, with the positional defaults. *)
Definition detect_columns (columns : list string) : demo_columns :=
  let found :=
    detect_loop columns {| value_col := None; count_col := None; percentage_col := None |} in
  {| value_col :=
       match located (value_col found), columns with
       | None, first :: _ => Some first
       | _, _ => value_col found
       end;
     count_col :=
       match located (count_col found), columns with
       | None, _ :: second :: _ => Some second
       | _, _ => count_col found
       end;
     percentage_col := percentage_col found |}.

(** One row of a demographics sheet: [value_cell] is
    [str(row.get(value_col) or "")]. *)
Record demo_row : Type := {
  value_cell : string;
  demo_cells : gmap string cell
}.

(** [row.get(col)]; an absent label and [None] as a label give [None]. *)
Definition demo_get (row : demo_row) (col : option string) : cell :=
  match col with
  | Some c => default CNone (demo_cells row !! c)
  | None => CNone
  end.

Record demo_record : Type := {
  demo_company_id : string;
  demo_date_collected : string;
  total_followers : Z;
  new_followers : Z;
  demographic_type : string;
  demographic_value : string;
  count : Z;
  percentage : pyfloat
}.

(** The body of the loop over the rows.  [company], [day] and [followers]
    stand for [self.company_id], the midnight of today and the answer of
    [get_current_followers()]. *)
Definition demo_of_row (cols : demo_columns) (company day : string) (followers : Z)
           (demo_type : string) (row : demo_row) : option demo_record :=
  let val := strip (value_cell row) in
  if String.eqb val "" then None
  else
    let cnt := safe_int (demo_get row (count_col cols)) in
    let pct :=
      match located (percentage_col cols) with
      | Some c => safe_float (demo_get row (Some c))
      | None => of_int 0
      end in
    if (cnt <=? 0)%Z && fle pct (of_int 0) then None
    else Some {| demo_company_id := company;
                 demo_date_collected := day;
                 total_followers := followers;
                 new_followers := 0;
                 demographic_type := demo_type;
                 demographic_value := String.substring 0 255 val;
                 count := cnt;
                 percentage := min2 pct (of_int 100) |}.

End export_ingester.

(* ===================================================================== *)
(** * supabase_io.py                                                       *)
(* ===================================================================== *)

Module supabase_io.
Import Py.
Import export_ingester.

Abbreviation dict := (gmap string pyval).

Definition NUMERIC_FIELDS : list string :=
  ["impressions"; "clicks"; "likes"; "comments"; "shares"; "reach"].

(** [d.get(k)] *)
Definition get (d : dict) (k : string) : pyval := default VNone (d !! k).

(** [_safe_int(v)].  A falsy [v] gives [int(0)].  Otherwise [int(v)] is
    tried, then [int(float(str(v).replace(',', '')))]; for a float that
    made [int] raise (nan, an infinity) the second attempt raises as well,
    and the text of a list is never a number. *)
Definition _safe_int (v : pyval) : Z :=
  match v with
  | VNone => 0%Z
  | VInt z => z
  | VFloat x => default 0%Z (int_of_float x)
  | VStr s =>
      if String.eqb s "" then 0%Z
      else match int_of_str s with
           | Some z => z
           | None => default 0%Z (int_float_of_str (remove_char "," s))
           end
  | VList _ => 0%Z
  end.

(** [_recompute_rates(rec)] *)
Definition _recompute_rates (rec : dict) : dict :=
  let impressions := _safe_int (get rec "impressions") in
  let clicks := _safe_int (get rec "clicks") in
  let likes := _safe_int (get rec "likes") in
  let comments := _safe_int (get rec "comments") in
  let shares := _safe_int (get rec "shares") in
  let ctr :=
    if (0 <? impressions)%Z then round (ratio100 clicks impressions) 6 else of_int 0 in
  let er :=
    if (0 <? impressions)%Z
    then round (ratio100 (likes + comments + shares + clicks) impressions) 6
    else of_int 0 in
  <["engagement_rate" := VFloat (min2 er (of_int 100))]> (<["ctr" := VFloat ctr]> rec).

(** Truthiness of a value *)
Definition truthy (v : pyval) : bool :=
  match v with
  | VNone => false
  | VInt z => negb (z =? 0)%Z
  | VFloat x => float_truthy x
  | VStr s => negb (String.eqb s "")
  | VList l => negb (length l =? 0)%nat
  end.

(** [a == b] on the values used as identifiers: numbers compare by value
    across [int] and [float], [nan] equals nothing. *)
Definition py_eq (a b : pyval) : bool :=
  match a, b with
  | VNone, VNone => true
  | VInt x, VInt y => (x =? y)%Z
  | VInt x, VFloat (Fin q) | VFloat (Fin q), VInt x => Qeq_bool (inject_Z x) q
  | VFloat (Fin p), VFloat (Fin q) => Qeq_bool p q
  | VFloat PInf, VFloat PInf => true
  | VFloat NInf, VFloat NInf => true
  | VStr s, VStr t => String.eqb s t
  | _, _ => false
  end.

(** A list cannot be a set member or a dict key (TypeError). *)
Definition hashable (v : pyval) : bool :=
  match v with
  | VList _ => false
  | _ => true
  end.

(** [existing_rows], most recent assignment first.  [existing_ids] is its
    key set: the two are filled by the same loop. *)
Definition baseline := list (pyval * dict).

Fixpoint baseline_get (rows : baseline) (id : pyval) : option dict :=
  match rows with
  | (k, r) :: rest => if py_eq k id then Some r else baseline_get rest id
  | [] => None
  end.

(** [l[i:i+n] for i in range(0, len(l), n)] *)
Fixpoint chunks_loop {A : Type} (fuel n : nat) (l : list A) : list (list A) :=
  match fuel, l with
  | S fuel', _ :: _ => take n l :: chunks_loop fuel' n (drop n l)
  | _, _ => []
  end.

Definition chunks {A : Type} (n : nat) (l : list A) : list (list A) :=
  chunks_loop (length l) n l.

(** A write sent to the [post_analytics] table. *)
Inductive request : Type :=
| InsertRows (rows : list dict)
| UpsertRows (rows : list dict).

Definition request_rows (r : request) : list dict :=
  match r with
  | InsertRows rows | UpsertRows rows => rows
  end.

(** [for f in NUMERIC_FIELDS: q[f] = max(_safe_int(base.get(f)), _safe_int(q.get(f)))] *)
Definition merge_max (base q : dict) : dict :=
  foldl (fun q f => <[f := VInt (Z.max (_safe_int (get base f)) (_safe_int (get q f)))]> q)
        q NUMERIC_FIELDS.

Section Client.

(** The store is a parameter.  [select_in k batch] is the [data] of the
    [k]-th baseline lookup, [execute sent r] the fate of write [r] after
    the writes [sent]; either may raise. *)
Variable select_in : nat -> list pyval -> outcome (list dict).
Variable execute : list request -> request -> outcome unit.

(** [self.company_id] and [self.update_policy] *)
Variable company_id : string.
Variable update_policy : string.

(** [for r in res.data: existing_ids.add(r["post_id"]); existing_rows[...] = r] *)
Fixpoint add_rows (rows : list dict) (acc : baseline) : outcome baseline :=
  match rows with
  | [] => Return acc
  | r :: rest =>
      match r !! "post_id" with
      | None => Raise "KeyError"
      | Some id =>
          if hashable id then add_rows rest ((id, r) :: acc) else Raise "TypeError"
      end
  end.

(** Step 1, the lookups in batches of 1000 ids; [k] counts the lookups. *)
Fixpoint lookup_batches (k : nat) (batches : list (list pyval)) (acc : baseline)
  : outcome baseline :=
  match batches with
  | [] => Return acc
  | batch :: rest =>
      rows ← select_in k batch;
      acc' ← add_rows rows acc;
      lookup_batches (S k) rest acc'
  end.

(** Step 2 for one post: [(true, q)] goes to [update_posts], [(false, q)]
    to [new_posts]. *)
Definition split_post (existing : baseline) (p : dict) : outcome (bool * dict) :=
  let q := delete "date_collected" p in
  match p !! "post_id" with
  | None => Raise "KeyError"
  | Some id =>
      if hashable id then
        match baseline_get existing id with
        | Some base =>
            if String.eqb update_policy "max"
            then Return (true, _recompute_rates (merge_max base q))
            else Return (true, q)
        | None => Return (false, q)
        end
      else Raise "TypeError"
  end.

Fixpoint split_posts (existing : baseline) (posts : list dict)
  : outcome (list dict * list dict) :=
  match posts with
  | [] => Return ([], [])
  | p :: rest =>
      '(existing_id, q) ← split_post existing p;
      '(new_posts, update_posts) ← split_posts existing rest;
      Return (if existing_id : bool
              then (new_posts, q :: update_posts)
              else (q :: new_posts, update_posts))
  end.

(** [posts = [dict(p, company_id=self.company_id) for p in posts]] *)
Definition with_company (posts : list dict) : list dict :=
  (fun p => <["company_id" := VStr company_id]> p) <$> posts.

(** Step 1: [ids = [p.get("post_id") for p in posts if p.get("post_id")]]
    and the baseline rows found for them. *)
Definition fetch_existing (posts : list dict) : outcome baseline :=
  let ids := filter (fun v => Is_true (truthy v)) ((fun p => get p "post_id") <$> posts) in
  lookup_batches 0 (chunks 1000 ids) [].

(** Steps 1 and 2: [(new_posts, update_posts)]. *)
Definition plan_posts (posts : list dict) : outcome (list dict * list dict) :=
  let posts := with_company posts in
  existing ← fetch_existing posts;
  split_posts existing posts.

(** Steps 3 and 4: the writes in order, up to and including the first one
    that raises.  The result pairs the writes sent with the outcome. *)
Fixpoint send (sent : list request) (todo : list request) : list request * outcome unit :=
  match todo with
  | [] => (sent, Return tt)
  | r :: rest =>
      match execute sent r with
      | Return _ => send (sent ++ [r])%list rest
      | Raise e => ((sent ++ [r])%list, Raise e)
      end
  end.

(** [upsert_posts(posts)] *)
Definition upsert_posts (posts : list dict) : list request * outcome unit :=
  match posts with
  | [] => ([], Return tt)
  | _ =>
      match plan_posts posts with
      | Raise e => ([], Raise e)
      | Return (new_posts, update_posts) =>
          send [] ((InsertRows <$> chunks 100 new_posts)
                   ++ (UpsertRows <$> chunks 100 update_posts))%list
      end
  end.

End Client.

(** The record of [process_posts_file] as the dict handed to
    [upsert_posts]. *)
Definition record_dict (r : post_record) : dict :=
  list_to_map
    [("post_id", VStr (post_id r));
     ("company_id", VStr (export_ingester.company_id r));
     ("post_content", VStr (post_content r));
     ("post_date", VStr (post_date r));
     ("impressions", VInt (impressions r));
     ("clicks", VInt (clicks r));
     ("likes", VInt (likes r));
     ("comments", VInt (comments r));
     ("shares", VInt (shares r));
     ("engagement_rate", VFloat (engagement_rate r));
     ("reach", VInt (reach r));
     ("post_type", VStr (post_type r));
     ("post_url", VStr (post_url r));
     ("post_title", VStr (post_title r));
     ("ctr", VFloat (ctr r));
     ("hashtags", VList (hashtags r));
     ("mentions", VList (mentions r))].

End supabase_io.

(* ===================================================================== *)
(** * debug_dates.py                                                       *)
(* ===================================================================== *)

Module debug_dates.
Import Py.

(** A pandas timestamp without time zone: nanoseconds since the epoch, or
    the missing value [NaT]. *)
Inductive timestamp : Type :=
| NaT
| Ts (ns : Z).

(** Days from 1970-01-01 to the civil date [y]-[m]-[d]. *)
Definition days_from_civil (y m d : Z) : Z :=
  let y' := if (m <=? 2)%Z then (y - 1)%Z else y in
  let era := (y' / 400)%Z in
  let yoe := (y' - era * 400)%Z in
  let mp := ((m + 9) mod 12)%Z in
  let doy := ((153 * mp + 2) / 5 + d - 1)%Z in
  let doe := (yoe * 365 + yoe / 4 - yoe / 100 + doy)%Z in
  (era * 146097 + doe - 719468)%Z.

(** [datetime(y, m, d)], as nanoseconds since the epoch *)
Definition datetime_ns (y m d : Z) : Z :=
  (days_from_civil y m d * 86400 * 1000000000)%Z.

Definition midnight (y m d : Z) : timestamp := Ts (datetime_ns y m d).

(** [(a - b).total_seconds()]; anything involving [NaT] is [nan]. *)
Definition seconds_between (a b : timestamp) : pyfloat :=
  match a, b with
  | Ts x, Ts y => Fin ((x - y) # 1000000000)
  | _, _ => NaN
  end.

(** [low <= ts <= hi] for datetimes [low], [hi]; false on [NaT]. *)
Definition between (low hi : Z) (ts : timestamp) : bool :=
  match ts with
  | Ts n => (low <=? n)%Z && (n <=? hi)%Z
  | NaT => false
  end.

Definition is_sep (c : ascii) : bool := Ascii.eqb c "/" || Ascii.eqb c "-".

(** [(\d{1,2})[/-]] at the head of [s]: the number and the rest. *)
Definition short_number_sep (s : string) : option (Z * string) :=
  match s with
  | String a (String b r) =>
      if is_digit a then
        if is_digit b then
          match r with
          | String c r' =>
              if is_sep c then Some (digit_val a * 10 + digit_val b, r')%Z else None
          | EmptyString => None
          end
        else if is_sep b then Some (digit_val a, r) else None
      else None
  | _ => None
  end.

(** [\d{2,4}] at the head of [s] *)
Definition year_digits (s : string) : bool :=
  match s with
  | String a (String b _) => is_digit a && is_digit b
  | _ => false
  end.

(** [likely_ambiguous(s)] for a [str] argument: the pattern
    [^\s*(\d{1,2})[/-](\d{1,2})[/-](\d{2,4})] on [s.strip()]. *)
Definition likely_ambiguous (s : string) : bool :=
  match short_number_sep (lstrip (strip s)) with
  | Some (a, r) =>
      match short_number_sep r with
      | Some (b, r') => if year_digits r' then (a <=? 12)%Z && (b <=? 12)%Z else false
      | None => false
      end
  | None => false
  end.

Inductive choice : Type :=
| Dmy
| Mdy.

(** One row of the report written by [main]. *)
Record discrepancy : Type := {
  raw_created : string;
  dmy : timestamp;
  mdy : timestamp;
  campaign_start : option timestamp;
  chosen : choice
}.

(** [x or y] on results of [parse_try]: a timestamp, [NaT] included, is
    truthy; [None] is not. *)
Definition or_else (x y : option timestamp) : option timestamp :=
  match x with
  | Some _ => x
  | None => y
  end.

Section Resolver.

(** [pd.to_datetime(s, dayfirst=dmy)] is a parameter; [None] stands for
    any exception it raises. *)
Variable to_datetime : string -> bool -> option timestamp.

(** [parse_try(s, dmy)] *)
Definition parse_try (s : string) (dmy : bool) : option timestamp := to_datetime s dmy.

(** The choice made once both readings exist. [utc_year] is
    [datetime.utcnow().year]. *)
Definition choose (utc_year : Z) (ts_dmy ts_mdy : timestamp) (ts_camp : option timestamp)
  : choice :=
  match ts_camp with
  | Some camp =>
      let diff_dmy := fabs (seconds_between ts_dmy camp) in
      let diff_mdy := fabs (seconds_between ts_mdy camp) in
      if fle diff_dmy diff_mdy then Dmy else Mdy
  | None =>
      let low := datetime_ns 2015 1 1 in
      let hi := datetime_ns (utc_year + 1) 12 31 in
      let ok_dmy := between low hi ts_dmy in
      let ok_mdy := between low hi ts_mdy in
      if ok_dmy && negb ok_mdy then Dmy
      else if ok_mdy && negb ok_dmy then Mdy
      else Dmy
  end.

(** The body of the loop of [main] for a created-date cell that is not a
    datetime: [s] is [str(raw)] ("" for [None]), [camp_text] is
    [str(row.get(camp_start_col))].  [None]: no row is reported. *)
Definition examine (utc_year : Z) (s camp_text : string) : option discrepancy :=
  if String.eqb (strip s) "" then None
  else if likely_ambiguous s then
    let ts_dmy := parse_try s true in
    let ts_mdy := parse_try s false in
    let ts_camp := or_else (parse_try camp_text true) (parse_try camp_text false) in
    match ts_dmy, ts_mdy with
    | Some d, Some m =>
        Some {| raw_created := s;
                dmy := d;
                mdy := m;
                campaign_start := ts_camp;
                chosen := choose utc_year d m ts_camp |}
    | _, _ => None
    end
  else None.

End Resolver.

(** ** A reader for the examples

    Reads [a/b/yyyy] and [yyyy-a-b] the way [pd.to_datetime] resolves
    such dates: with [dayfirst] the first of [a], [b] is the day when the
    other can be a month, also after a leading year; without it the first
    is the month, unless in [a/b/yyyy] it is above 12.  It answers [NaT]
    on the empty string and on "nan", and raises on anything else.  It is
    used only in the examples below. *)

Definition all_digits (n : nat) (s : string) : option Z :=
  match digitpart 0 s with
  | Some (v, k, EmptyString) => if (k =? n)%nat then Some v else None
  | _ => None
  end.

Definition days_in_month (y m : Z) : Z :=
  if (m =? 2)%Z then
    if ((y mod 4 =? 0) && negb (y mod 100 =? 0) || (y mod 400 =? 0))%Z then 29 else 28
  else if ((m =? 4) || (m =? 6) || (m =? 9) || (m =? 11))%Z then 30
  else 31.

Definition valid_date (y m d : Z) : bool :=
  (1 <=? m)%Z && (m <=? 12)%Z && (1 <=? d)%Z && (d <=? days_in_month y m)%Z.

(** The day and the month among two numbers [a], [b], in the order
    written; [year_first] when they follow the year. *)
Definition day_and_month (year_first dayfirst : bool) (a b : Z) : Z * Z :=
  if negb year_first && (12 <? a)%Z || dayfirst && (b <=? 12)%Z then (a, b) else (b, a).

Definition example_reader (s : string) (dayfirst : bool) : option timestamp :=
  if String.eqb s "" || String.eqb s "nan" then Some NaT
  else
    match all_digits 2 (String.substring 0 2 s), all_digits 2 (String.substring 3 2 s),
          all_digits 4 (String.substring 6 4 s) with
    | Some a, Some b, Some y =>
        if String.eqb (String.substring 2 1 s) "/" && String.eqb (String.substring 5 1 s) "/"
           && (String.length s =? 10)%nat
        then
          let '(d, m) := day_and_month false dayfirst a b in
          if valid_date y m d then Some (midnight y m d) else None
        else None
    | _, _, _ =>
        match all_digits 4 (String.substring 0 4 s), all_digits 2 (String.substring 5 2 s),
              all_digits 2 (String.substring 8 2 s) with
        | Some y, Some a, Some b =>
            if String.eqb (String.substring 4 1 s) "-" && String.eqb (String.substring 7 1 s) "-"
               && (String.length s =? 10)%nat
            then
              let '(d, m) := day_and_month true dayfirst a b in
              if valid_date y m d then Some (midnight y m d) else None
            else None
        | _, _, _ => None
        end
    end.

End debug_dates.

(* ===================================================================== *)
(** * reclassify_post_types.py                                             *)
(* ===================================================================== *)

Module reclassify_post_types.
Import Py.
Import normalizer_utils.

(** The stored types that [run] rewrites. *)
Definition REWRITTEN : list string := ["organic"; "sponsored"; "paid"; "boosted"; ""].

(** The new type of one stored row, [None] when the row is left alone.
    A field that is [None] in the row is "". *)
Definition reclassify (post_type post_content post_url post_title : string)
  : option string :=
  let pt := lower post_type in
  if in_list pt REWRITTEN
  then Some (normalize_post_type pt post_content post_url post_title)
  else None.

End reclassify_post_types.

(* ===================================================================== *)
(** * Predicates used in the statements                                    *)
(* ===================================================================== *)

Module Props.
Import Py.
Import export_ingester.
Import supabase_io.

(** No header contains the lowered candidate (so none is equal to it). *)
Definition miss (lowered : list string) (name : string) : Prop :=
  forall h, h ∈ lowered -> contains h (lower name) = false.

(** [c] is the column found for candidate [name], at position [i]: the
    first header equal to the lowered name, or else, when no header is
    equal to it, the first header that contains it. *)
Definition hit (cols lowered : list string) (name : string) (i : nat) (c : string) : Prop :=
  cols !! i = Some c /\
  ((lowered !! i = Some (lower name) /\
    forall j h, lowered !! j = Some h -> (j < i)%nat -> h <> lower name)
   \/
   ((forall h, h ∈ lowered -> h <> lower name) /\
    (exists h, lowered !! i = Some h /\ contains h (lower name) = true) /\
    forall j h, lowered !! j = Some h -> (j < i)%nat -> contains h (lower name) = false)).

(** [str(value).strip().endswith('%')], the test that sends [clean_rate]
    to its first branch. *)
Definition percent_suffixed (value : cell) : bool :=
  match value with
  | CStr text => endswith (strip text) "%"
  | CInt z => endswith (strip (str_of_int z)) "%"
  | _ => false
  end.

(** [0 < x < 1] *)
Definition in_unit_interval (x : pyfloat) : bool :=
  flt (of_int 0) x && flt x (of_int 1).

(** A grid with the given metric cells, for the examples. *)
Definition example_columns : post_columns :=
  {| post_title_col := Some "Post title";
     post_link_col := Some "Post link";
     distribution_col := None;
     content_type_col := None;
     created_col := Some "Created date";
     impressions_col := Some "Impressions";
     views_col := None;
     clicks_col := Some "Clicks";
     ctr_col := None;
     likes_col := Some "Likes";
     comments_col := Some "Comments";
     reposts_col := Some "Reposts";
     engagement_rate_col := Some "Engagement rate" |}.

Definition example_context : row_context :=
  {| ctx_post_id := "0123456789abcdef";
     ctx_company_id := "wentors";
     ctx_created_iso := "2025-06-08T00:00:00";
     ctx_hashtags := [];
     ctx_mentions := [] |}.

Definition example_row (cells : list (string * cell)) : post_row :=
  {| title_text := "Launch day";
     link_text := "";
     content_type_text := "";
     metrics := list_to_map cells |}.

(** The merged count of field [f] for baseline row [base] and incoming
    record [p]. *)
Definition merged_count (base p : dict) (f : string) : Z :=
  Z.max (_safe_int (get base f)) (_safe_int (get p f)).

(** The rates [_recompute_rates] derives from counts [m]. *)
Definition ctr_of_counts (m : string -> Z) : pyfloat :=
  if (0 <? m "impressions")%Z
  then round (ratio100 (m "clicks") (m "impressions")) 6
  else of_int 0.

Definition engagement_of_counts (m : string -> Z) : pyfloat :=
  min2 (if (0 <? m "impressions")%Z
        then round (ratio100 (m "likes" + m "comments" + m "shares" + m "clicks")
                             (m "impressions")) 6
        else of_int 0)
       (of_int 100).

(** The store's reading of an upsert: the columns sent replace the stored
    ones, the other columns of the stored row stay. *)
Definition upsert_row (stored sent : dict) : dict := sent ∪ stored.


(** The call returns a value rather than raising. *)
Definition returns {A : Type} (m : outcome A) : Prop := exists a, m = Return a.

(** A library in which every read fails, for the examples. *)
Definition failing_read {A B C : Type} (_ : A) (_ : B) : outcome C := Raise "OSError".

(** Every character of [s] satisfies [p]. *)
Fixpoint all_chars (p : ascii -> bool) (s : string) : bool :=
  match s with
  | EmptyString => true
  | String c r => p c && all_chars p r
  end.

Definition not_minus (c : ascii) : bool := negb (Ascii.eqb c "-").

Definition not_number_char (c : ascii) : bool := negb (digit_or_comma c).

Definition not_digit (c : ascii) : bool := negb (is_digit c).

(** A column label of a demographics sheet names the value, the count or
    the percentage: the tests of [_process_demographics_df]. *)
Definition value_label (col : string) : bool :=
  any_in ["name"; "value"; "location"; "function"; "title"; "category"] (strip (lower col)).

Definition count_label (col : string) : bool :=
  any_in ["count"; "number"; "followers"; "audience"; "members"; "total"] (strip (lower col)).

Definition percentage_label (col : string) : bool :=
  any_in ["percentage"; "percent"; "%"; "share"; "pct"] (strip (lower col)).

End Props.

(* ===================================================================== *)
(** * Facts                                                                *)
(* ===================================================================== *)

Import Py normalizer_utils export_ingester supabase_io debug_dates reclassify_post_types Props.

(** ** Strings *)

Section StringFacts.

Lemma append_cons (x : ascii) (a b : string) : String x a +:+ b = String x (a +:+ b).
Proof. reflexivity. Qed.

Lemma append_nil (b : string) : "" +:+ b = b.
Proof. reflexivity. Qed.

Lemma app_assoc_s (a b c : string) : (a +:+ b) +:+ c = a +:+ (b +:+ c).
Proof.
  induction a as [|x a IH]; [reflexivity |].
  now rewrite !append_cons, IH.
Qed.

Lemma lower_app (a b : string) : lower (a +:+ b) = lower a +:+ lower b.
Proof.
  induction a as [|x a IH]; [reflexivity |].
  rewrite append_cons. simpl. now rewrite IH, append_cons.
Qed.

Lemma startswith_spec (s p : string) :
  startswith s p = true <-> exists b, s = p +:+ b.
Proof.
  revert s. induction p as [|a p IH]; intros s.
  - split; [intros _; now exists s | intros _; destruct s; reflexivity].
  - destruct s as [|b s]; simpl.
    + split; [discriminate | intros [t Ht]; discriminate].
    + destruct (Ascii.eqb a b) eqn:E.
      * apply Ascii.eqb_eq in E as ->. rewrite IH.
        split; intros [t Ht]; exists t; [now rewrite append_cons, Ht | now inversion Ht].
      * apply Ascii.eqb_neq in E.
        split; [discriminate | intros [t Ht]; inversion Ht; congruence].
Qed.

Lemma contains_unfold (s p : string) :
  contains s p =
  if startswith s p then true
  else match s with
       | EmptyString => false
       | String _ s' => contains s' p
       end.
Proof. destruct s; reflexivity. Qed.

Lemma contains_spec (s p : string) :
  contains s p = true <-> exists a b, s = a +:+ p +:+ b.
Proof.
  induction s as [|c s IH]; rewrite contains_unfold.
  - destruct (startswith "" p) eqn:E.
    + split; [intros _ | reflexivity].
      apply startswith_spec in E as [b Hb]. now exists "", b.
    + split; [discriminate |]. intros (a & b & H).
      destruct a as [|x a]; [| discriminate].
      assert (startswith "" p = true) by (apply startswith_spec; now exists b).
      congruence.
  - destruct (startswith (String c s) p) eqn:E.
    + split; [intros _ | reflexivity].
      apply startswith_spec in E as [b Hb]. now exists "", b.
    + rewrite IH. split.
      * intros (a & b & H). exists (String c a), b. now rewrite append_cons, H.
      * intros (a & b & H). destruct a as [|x a].
        -- assert (startswith (String c s) p = true) by (apply startswith_spec; now exists b).
           congruence.
        -- rewrite append_cons in H. inversion H. now exists a, b.
Qed.

Lemma contains_app_l (x y p : string) :
  contains x p = true -> contains (x +:+ y) p = true.
Proof.
  rewrite !contains_spec. intros (a & b & ->). exists a, (b +:+ y).
  now rewrite !app_assoc_s.
Qed.

Lemma contains_lower (s p : string) :
  contains s p = true -> contains (lower s) (lower p) = true.
Proof.
  rewrite !contains_spec. intros (a & b & ->). exists (lower a), (lower b).
  now rewrite !lower_app.
Qed.

Lemma contains_empty (s : string) : contains s "" = true.
Proof. destruct s; reflexivity. Qed.

End StringFacts.

(** ** [normalize_post_type] *)

Lemma canonical_result raw content url title :
  In (normalize_post_type raw content url title) CANON_POST_TYPES.
Proof.
  unfold normalize_post_type, CANON_POST_TYPES.
  repeat match goal with |- context [if ?b then _ else _] => destruct b end;
    simpl; tauto.
Qed.

Lemma label_is_dropped raw content url title :
  In raw DISTRIBUTION_LABELS ->
  normalize_post_type raw content url title = normalize_post_type "" content url title.
Proof.
  unfold DISTRIBUTION_LABELS. simpl.
  intros [<-|[<-|[<-|[<-|[<-|[]]]]]]; reflexivity.
Qed.

Lemma sponsored_video content url title :
  contains (lower content) "video" = true ->
  normalize_post_type "Sponsored" content url title = "video".
Proof.
  intros H. unfold normalize_post_type.
  assert (Ht : contains (lower (join3 content url title)) "video" = true).
  { unfold join3. rewrite lower_app. now apply contains_app_l. }
  rewrite Ht. now rewrite orb_true_r.
Qed.

(** C6.  A raw label that is one of organic, sponsored, paid, boosted,
    promoted gives the same result as the empty label; every result is one
    of text, article, image, document, video; and the label "Sponsored"
    with a content that contains "video" (in any letter case) is
    classified as video. *)
Theorem normalize_post_type_ignores_distribution :
  (forall label content url title,
      In label DISTRIBUTION_LABELS ->
      normalize_post_type label content url title
      = normalize_post_type "" content url title) /\
  (forall raw content url title,
      In (normalize_post_type raw content url title) CANON_POST_TYPES) /\
  (forall content url title,
      contains (lower content) "video" = true ->
      normalize_post_type "Sponsored" content url title = "video").
Proof.
  split; [| split].
  - intros label content url title H. now apply label_is_dropped.
  - intros raw content url title. apply canonical_result.
  - intros content url title H. now apply sponsored_video.
Qed.

Lemma normalize_post_type_ignores_distribution_witness :
  normalize_post_type "boosted" "Quarterly report.pdf" "" "Quarterly report.pdf"
  = normalize_post_type "" "Quarterly report.pdf" "" "Quarterly report.pdf" /\
  normalize_post_type "Sponsored" "Watch our new Video" "" "" = "video".
Proof.
  split.
  - apply (proj1 normalize_post_type_ignores_distribution). simpl. tauto.
  - apply (proj2 (proj2 normalize_post_type_ignores_distribution)). reflexivity.
Defined.

(** A content that contains the lowercase word also contains it after
    lowering. *)
Lemma sponsored_video_literal content url title :
  contains content "video" = true ->
  normalize_post_type "Sponsored" content url title = "video".
Proof.
  intros H. apply sponsored_video. now apply (contains_lower content "video").
Qed.

(** ** [find_column] *)

Lemma contains_self (s : string) : contains s s = true.
Proof.
  rewrite contains_unfold.
  assert (H : startswith s s = true) by (apply startswith_spec; exists ""; induction s as [|c s IH]; [reflexivity | now rewrite append_cons, <- IH]).
  now rewrite H.
Qed.

Lemma find_column_loop_spec (cols lowered candidates : list string) :
  length cols = length lowered ->
  match find_column_loop cols lowered candidates with
  | None => forall name, name ∈ candidates -> miss lowered name
  | Some c =>
      exists skipped name rest i,
        candidates = (skipped ++ name :: rest)%list /\
        (forall n, n ∈ skipped -> miss lowered n) /\
        hit cols lowered name i c
  end.
Proof.
  intros Hlen. induction candidates as [|name rest IH]; simpl.
  - intros name Hin. inversion Hin.
  - destruct (list_find (fun c => c = lower name) lowered) as [[i h]|] eqn:Hexact.
    + apply list_find_Some in Hexact as (Hi & -> & Hfirst).
      destruct (lookup_lt_is_Some_2 cols i) as [c Hc].
      { rewrite Hlen. eapply lookup_lt_Some; eauto. }
      rewrite Hc. exists [], name, rest, i. split; [reflexivity |].
      split; [intros n Hn; inversion Hn |].
      split; [exact Hc |]. left. split; [exact Hi |].
      intros j h Hj Hlt. exact (Hfirst j h Hj Hlt).
    + apply list_find_None in Hexact. rewrite Forall_forall in Hexact.
      destruct (list_find (fun c => Is_true (contains c (lower name))) lowered)
        as [[i h]|] eqn:Hsub.
      * apply list_find_Some in Hsub as (Hi & Hh & Hfirst).
        destruct (lookup_lt_is_Some_2 cols i) as [c Hc].
        { rewrite Hlen. eapply lookup_lt_Some; eauto. }
        rewrite Hc. exists [], name, rest, i. split; [reflexivity |].
        split; [intros n Hn; inversion Hn |].
        split; [exact Hc |]. right. split; [| split].
        -- intros h' Hin. now apply Hexact.
        -- exists h. split; [exact Hi |]. now apply Is_true_true.
        -- intros j h' Hj Hlt. specialize (Hfirst j h' Hj Hlt).
           destruct (contains h' (lower name)); [exfalso; apply Hfirst; exact I | reflexivity].
      * apply list_find_None in Hsub. rewrite Forall_forall in Hsub.
        assert (Hmiss : miss lowered name).
        { intros h Hin. specialize (Hsub h). 
          destruct (contains h (lower name)); [exfalso; apply Hsub; [exact Hin | exact I] | reflexivity]. }
        destruct (find_column_loop cols lowered rest) as [c|].
        -- destruct IH as (skipped & nm & rest' & i & -> & Hskip & Hhit).
           exists (name :: skipped), nm, rest', i. split; [reflexivity |].
           split; [| exact Hhit].
           intros n Hn. apply elem_of_cons in Hn as [->|Hn]; [exact Hmiss | now apply Hskip].
        -- intros n Hn. apply elem_of_cons in Hn as [->|Hn]; [exact Hmiss | now apply IH].
Qed.

(** C9.  Candidates are tried in the order given.  The column returned is,
    for the first candidate that matches any header, the first header equal
    to the candidate up to letter case (headers stripped), or else, when no
    header is equal to it, the leftmost header containing it; every earlier
    candidate matches no header.  [None] is returned exactly when no
    candidate is contained in any header.  [find_column] is a function of
    its two arguments and touches nothing else. *)
Theorem find_column_priority_order (columns candidates : list string) :
  let cols := strip <$> columns in
  let lowered := lower <$> cols in
  match find_column columns candidates with
  | None => forall name, name ∈ candidates -> miss lowered name
  | Some c =>
      exists skipped name rest i,
        candidates = (skipped ++ name :: rest)%list /\
        (forall n, n ∈ skipped -> miss lowered n) /\
        hit cols lowered name i c
  end.
Proof.
  intros cols lowered. unfold find_column.
  apply find_column_loop_spec. unfold lowered. now rewrite length_fmap.
Qed.

(** ** Rounding and comparisons *)

Lemma round_half_even_integer (q : Q) (z : Z) :
  (q == inject_Z z)%Q -> round_half_even q = z.
Proof.
  unfold Qeq, round_half_even. simpl. intros H.
  rewrite Z.mul_1_r in H. rewrite H.
  rewrite Z.div_mul by discriminate. rewrite Z.mod_mul by discriminate.
  reflexivity.
Qed.

Lemma round_q_idempotent (q : Q) (n : nat) :
  round_q (round_q q n) n = round_q q n.
Proof.
  unfold round_q at 1 3.
  set (z := round_half_even (q * inject_Z (Z.pos (pow10 n)))).
  replace (round_q q n) with (Qred (z # pow10 n)) by reflexivity.
  f_equal. f_equal.
  apply round_half_even_integer.
  rewrite Qred_correct. unfold Qeq, inject_Z. simpl. lia.
Qed.

Lemma round_idempotent (x : pyfloat) (n : nat) : round (round x n) n = round x n.
Proof. destruct x; simpl; [now rewrite round_q_idempotent | reflexivity ..]. Qed.

(** [min(x, 100.0)] is never above 100, and is at most 100 unless [x] is
    nan. *)
Lemma min2_not_above (x : pyfloat) : flt (of_int 100) (min2 x (of_int 100)) = false.
Proof.
  unfold min2. destruct (flt (of_int 100) x) eqn:E; [reflexivity | exact E].
Qed.

Lemma flt_false_fle (a b : Q) : flt (Fin a) (Fin b) = false -> fle (Fin b) (Fin a) = true.
Proof.
  simpl. destruct (Qcompare a b) eqn:E; try discriminate; intros _.
  - apply Qeq_alt in E. destruct (Qcompare b a) eqn:E'; try reflexivity.
    apply Qgt_alt in E'. rewrite E in E'. exfalso. now apply (Qlt_irrefl b).
  - apply Qgt_alt in E. destruct (Qcompare b a) eqn:E'; try reflexivity.
    apply Qgt_alt in E'. exfalso. apply (Qlt_irrefl a). now apply Qlt_trans with b.
Qed.

Lemma min2_capped (x : pyfloat) : x <> NaN -> fle (min2 x (of_int 100)) (of_int 100) = true.
Proof.
  intros Hx. unfold min2. destruct (flt (of_int 100) x) eqn:E; [reflexivity |].
  destruct x as [q| | |]; try (simpl in *; congruence).
  now apply flt_false_fle.
Qed.

(** ** [clean_rate] *)

Lemma rate_of_number_fixed (val v : pyfloat) :
  rate_of_number val = v -> v <> NaN -> in_unit_interval v = false ->
  rate_of_number v = v.
Proof.
  intros Hv Hnan Hout. unfold rate_of_number at 1.
  fold (in_unit_interval v). rewrite Hout. subst v.
  unfold rate_of_number.
  destruct (flt (of_int 0) val && flt val (of_int 1)); apply round_idempotent.
Qed.

Lemma clean_rate_text_plain (s : string) :
  endswith s "%" = false ->
  clean_rate_text s = of_int 0 \/ exists val, clean_rate_text s = rate_of_number val.
Proof.
  intros H. unfold clean_rate_text. rewrite H.
  destruct (float_of_str (remove_char "," s)) as [val|]; [right; now exists val | now left].
Qed.

Lemma clean_rate_plain (c : cell) :
  percent_suffixed c = false ->
  clean_rate c = of_int 0 \/ exists val, clean_rate c = rate_of_number val.
Proof.
  intros H. unfold clean_rate.
  destruct (is_missing c); [now left |].
  destruct c as [|z|x|s]; simpl in H.
  - now left.
  - now apply clean_rate_text_plain.
  - right. now exists x.
  - now apply clean_rate_text_plain.
Qed.

(** X7.  A value returned by [clean_rate] for an input without a percent
    sign is returned unchanged when [clean_rate] is applied to it again,
    provided it is a number outside the open interval (0,1).
    [clean_rate(36.0)] is 36.0, again 36.0 when repeated, and
    [clean_rate(0.36)] is 36.0. *)
Theorem clean_rate_idempotent_outside_unit :
  (forall c v,
      percent_suffixed c = false ->
      clean_rate c = v ->
      v <> NaN ->
      in_unit_interval v = false ->
      clean_rate (CFloat v) = v) /\
  clean_rate (CFloat (Fin 36)) = Fin 36 /\
  clean_rate (CFloat (clean_rate (CFloat (Fin 36)))) = Fin 36 /\
  clean_rate (CFloat (Fin (36 # 100))) = Fin 36.
Proof.
  split; [| repeat split; reflexivity].
  intros c v Hc Hv Hnan Hout.
  assert (Hstep : clean_rate (CFloat v) = rate_of_number v).
  { destruct v; try reflexivity. congruence. }
  rewrite Hstep.
  destruct (clean_rate_plain c Hc) as [H0|[val Hval]].
  - rewrite H0 in Hv. subst v. reflexivity.
  - rewrite Hval in Hv. now apply (rate_of_number_fixed val).
Qed.

Lemma clean_rate_idempotent_outside_unit_witness :
  clean_rate (CFloat (Fin (1234567891 # 1000000))) = Fin (1234567891 # 1000000).
Proof.
  apply (proj1 clean_rate_idempotent_outside_unit (CStr " 1,234.5678912 ")).
  - reflexivity.
  - reflexivity.
  - discriminate.
  - reflexivity.
Defined.


(** ** The record built for a row *)

Lemma compute_ctr_cases (clicks impressions : Z) :
  compute_ctr clicks impressions =
  if (0 <? impressions)%Z then round (ratio100 clicks impressions) 4 else of_int 0.
Proof.
  unfold compute_ctr.
  destruct (Z.ltb_spec 0 impressions), (Z.eqb_spec impressions 0); simpl; try reflexivity; lia.
Qed.




(** C2 at its failing input: 5 clicks on 2 impressions, no CTR column. The
    record's ctr is 250.0, outside [0,100]. *)
Theorem ctr_above_hundred :
  exists rec,
    normalize_row example_columns example_context
      (example_row [("Impressions", CStr "2"); ("Clicks", CStr "5")]) = Some rec /\
    ctr rec = Fin 250 /\
    fle (ctr rec) (of_int 100) = false.
Proof. eexists. repeat split; reflexivity. Qed.

(** [clean_rate] itself leaves the range its docstring announces. *)
Lemma clean_rate_outside_range :
  clean_rate (CStr "250%") = Fin 250 /\ clean_rate (CStr "-5") = Fin (-5).
Proof. split; reflexivity. Qed.

(** C3 at its failing input: no impressions, and the text "nan" in the
    engagement-rate column.  [min(nan, 100.0)] is nan, which is not at
    most 100. *)
Theorem engagement_rate_nan_escapes_cap :
  exists rec,
    normalize_row example_columns example_context
      (example_row [("Impressions", CInt 0); ("Engagement rate", CStr "nan")]) = Some rec /\
    engagement_rate rec = NaN /\
    fle (engagement_rate rec) (of_int 100) = false.
Proof. eexists. repeat split; reflexivity. Qed.

(** Apart from that case the cap holds. *)
Lemma engagement_rate_never_above cols ctx row rec :
  normalize_row cols ctx row = Some rec ->
  flt (of_int 100) (engagement_rate rec) = false.
Proof.
  unfold normalize_row. intros H.
  destruct (String.eqb (strip (title_text row)) ""); [discriminate |].
  injection H as <-. cbn [engagement_rate]. apply min2_not_above.
Qed.

Lemma engagement_rate_capped_with_impressions cols ctx row rec :
  normalize_row cols ctx row = Some rec ->
  (0 < impressions rec)%Z ->
  fle (engagement_rate rec) (of_int 100) = true.
Proof.
  unfold normalize_row. intros H.
  destruct (String.eqb (strip (title_text row)) ""); [discriminate |].
  injection H as <-. cbn [engagement_rate impressions]. intros Hpos.
  apply Z.ltb_lt in Hpos. rewrite Hpos.
  apply min2_capped. discriminate.
Qed.

Lemma recomputed_engagement_rate_capped (rec0 : dict) :
  exists q, _recompute_rates rec0 !! "engagement_rate" = Some (VFloat (Fin q)) /\
            fle (Fin q) (of_int 100) = true.
Proof.
  unfold _recompute_rates. rewrite lookup_insert_eq.
  destruct (0 <? _safe_int (get rec0 "impressions"))%Z.
  - pose proof (min2_capped (round (ratio100 (_safe_int (get rec0 "likes") + _safe_int (get rec0 "comments") + _safe_int (get rec0 "shares") + _safe_int (get rec0 "clicks")) (_safe_int (get rec0 "impressions"))) 6)) as H.
    unfold min2 in *. simpl round in *.
    match goal with |- context [if ?b then _ else _] => destruct b end.
    + eexists. split; [reflexivity | reflexivity].
    + eexists. split; [reflexivity |]. apply H. discriminate.
  - exists 0%Q. split; reflexivity.
Qed.

(** ** [upsert_posts] *)

Ltac in_fields :=
  unfold NUMERIC_FIELDS;
  solve [repeat first [apply list_elem_of_here | apply list_elem_of_further]].

Ltac field_cases H :=
  unfold NUMERIC_FIELDS in H;
  repeat (apply elem_of_cons in H as [->|H]); [.. | inversion H].

Lemma merge_max_numeric (base q : dict) (f : string) :
  f ∈ NUMERIC_FIELDS ->
  merge_max base q !! f = Some (VInt (merged_count base q f)).
Proof.
  intros H. unfold merge_max, merged_count, NUMERIC_FIELDS, get. cbn [foldl].
  field_cases H; simplify_map_eq; reflexivity.
Qed.

Lemma merge_max_other (base q : dict) (k : string) :
  k ∉ NUMERIC_FIELDS -> merge_max base q !! k = q !! k.
Proof.
  intros H. unfold merge_max, NUMERIC_FIELDS in *. cbn [foldl].
  rewrite !not_elem_of_cons in H. destruct H as (?&?&?&?&?&?&_).
  now rewrite !lookup_insert_ne by congruence.
Qed.

Lemma recompute_other (r : dict) (k : string) :
  k <> "ctr" -> k <> "engagement_rate" -> _recompute_rates r !! k = r !! k.
Proof.
  intros H1 H2. unfold _recompute_rates. now rewrite !lookup_insert_ne by congruence.
Qed.

Lemma recompute_ctr (r : dict) :
  _recompute_rates r !! "ctr"
  = Some (VFloat (ctr_of_counts (fun f => _safe_int (get r f)))).
Proof.
  unfold _recompute_rates. rewrite lookup_insert_ne by discriminate.
  now rewrite lookup_insert_eq.
Qed.

Lemma recompute_engagement (r : dict) :
  _recompute_rates r !! "engagement_rate"
  = Some (VFloat (engagement_of_counts (fun f => _safe_int (get r f)))).
Proof. unfold _recompute_rates. now rewrite lookup_insert_eq. Qed.

Lemma numeric_not_special (f : string) :
  f ∈ NUMERIC_FIELDS ->
  f <> "ctr" /\ f <> "engagement_rate" /\ f <> "date_collected" /\ f <> "company_id".
Proof. intros H. field_cases H; repeat split; discriminate. Qed.


Lemma get_merge_max (base q : dict) (f : string) :
  f ∈ NUMERIC_FIELDS -> _safe_int (get (merge_max base q) f) = merged_count base q f.
Proof. intros H. unfold get. now rewrite merge_max_numeric. Qed.



(** Neither the merge nor the recomputation brings [date_collected] back. *)
Lemma merged_record_no_date (base q : dict) :
  q !! "date_collected" = None ->
  _recompute_rates (merge_max base q) !! "date_collected" = None.
Proof.
  intros H. rewrite recompute_other by discriminate.
  rewrite merge_max_other; [exact H |].
  unfold NUMERIC_FIELDS. rewrite !not_elem_of_cons. repeat split; try discriminate.
  apply not_elem_of_nil.
Qed.

Section ClientFacts.

Variable select_in : nat -> list pyval -> outcome (list dict).
Variable execute : list request -> request -> outcome unit.
Variable cid : string.
Variable policy : string.

Lemma split_post_no_date (existing : baseline) (p : dict) (b : bool) (q : dict) :
  split_post policy existing p = Return (b, q) -> q !! "date_collected" = None.
Proof.
  unfold split_post. intros H.
  destruct (p !! "post_id") as [id|]; [| discriminate].
  destruct (hashable id); [| discriminate].
  destruct (baseline_get existing id) as [base|].
  - destruct (String.eqb policy "max"); injection H as _ <-.
    + apply merged_record_no_date. apply lookup_delete_eq.
    + apply lookup_delete_eq.
  - injection H as _ <-. apply lookup_delete_eq.
Qed.

Lemma split_posts_no_date (existing : baseline) (posts new_posts update_posts : list dict) :
  split_posts policy existing posts = Return (new_posts, update_posts) ->
  forall q, q ∈ new_posts \/ q ∈ update_posts -> q !! "date_collected" = None.
Proof.
  revert new_posts update_posts.
  induction posts as [|p rest IH]; intros new_posts update_posts H q Hq.
  - injection H as <- <-. destruct Hq as [Hq|Hq]; inversion Hq.
  - cbn in H.
    destruct (split_post policy existing p) as [[b q0]|] eqn:Hp; [| discriminate].
    cbn in H.
    destruct (split_posts policy existing rest) as [[n u]|] eqn:Hr; [| discriminate].
    cbn in H. apply split_post_no_date in Hp.
    specialize (IH n u eq_refl q).
    destruct b; injection H as <- <-.
    + destruct Hq as [Hq|Hq]; [now apply IH; left |].
      apply elem_of_cons in Hq as [->|Hq]; [exact Hp | now apply IH; right].
    + destruct Hq as [Hq|Hq]; [| now apply IH; right].
      apply elem_of_cons in Hq as [->|Hq]; [exact Hp | now apply IH; left].
Qed.

Lemma chunks_loop_elem {A : Type} (fuel n : nat) (l c : list A) (x : A) :
  c ∈ chunks_loop fuel n l -> x ∈ c -> x ∈ l.
Proof.
  revert l. induction fuel as [|fuel IH]; intros l Hc Hx; [inversion Hc |].
  destruct l as [|a l]; [inversion Hc |].
  cbn [chunks_loop] in Hc. apply elem_of_cons in Hc as [->|Hc].
  - eapply subseteq_take; eauto.
  - eapply subseteq_drop. eapply IH; eauto.
Qed.

Lemma chunks_elem {A : Type} (n : nat) (l c : list A) (x : A) :
  c ∈ chunks n l -> x ∈ c -> x ∈ l.
Proof. apply chunks_loop_elem. Qed.

Lemma send_sent (sent todo : list request) (r : request) :
  r ∈ (send execute sent todo).1 -> r ∈ sent \/ r ∈ todo.
Proof.
  revert sent. induction todo as [|t rest IH]; intros sent H; cbn in H.
  - now left.
  - destruct (execute sent t).
    + apply IH in H as [H|H].
      * apply elem_of_app in H as [H|H]; [now left |].
        apply list_elem_of_singleton in H as ->. right. left.
      * right. now right.
    + cbn in H. apply elem_of_app in H as [H|H]; [now left |].
      apply list_elem_of_singleton in H as ->. right. left.
Qed.




Lemma send_all (sent todo : list request) :
  (forall s r, execute s r = Return tt) ->
  send execute sent todo = ((sent ++ todo)%list, Return tt).
Proof.
  intros Hok. revert sent. induction todo as [|t rest IH]; intros sent; cbn.
  - now rewrite app_nil_r.
  - rewrite Hok, IH. now rewrite <- app_assoc.
Qed.



Lemma baseline_get_elem (rows : baseline) (id : pyval) (base : dict) :
  baseline_get rows id = Some base ->
  exists key, (key, base) ∈ rows /\ py_eq key id = true.
Proof.
  induction rows as [|[k r] rest IH]; cbn; [discriminate |].
  destruct (py_eq k id) eqn:E.
  - intros [= <-]. exists k. split; [left | exact E].
  - intros H. destruct (IH H) as (key & Hin & Heq). exists key. split; [now right | exact Heq].
Qed.


End ClientFacts.

Lemma plan_posts_steps
      (select_in : nat -> list pyval -> outcome (list dict)) (cid policy : string)
      (posts new_posts update_posts : list dict) :
  plan_posts select_in cid policy posts = Return (new_posts, update_posts) ->
  exists existing,
    fetch_existing select_in (with_company cid posts) = Return existing /\
    split_posts policy existing (with_company cid posts) = Return (new_posts, update_posts).
Proof.
  intros H. unfold plan_posts in H.
  destruct (fetch_existing select_in (with_company cid posts)) as [existing|]; [| discriminate].
  exists existing. split; [reflexivity | exact H].
Qed.

Lemma record_dict_no_date (r : post_record) : record_dict r !! "date_collected" = None.
Proof. reflexivity. Qed.

(** C10.  No record in any write sent by [upsert_posts], insert or upsert,
    has a [date_collected] entry, whichever records came in and whatever
    the store answered.  An upsert that replaces the columns it is sent
    therefore leaves the stored [date_collected] as it was. *)
Theorem writes_omit_date_collected
        (select_in : nat -> list pyval -> outcome (list dict))
        (execute : list request -> request -> outcome unit)
        (cid policy : string) (posts : list dict) (r : request) (rec : dict) :
  r ∈ (upsert_posts select_in execute cid policy posts).1 ->
  rec ∈ request_rows r ->
  rec !! "date_collected" = None /\
  forall stored : dict,
    upsert_row stored rec !! "date_collected" = stored !! "date_collected".
Proof.
  intros Hr Hrec.
  assert (Hnone : rec !! "date_collected" = None).
  { unfold upsert_posts in Hr. destruct posts as [|p0 rest]; [inversion Hr |].
    destruct (plan_posts select_in cid policy (p0 :: rest)) as [[new_posts update_posts]|]
      eqn:Hplan; [| inversion Hr].
    apply send_sent in Hr as [Hr|Hr]; [inversion Hr |].
    apply plan_posts_steps in Hplan as (existing & _ & Hplan).
    pose proof (split_posts_no_date policy existing _ _ _ Hplan rec) as Hfree.
    apply elem_of_app in Hr as [Hr|Hr];
      apply list_elem_of_fmap in Hr as (c & -> & Hc); cbn in Hrec;
      apply Hfree; [left | right]; eapply chunks_elem; eauto. }
  split; [exact Hnone |].
  intros stored. unfold upsert_row. rewrite lookup_union, Hnone.
  now destruct (stored !! "date_collected").
Qed.

Lemma writes_omit_date_collected_witness :
  let p : dict :=
    list_to_map [("post_id", VStr "a1"); ("impressions", VInt 5);
                 ("date_collected", VStr "2024-01-01T00:00:00")] in
  let q : dict := delete "date_collected" (<["company_id" := VStr "wentors"]> p) in
  InsertRows [q] ∈ (upsert_posts (fun _ _ => Return []) (fun _ _ => Return tt)
                                 "wentors" "max" [p]).1 /\
  q !! "date_collected" = None.
Proof.
  intros p q.
  assert (Hsent : InsertRows [q] ∈ (upsert_posts (fun _ _ => Return []) (fun _ _ => Return tt)
                                                 "wentors" "max" [p]).1).
  { vm_compute. left. }
  split; [exact Hsent |].
  apply (writes_omit_date_collected (fun _ _ => Return []) (fun _ _ => Return tt)
           "wentors" "max" [p] (InsertRows [q]) q Hsent).
  simpl. left.
Defined.



(** ** [load_posts_df_robust] *)

Lemma try_except_returns {A : Type} (body handler : outcome A) :
  returns handler -> returns (try_except body handler).
Proof. intros [a ->]. destruct body as [b|e]; [now exists b | now exists a]. Qed.

Lemma try_except_same {A : Type} (body handler : outcome A) (a : A) :
  (forall b, body = Return b -> b = a) -> handler = Return a ->
  try_except body handler = Return a.
Proof. intros Hb ->. destruct body as [b|e]; cbn; [now rewrite (Hb b) | reflexivity]. Qed.

Section LoaderFacts.

Context {Path : Type}.
Variable suffix : Path -> string.
Variable zip_namelist : Path -> outcome (list string).
Variable zip_extract : Path -> string -> outcome Path.
Variable is_zipfile : Path -> outcome bool.
Variable excel_sheet_names : Path -> outcome (list string).
Variable read_excel : Path -> string -> outcome DataFrame.
Variable read_csv : Path -> option string -> outcome DataFrame.
Variable xlrd_sheet_names : Path -> outcome (list string).
Variable xlrd_sheet_frame : Path -> string -> outcome DataFrame.

Local Abbreviation load :=
  (load_posts_df_robust suffix zip_namelist zip_extract is_zipfile excel_sheet_names
                        read_excel read_csv xlrd_sheet_names xlrd_sheet_frame).

Lemma read_csv_any_returns (file_path : Path) (encodings : list string) :
  returns (read_csv_any read_csv file_path encodings).
Proof.
  induction encodings as [|enc rest IH]; cbn.
  - now exists empty_frame.
  - now apply try_except_returns.
Qed.

(** The probe of the .xlsx branch is the one call that no handler covers. *)
Lemma load_probe_raises (depth : nat) (file_path : Path) (e : string) :
  lower (suffix file_path) = ".xlsx" ->
  is_zipfile file_path = Raise e ->
  load (S depth) file_path = Raise e.
Proof.
  intros Hx Hz. cbn [load_posts_df_robust]. rewrite Hx.
  change (String.eqb ".xlsx" ".zip") with false.
  change (String.eqb ".xlsx" ".xlsx") with true.
  cbv iota. now rewrite Hz.
Qed.

Lemma load_returns (depth : nat) (file_path : Path) :
  (lower (suffix file_path) = ".xlsx" -> returns (is_zipfile file_path)) ->
  returns (load (S depth) file_path).
Proof.
  intros Hprobe. cbn [load_posts_df_robust].
  destruct (String.eqb (lower (suffix file_path)) ".zip");
    [apply try_except_returns; now exists empty_frame |].
  destruct (String.eqb_spec (lower (suffix file_path)) ".xlsx") as [Hx|_].
  - destruct (Hprobe Hx) as [is_zip Hz]. rewrite Hz. cbn [mbind outcome_bind].
    destruct is_zip; [apply try_except_returns |]; apply read_csv_any_returns.
  - repeat match goal with |- returns (if ?b then _ else _) => destruct b end;
      try (apply try_except_returns; now exists empty_frame);
      apply read_csv_any_returns.
Qed.

Hypothesis csv_fails : forall p enc, ~ returns (read_csv p enc).
Hypothesis excel_fails : forall p sheet, ~ returns (read_excel p sheet).
Hypothesis xlrd_fails : forall p sheet, ~ returns (xlrd_sheet_frame p sheet).

Lemma read_csv_any_empty (file_path : Path) (encodings : list string) :
  read_csv_any read_csv file_path encodings = Return empty_frame.
Proof.
  induction encodings as [|enc rest IH]; cbn; [reflexivity |].
  apply try_except_same; [| exact IH].
  intros b Hb. exfalso. apply (csv_fails file_path (Some enc)). now exists b.
Qed.

Lemma load_only_empty (depth : nat) (file_path : Path) (df : DataFrame) :
  load depth file_path = Return df -> df = empty_frame.
Proof.
  revert file_path df. induction depth as [|depth IH]; intros file_path df;
    cbn [load_posts_df_robust]; [discriminate |].
  assert (Hcsv : forall encs, read_csv_any read_csv file_path encs = Return df ->
                              df = empty_frame).
  { intros encs H. rewrite read_csv_any_empty in H. now injection H. }
  assert (Hexcel : forall handler,
             (handler = Return df -> df = empty_frame) ->
             try_except (excel_sheet_names file_path ≫= fun sheets =>
                         pick_posts sheets ≫= fun target_sheet =>
                         read_excel file_path target_sheet) handler = Return df ->
             df = empty_frame).
  { intros handler Hh H.
    destruct (excel_sheet_names file_path) as [sheets|]; [| now apply Hh].
    cbn in H. destruct (pick_posts sheets) as [target|]; [| now apply Hh].
    cbn in H. destruct (read_excel file_path target) as [b|] eqn:E; [| now apply Hh].
    exfalso. apply (excel_fails file_path target). now exists b. }
  repeat match goal with |- (if ?b then _ else _) = _ -> _ => destruct b end.
  - intros H.
    destruct (zip_namelist file_path) as [members|]; [| now injection H].
    cbn in H. destruct (filter _ members) as [|first rest]; [now injection H |].
    destruct (zip_extract file_path _) as [inner|]; [| now injection H].
    cbn in H.
    destruct (load_posts_df_robust _ _ _ _ _ _ _ _ _ depth inner) as [b|] eqn:E;
      [| now injection H].
    cbn in H. injection H as <-. now apply (IH inner).
  - destruct (is_zipfile file_path) as [[|]|]; cbn [mbind outcome_bind];
      [apply Hexcel, Hcsv | apply Hcsv | discriminate].
  - unfold read_xls_posts_via_xlrd. intros H.
    destruct (xlrd_sheet_names file_path) as [names|]; [| now injection H].
    cbn in H. destruct (pick_posts names) as [target|]; [| now injection H].
    cbn in H. destruct (xlrd_sheet_frame file_path target) as [b|] eqn:E; [| now injection H].
    exfalso. apply (xlrd_fails file_path target). now exists b.
  - apply Hcsv.
  - intros H. destruct (read_csv file_path None) as [b|] eqn:E; [| now injection H].
    exfalso. apply (csv_fails file_path None). now exists b.
Qed.

Lemma load_empty (depth : nat) (file_path : Path) :
  (lower (suffix file_path) = ".xlsx" -> returns (is_zipfile file_path)) ->
  load (S depth) file_path = Return empty_frame.
Proof.
  intros Hprobe. destruct (load_returns depth file_path Hprobe) as [df Hdf].
  rewrite Hdf. f_equal. now apply (load_only_empty (S depth) file_path).
Qed.

End LoaderFacts.

(** C8 at its failing input.  The test [zipfile.is_zipfile(file_path)] of
    the .xlsx branch stands outside every [try]: when it raises, as it
    does for a path that holds a null character, [load_posts_df_robust]
    raises the same exception instead of returning an empty frame.  It is
    the only call that can do so: whenever that test returns, and for
    every path with another suffix, the loader returns a frame whatever
    the file system and the readers do, and the empty frame when no
    reader produces one. *)
Theorem loader_raises_with_probe {Path : Type}
        (suffix : Path -> string)
        (zip_namelist : Path -> outcome (list string))
        (zip_extract : Path -> string -> outcome Path)
        (is_zipfile : Path -> outcome bool)
        (excel_sheet_names : Path -> outcome (list string))
        (read_excel : Path -> string -> outcome DataFrame)
        (read_csv : Path -> option string -> outcome DataFrame)
        (xlrd_sheet_names : Path -> outcome (list string))
        (xlrd_sheet_frame : Path -> string -> outcome DataFrame)
        (depth : nat) (file_path : Path) :
  let result :=
    load_posts_df_robust suffix zip_namelist zip_extract is_zipfile excel_sheet_names
                         read_excel read_csv xlrd_sheet_names xlrd_sheet_frame
                         (S depth) file_path in
  (forall e,
      lower (suffix file_path) = ".xlsx" ->
      is_zipfile file_path = Raise e ->
      result = Raise e /\ ~ returns result) /\
  ((lower (suffix file_path) = ".xlsx" -> returns (is_zipfile file_path)) ->
   returns result /\
   ((forall p enc, ~ returns (read_csv p enc)) ->
    (forall p sheet, ~ returns (read_excel p sheet)) ->
    (forall p sheet, ~ returns (xlrd_sheet_frame p sheet)) ->
    result = Return empty_frame)).
Proof.
  intros result. split.
  - intros e Hx Hz.
    assert (E : result = Raise e) by now apply load_probe_raises.
    split; [exact E |]. rewrite E. intros [df Hdf]. discriminate.
  - intros Hprobe. split.
    + now apply load_returns.
    + intros H1 H2 H3. now apply load_empty.
Qed.

Lemma loader_raises_with_probe_witness :
  load_posts_df_robust (Path := string)
    (fun p => if endswith (lower p) ".xlsx" then ".xlsx" else ".csv")
    (fun _ => Raise "BadZipFile") (fun p m => Return m)
    (fun p => if contains p (String Ascii.zero "") then Raise "ValueError" else Return false)
    (fun _ => Raise "BadZipFile") failing_read failing_read
    (fun _ => Raise "XLRDError") failing_read
    1 (String "a" (String Ascii.zero ".xlsx"))
  = Raise "ValueError".
Proof.
  apply (proj1 (loader_raises_with_probe (Path := string)
                 (fun p => if endswith (lower p) ".xlsx" then ".xlsx" else ".csv")
                 (fun _ => Raise "BadZipFile") (fun p m => Return m)
                 (fun p => if contains p (String Ascii.zero "") then Raise "ValueError"
                           else Return false)
                 (fun _ => Raise "BadZipFile") failing_read failing_read
                 (fun _ => Raise "XLRDError") failing_read
                 0 (String "a" (String Ascii.zero ".xlsx"))) "ValueError").
  - vm_compute. reflexivity.
  - vm_compute. reflexivity.
Defined.

(** ** The choice between day-first and month-first *)

Lemma ambiguous_not_blank (s : string) : likely_ambiguous s = true -> strip s <> "".
Proof.
  unfold likely_ambiguous. intros H E. rewrite E in H. discriminate.
Qed.

Lemma fle_seconds (a b : Z) :
  fle (fabs (Fin (a # 1000000000))) (fabs (Fin (b # 1000000000))) = (Z.abs a <=? Z.abs b)%Z.
Proof.
  cbn [fabs fle]. unfold Qabs, Qcompare. cbn [Qnum Qden].
  rewrite <- Zmult_compare_compat_r by reflexivity.
  unfold Z.leb. now destruct (Z.abs a ?= Z.abs b)%Z.
Qed.

(** With a reference that is a real timestamp, the nearer reading wins,
    and day-first wins a tie. *)
Lemma choose_nearest (utc_year d m c : Z) :
  choose utc_year (Ts d) (Ts m) (Some (Ts c))
  = if (Z.abs (d - c) <=? Z.abs (m - c))%Z then Dmy else Mdy.
Proof. unfold choose, seconds_between. now rewrite fle_seconds. Qed.

(** Without a reference, the only reading inside the window wins, and
    day-first otherwise. *)
Lemma choose_window (utc_year : Z) (d m : timestamp) :
  let low := datetime_ns 2015 1 1 in
  let hi := datetime_ns (utc_year + 1) 12 31 in
  choose utc_year d m None
  = if between low hi m && negb (between low hi d) then Mdy else Dmy.
Proof.
  intros low hi. unfold choose. fold low. fold hi.
  destruct (between low hi d), (between low hi m); reflexivity.
Qed.

(** With the missing timestamp as reference, both distances are nan, the
    comparison is false, and month-first is chosen. *)
Lemma choose_missing_reference (utc_year : Z) (d m : timestamp) :
  choose utc_year d m (Some NaT) = Mdy.
Proof. destruct d, m; reflexivity. Qed.

Lemma examine_both (to_datetime : string -> bool -> option timestamp)
      (utc_year : Z) (s camp_text : string) (d m : timestamp) :
  likely_ambiguous s = true ->
  to_datetime s true = Some d ->
  to_datetime s false = Some m ->
  chosen <$> examine to_datetime utc_year s camp_text
  = Some (choose utc_year d m
            (or_else (to_datetime camp_text true) (to_datetime camp_text false))).
Proof.
  intros Hamb Hd Hm. unfold examine, parse_try.
  destruct (String.eqb_spec (strip s) "") as [E|_].
  - now apply ambiguous_not_blank in Hamb.
  - now rewrite Hamb, Hd, Hm.
Qed.

(** C7 at its failing input.  The campaign-start cell is blank: its text
    "nan" is read as the missing timestamp, not as an error, so the
    reference counts as present and month-first is chosen, although both
    readings lie inside the window. *)
Theorem blank_reference_picks_month_first
        (to_datetime : string -> bool -> option timestamp)
        (utc_year : Z) (s camp_text : string) (d m : timestamp) :
  likely_ambiguous s = true ->
  to_datetime s true = Some d ->
  to_datetime s false = Some m ->
  to_datetime camp_text true = Some NaT ->
  chosen <$> examine to_datetime utc_year s camp_text = Some Mdy.
Proof.
  intros Hamb Hd Hm Hc.
  rewrite (examine_both to_datetime utc_year s camp_text d m Hamb Hd Hm).
  rewrite Hc. cbn [or_else]. now rewrite choose_missing_reference.
Qed.

Lemma blank_reference_picks_month_first_witness :
  chosen <$> examine example_reader 2025 "08/06/2025" "nan" = Some Mdy /\
  between (datetime_ns 2015 1 1) (datetime_ns 2026 12 31) (midnight 2025 6 8) = true /\
  between (datetime_ns 2015 1 1) (datetime_ns 2026 12 31) (midnight 2025 8 6) = true.
Proof.
  split; [| split; reflexivity].
  apply (blank_reference_picks_month_first example_reader 2025 "08/06/2025" "nan"
           (midnight 2025 6 8) (midnight 2025 8 6)); reflexivity.
Defined.

(** The example of the specification: "08/06/2025" is read day first
    whenever the reference is read as 9 June 2025. *)
Lemma example_resolves_day_first (to_datetime : string -> bool -> option timestamp)
      (utc_year : Z) (camp_text : string) :
  to_datetime "08/06/2025" true = Some (midnight 2025 6 8) ->
  to_datetime "08/06/2025" false = Some (midnight 2025 8 6) ->
  to_datetime camp_text true = Some (midnight 2025 6 9) ->
  chosen <$> examine to_datetime utc_year "08/06/2025" camp_text = Some Dmy.
Proof.
  intros Hd Hm Hc.
  rewrite (examine_both to_datetime utc_year "08/06/2025" camp_text _ _ eq_refl Hd Hm).
  rewrite Hc. reflexivity.
Qed.

(** The reference is itself read day first before month first.  A reader
    that takes "2025-06-09" day first as 6 September 2025, as
    [pd.to_datetime] does, makes the month-first reading the nearer one. *)
Lemma iso_reference_read_day_first (to_datetime : string -> bool -> option timestamp)
      (utc_year : Z) :
  to_datetime "08/06/2025" true = Some (midnight 2025 6 8) ->
  to_datetime "08/06/2025" false = Some (midnight 2025 8 6) ->
  to_datetime "2025-06-09" true = Some (midnight 2025 9 6) ->
  chosen <$> examine to_datetime utc_year "08/06/2025" "2025-06-09" = Some Mdy.
Proof.
  intros Hd Hm Hc.
  rewrite (examine_both to_datetime utc_year "08/06/2025" "2025-06-09" _ _ eq_refl Hd Hm).
  rewrite Hc. reflexivity.
Qed.

Lemma example_reader_iso_day_first :
  example_reader "2025-06-09" true = Some (midnight 2025 9 6) /\
  example_reader "2025-06-09" false = Some (midnight 2025 6 9) /\
  example_reader "09/06/2025" true = Some (midnight 2025 6 9) /\
  chosen <$> examine example_reader 2025 "08/06/2025" "2025-06-09" = Some Mdy.
Proof. repeat split; vm_compute; reflexivity. Qed.

(** A reference column that is absent gives the text "None", which the
    reader rejects: the window rule applies. *)
Lemma absent_reference_uses_window (to_datetime : string -> bool -> option timestamp)
      (utc_year : Z) (s camp_text : string) (d m : timestamp) :
  likely_ambiguous s = true ->
  to_datetime s true = Some d ->
  to_datetime s false = Some m ->
  to_datetime camp_text true = None ->
  to_datetime camp_text false = None ->
  chosen <$> examine to_datetime utc_year s camp_text = Some (choose utc_year d m None).
Proof.
  intros Hamb Hd Hm Hc1 Hc2.
  rewrite (examine_both to_datetime utc_year s camp_text d m Hamb Hd Hm).
  now rewrite Hc1, Hc2.
Qed.

(** ** Numbers read from text are not negative *)

Lemma digit_val_range (c : ascii) : is_digit c = true -> (0 <= digit_val c <= 9)%Z.
Proof.
  unfold is_digit, digit_val. intros H.
  apply andb_true_iff in H as [H1 H2].
  apply N.leb_le in H1, H2. lia.
Qed.

Lemma digits_loop_nonneg : forall (s : string) (acc : Z) (n : nat),
  (0 <= acc)%Z -> (0 <= (digits_loop acc n s).1.1)%Z.
Proof.
  fix IH 1. intros s acc n Hacc. destruct s as [|c r]; [exact Hacc |].
  cbn [digits_loop]. destruct (is_digit c) eqn:Hc.
  - apply IH. pose proof (digit_val_range c Hc). lia.
  - destruct (Ascii.eqb c "_"); [| exact Hacc].
    destruct r as [|d r']; [exact Hacc |].
    destruct (is_digit d) eqn:Hd; [| exact Hacc].
    apply IH. pose proof (digit_val_range d Hd). lia.
Qed.

Lemma digitpart_nonneg (acc : Z) (s : string) (v : Z) (k : nat) (r : string) :
  (0 <= acc)%Z -> digitpart acc s = Some (v, k, r) -> (0 <= v)%Z.
Proof.
  intros Hacc. unfold digitpart. destruct s as [|c s']; [discriminate |].
  destruct (is_digit c) eqn:Hc; [| discriminate].
  intros [= H]. pose proof (digit_val_range c Hc).
  pose proof (digits_loop_nonneg s' (acc * 10 + digit_val c)%Z 1 ltac:(lia)) as Hn.
  rewrite H in Hn. exact Hn.
Qed.

Lemma scale10_nonneg (m e : Z) : (0 <= m)%Z -> (0 <= scale10 m e)%Q.
Proof.
  intros Hm. unfold scale10. destruct (0 <=? e)%Z eqn:He.
  - apply Z.leb_le in He. unfold Qle. cbn. 
    pose proof (Z.pow_nonneg 10 e ltac:(lia)). nia.
  - unfold Qle. cbn. lia.
Qed.

Lemma read_number_nonneg (s : string) (q : Q) : read_number s = Some q -> (0 <= q)%Q.
Proof.
  unfold read_number.
  destruct (digitpart 0 s) as [[[ip k] r]|] eqn:Hip.
  - pose proof (digitpart_nonneg 0 s ip k r ltac:(lia) Hip) as Hnn.
    destruct r as [|c r'].
    + intros [= <-]. unfold Qle. cbn. lia.
    + destruct (Ascii.eqb c ".").
      * destruct (digitpart ip r') as [[[m nf] r'']|] eqn:Hm.
        -- pose proof (digitpart_nonneg ip r' m nf r'' Hnn Hm).
           destruct (read_exponent r''); [| discriminate].
           intros [= <-]. now apply scale10_nonneg.
        -- destruct (read_exponent r'); [| discriminate].
           intros [= <-]. now apply scale10_nonneg.
      * destruct (read_exponent (String c r')); [| discriminate].
        intros [= <-]. now apply scale10_nonneg.
  - destruct s as [|c r']; [discriminate |].
    destruct (Ascii.eqb c "."); [| discriminate].
    destruct (digitpart 0 r') as [[[m nf] r'']|] eqn:Hm; [| discriminate].
    pose proof (digitpart_nonneg 0 r' m nf r'' ltac:(lia) Hm).
    destruct (read_exponent r''); [| discriminate].
    intros [= <-]. now apply scale10_nonneg.
Qed.

Lemma finite_or_inf_nonneg (q0 q : Q) :
  (0 <= q0)%Q -> finite_or_inf q0 = Fin q -> (0 <= q)%Q.
Proof.
  intros H. unfold finite_or_inf.
  destruct (Qle_bool _ q0); [discriminate |].
  destruct (Qle_bool q0 _); [discriminate |].
  destruct (Qle_bool (Qabs q0) _); intros [= <-]; [discriminate |].
  now rewrite Qred_correct.
Qed.

(** An unsigned text is read as a number that is not negative. *)
Lemma float_of_str_unsigned (s : string) (q : Q) :
  (read_sign (number_strip s)).1 = false -> float_of_str s = Some (Fin q) -> (0 <= q)%Q.
Proof.
  unfold float_of_str. destruct (read_sign (number_strip s)) as [neg r]. cbn [fst].
  intros ->.
  destruct (String.eqb (lower r) "inf" || String.eqb (lower r) "infinity"); [discriminate |].
  destruct (String.eqb (lower r) "nan"); [discriminate |].
  destruct (read_number r) as [q0|] eqn:Hq; [| discriminate].
  intros [= H]. eapply finite_or_inf_nonneg; [| exact H].
  now apply read_number_nonneg in Hq.
Qed.

Lemma int_of_float_nonneg (q : Q) (z : Z) :
  (0 <= q)%Q -> int_of_float (Fin q) = Some z -> (0 <= z)%Z.
Proof.
  unfold Qle. cbn. intros H [= <-]. apply Z.quot_pos; lia.
Qed.

Lemma all_chars_impl (p q : ascii -> bool) (s : string) :
  (forall c, p c = true -> q c = true) -> all_chars p s = true -> all_chars q s = true.
Proof.
  intros Hpq. induction s as [|c r IH]; [reflexivity |]. cbn.
  intros H. apply andb_true_iff in H as [H1 H2].
  now rewrite (Hpq c H1), IH.
Qed.

Lemma all_chars_app (p : ascii -> bool) (a b : string) :
  all_chars p (a +:+ b) = all_chars p a && all_chars p b.
Proof.
  induction a as [|c r IH]; [reflexivity |].
  rewrite append_cons. cbn. now rewrite IH, andb_assoc.
Qed.

Lemma all_chars_remove (p : ascii -> bool) (x : ascii) (s : string) :
  all_chars p s = true -> all_chars p (remove_char x s) = true.
Proof.
  induction s as [|c r IH]; [reflexivity |]. cbn.
  intros H. apply andb_true_iff in H as [H1 H2].
  destruct (Ascii.eqb c x); [now apply IH |]. cbn. now rewrite H1, IH.
Qed.

Lemma all_chars_lstrip (p : ascii -> bool) (s : string) :
  all_chars p s = true -> all_chars p (lstrip s) = true.
Proof.
  induction s as [|c r IH]; [reflexivity |]. cbn [lstrip].
  intros H. destruct (is_space c); [| exact H].
  cbn in H. apply andb_true_iff in H as [_ H2]. now apply IH.
Qed.

Lemma all_chars_rstrip (p : ascii -> bool) (s : string) :
  all_chars p s = true -> all_chars p (rstrip s) = true.
Proof.
  induction s as [|c r IH]; [reflexivity |]. cbn [rstrip].
  intros H. cbn in H. apply andb_true_iff in H as [H1 H2]. specialize (IH H2).
  destruct (rstrip r) as [|d r'].
  - destruct (is_space c); [reflexivity |]. cbn. now rewrite H1.
  - cbn in *. now rewrite H1, IH.
Qed.

Lemma all_chars_strip (p : ascii -> bool) (s : string) :
  all_chars p s = true -> all_chars p (strip s) = true.
Proof. intros H. unfold strip. now apply all_chars_rstrip, all_chars_lstrip. Qed.

Lemma all_chars_lskip (p f : ascii -> bool) (s : string) :
  all_chars p s = true -> all_chars p (lskip f s) = true.
Proof.
  induction s as [|c r IH]; [reflexivity |]. cbn [lskip].
  intros H. destruct (f c); [| exact H].
  cbn in H. apply andb_true_iff in H as [_ H2]. now apply IH.
Qed.

Lemma all_chars_rskip (p f : ascii -> bool) (s : string) :
  all_chars p s = true -> all_chars p (rskip f s) = true.
Proof.
  induction s as [|c r IH]; [reflexivity |]. cbn [rskip].
  intros H. cbn in H. apply andb_true_iff in H as [H1 H2]. specialize (IH H2).
  destruct (rskip f r) as [|d r'].
  - destruct (f c); [reflexivity |]. cbn. now rewrite H1.
  - cbn in *. now rewrite H1, IH.
Qed.

Lemma all_chars_number_strip (p : ascii -> bool) (s : string) :
  all_chars p s = true -> all_chars p (number_strip s) = true.
Proof. intros H. unfold number_strip. now apply all_chars_rskip, all_chars_lskip. Qed.

Lemma span_chars (p : ascii -> bool) (s : string) : all_chars p (span p s).1 = true.
Proof.
  induction s as [|c r IH]; [reflexivity |]. cbn [span].
  destruct (p c) eqn:Hc; [| reflexivity].
  destruct (span p r) as [a b]. cbn in *. now rewrite Hc, IH.
Qed.

Lemma digit_or_comma_not_minus (c : ascii) : digit_or_comma c = true -> not_minus c = true.
Proof.
  unfold digit_or_comma, not_minus. destruct (Ascii.eqb_spec c "-") as [->|]; [| reflexivity].
  discriminate.
Qed.

Lemma is_digit_not_minus (c : ascii) : is_digit c = true -> not_minus c = true.
Proof.
  unfold not_minus. destruct (Ascii.eqb_spec c "-") as [->|]; [| reflexivity].
  discriminate.
Qed.

Lemma number_token_no_minus (s : string) : all_chars not_minus (number_token s) = true.
Proof.
  unfold number_token.
  pose proof (span_chars digit_or_comma s) as Hrun.
  destruct (span digit_or_comma s) as [run rest]. cbn [fst] in Hrun.
  apply (all_chars_impl _ not_minus _ digit_or_comma_not_minus) in Hrun.
  destruct rest as [|c r]; [exact Hrun |].
  destruct (Ascii.eqb c "."); [| exact Hrun].
  pose proof (span_chars is_digit r) as Hfrac.
  destruct (span is_digit r) as [frac rest']. cbn [fst] in Hfrac.
  apply (all_chars_impl _ not_minus _ is_digit_not_minus) in Hfrac.
  destruct frac as [|d frac']; [exact Hrun |].
  rewrite !all_chars_app, Hrun, Hfrac. reflexivity.
Qed.

Lemma search_number_no_minus (s tok : string) :
  search_number s = Some tok -> all_chars not_minus tok = true.
Proof.
  induction s as [|c r IH]; [discriminate |]. cbn [search_number].
  destruct (digit_or_comma c); [| exact IH].
  intros [= <-]. apply number_token_no_minus.
Qed.

Lemma search_number_none (s : string) :
  search_number s = None -> all_chars not_number_char s = true.
Proof.
  induction s as [|c r IH]; [reflexivity |]. cbn [search_number].
  destruct (digit_or_comma c) eqn:Hc; [discriminate |].
  intros H. cbn. unfold not_number_char at 1. now rewrite Hc, IH.
Qed.

Lemma read_sign_no_minus (s : string) :
  all_chars not_minus s = true -> (read_sign s).1 = false.
Proof.
  destruct s as [|c r]; [reflexivity |]. cbn. unfold not_minus at 1.
  intros H. apply andb_true_iff in H as [H _].
  destruct (Ascii.eqb c "-"); [discriminate |].
  now destruct (Ascii.eqb c "+").
Qed.

Lemma read_sign_rest_chars (p : ascii -> bool) (s : string) :
  all_chars p s = true -> all_chars p (read_sign s).2 = true.
Proof.
  destruct s as [|c r]; [reflexivity |]. cbn. intros H.
  pose proof H as H'. apply andb_true_iff in H' as [_ Hr].
  destruct (Ascii.eqb c "-"); [exact Hr |].
  destruct (Ascii.eqb c "+"); [exact Hr | exact H].
Qed.

Lemma digitpart_needs_digit (acc : Z) (s : string) :
  all_chars not_number_char s = true -> digitpart acc s = None.
Proof.
  destruct s as [|c r]; [reflexivity |]. cbn. unfold not_number_char at 1, digit_or_comma.
  destruct (is_digit c); [discriminate | reflexivity].
Qed.

Lemma read_number_needs_digit (s : string) :
  all_chars not_number_char s = true -> read_number s = None.
Proof.
  intros H. unfold read_number. rewrite digitpart_needs_digit by exact H.
  destruct s as [|c r]; [reflexivity |].
  destruct (Ascii.eqb c "."); [| reflexivity].
  cbn in H. apply andb_true_iff in H as [_ Hr].
  now rewrite digitpart_needs_digit.
Qed.

(** A text without digits is never read as a finite number. *)
Lemma int_float_of_str_needs_digit (s : string) :
  all_chars not_number_char s = true -> int_float_of_str s = None.
Proof.
  intros H. unfold int_float_of_str, float_of_str.
  pose proof (read_sign_rest_chars _ _ (all_chars_number_strip _ _ H)) as Hr.
  destruct (read_sign (number_strip s)) as [neg r]. cbn [snd] in Hr.
  destruct (String.eqb (lower r) "inf" || String.eqb (lower r) "infinity");
    [now destruct neg |].
  destruct (String.eqb (lower r) "nan"); [reflexivity |].
  now rewrite read_number_needs_digit.
Qed.

Lemma int_float_of_str_unsigned (s : string) (z : Z) :
  all_chars not_minus s = true -> int_float_of_str s = Some z -> (0 <= z)%Z.
Proof.
  intros Hs. unfold int_float_of_str.
  destruct (float_of_str s) as [[q| | |]|] eqn:Hf; try discriminate.
  apply int_of_float_nonneg.
  eapply float_of_str_unsigned; [| exact Hf].
  now apply read_sign_no_minus, all_chars_number_strip.
Qed.

Lemma number_text_nonneg (text : string) :
  (0 <= default 0%Z (int_float_of_str (number_text text)))%Z.
Proof.
  unfold number_text.
  set (s := strip (remove_char "," (remove_char "%" text))).
  destruct (search_number s) as [tok|] eqn:Htok.
  - destruct (int_float_of_str (remove_char "," tok)) as [z|] eqn:Hz; [| cbn; lia].
    cbn. eapply int_float_of_str_unsigned; [| exact Hz].
    apply all_chars_remove. now apply search_number_no_minus in Htok.
  - apply search_number_none in Htok.
    now rewrite int_float_of_str_needs_digit.
Qed.

Lemma leading_digit_loop_nonneg (fuel : nat) (q : Q) :
  (0 <= q)%Q -> (0 <= leading_digit_loop fuel q)%Z.
Proof.
  revert q. induction fuel as [|fuel IH]; intros q Hq; cbn; [lia |].
  destruct (Qle_bool 10 q).
  - apply IH. apply Qle_shift_div_l; [reflexivity |]. now rewrite Qmult_0_l.
  - destruct (Qle_bool 1 q).
    + unfold Qle in Hq. cbn in Hq. apply Z.div_pos; lia.
    + apply IH. apply Qmult_le_0_compat; [exact Hq | discriminate].
Qed.

Lemma repr_integer_digits_nonneg (q : Q) : (0 <= repr_integer_digits q)%Z.
Proof.
  unfold repr_integer_digits. pose proof (Qabs_nonneg q) as Ha.
  destruct (Qeq_bool (Qabs q) 0); [lia |].
  destruct (Qle_bool (1 # 10000) (Qabs q) && negb (Qle_bool (inject_Z (10 ^ 16)) (Qabs q))).
  - unfold Qle in Ha. cbn in Ha. apply Z.div_pos; lia.
  - now apply leading_digit_loop_nonneg.
Qed.

Lemma safe_int_ge_0 (value : cell) : (0 <= safe_int value)%Z.
Proof.
  unfold safe_int. destruct (is_missing value); [lia |].
  destruct value as [|z|[q| | |]|text]; try lia.
  - apply number_text_nonneg.
  - apply repr_integer_digits_nonneg.
  - apply number_text_nonneg.
Qed.

(** ** Bounds *)

Lemma remove_comma_chars (s : string) :
  all_chars not_digit s = true ->
  all_chars not_number_char (remove_char "," s) = true.
Proof.
  induction s as [|c r IH]; [reflexivity |]. cbn.
  intros H. apply andb_true_iff in H as [H1 H2].
  destruct (Ascii.eqb c ",") eqn:E; [now apply IH |].
  cbn. rewrite IH by exact H2. unfold not_number_char, digit_or_comma.
  unfold not_digit in H1. apply negb_true_iff in H1. now rewrite H1, E.
Qed.

Lemma search_number_without (s : string) :
  all_chars not_number_char s = true -> search_number s = None.
Proof.
  induction s as [|c r IH]; [reflexivity |]. cbn.
  intros H. apply andb_true_iff in H as [H1 H2].
  unfold not_number_char in H1. apply negb_true_iff in H1. rewrite H1. now apply IH.
Qed.

(** X1.  [safe_int] never returns a negative number; a missing cell gives
    0, and so does any text without a digit. *)
Theorem safe_int_never_negative :
  (forall value, (0 <= safe_int value)%Z) /\
  (forall value, is_missing value = true -> safe_int value = 0%Z) /\
  (forall text, all_chars not_digit text = true -> safe_int (CStr text) = 0%Z).
Proof.
  split; [exact safe_int_ge_0 | split].
  - intros value H. unfold safe_int. now rewrite H.
  - intros text H. cbn. unfold number_text.
    assert (Hs : all_chars not_number_char
                   (strip (remove_char "," (remove_char "%" text))) = true).
    { apply all_chars_strip, remove_comma_chars, all_chars_remove, H. }
    rewrite (search_number_without _ Hs).
    now rewrite (int_float_of_str_needs_digit _ Hs).
Qed.

Lemma safe_int_never_negative_witness :
  safe_int (CFloat NaN) = 0%Z /\ safe_int (CStr " -inf% ") = 0%Z.
Proof.
  split.
  - apply (proj1 (proj2 safe_int_never_negative)). reflexivity.
  - apply (proj2 (proj2 safe_int_never_negative)). reflexivity.
Defined.

Lemma round_half_even_bounds (q : Q) (a b : Z) :
  (inject_Z a <= q)%Q -> (q <= inject_Z b)%Q ->
  (a <= round_half_even q <= b)%Z.
Proof.
  unfold Qle, round_half_even. cbn. intros Ha Hb.
  pose proof (Z.div_mod (Qnum q) (Z.pos (Qden q)) ltac:(discriminate)) as Hdm.
  pose proof (Z.mod_pos_bound (Qnum q) (Z.pos (Qden q)) ltac:(reflexivity)) as Hr.
  set (fl := (Qnum q / Z.pos (Qden q))%Z) in *.
  set (r := (Qnum q mod Z.pos (Qden q))%Z) in *.
  assert (Hd : (0 < Z.pos (Qden q))%Z) by reflexivity.
  assert (Hfl : (a <= fl)%Z) by nia.
  assert (Hup : (0 < r -> fl + 1 <= b)%Z) by nia.
  assert (Hfb : (fl <= b)%Z) by nia.
  destruct (Z.compare_spec (2 * r) (Z.pos (Qden q))) as [E|E|E];
    [destruct (Z.even fl) | |]; lia.
Qed.

(** Rounding keeps a value between two whole numbers between them. *)
Lemma round_q_bounds (q : Q) (n : nat) (a b : Z) :
  (inject_Z a <= q)%Q -> (q <= inject_Z b)%Q ->
  (inject_Z a <= round_q q n)%Q /\ (round_q q n <= inject_Z b)%Q.
Proof.
  intros Ha Hb. unfold round_q. rewrite Qred_correct.
  set (p := pow10 n).
  assert (H : (a * Z.pos p <= round_half_even (q * inject_Z (Z.pos p)) <= b * Z.pos p)%Z).
  { apply round_half_even_bounds.
    - rewrite inject_Z_mult. apply Qmult_le_compat_r; [exact Ha | discriminate].
    - rewrite inject_Z_mult. apply Qmult_le_compat_r; [exact Hb | discriminate]. }
  unfold Qle. cbn. lia.
Qed.

Lemma percentage_bounds (a b : Z) :
  (0 <= a <= b)%Z -> (0 < b)%Z ->
  (inject_Z 0 <= inject_Z a / inject_Z b * inject_Z 100)%Q /\
  (inject_Z a / inject_Z b * inject_Z 100 <= inject_Z 100)%Q.
Proof.
  intros Hab Hb. destruct b as [|p|p]; try lia.
  unfold Qle, Qdiv, Qmult, Qinv, inject_Z. cbn. lia.
Qed.

Lemma percentage_nonneg (a b : Z) :
  (0 <= a)%Z -> (0 < b)%Z -> (inject_Z 0 <= inject_Z a / inject_Z b * inject_Z 100)%Q.
Proof.
  intros Ha Hb. destruct b as [|p|p]; try lia.
  unfold Qle, Qdiv, Qmult, Qinv, inject_Z. cbn. lia.
Qed.

Lemma fle_of_Qle (a b : Q) : (a <= b)%Q -> fle (Fin a) (Fin b) = true.
Proof.
  intros H. cbn. destruct (Qcompare a b) eqn:E; try reflexivity.
  apply Qgt_alt in E. exfalso. now apply (Qlt_not_le _ _ E).
Qed.

(** X2.  [compute_ctr] is a percentage between 0 and 100 whenever
    0 <= clicks <= impressions, and is 0.0 when impressions is zero or
    negative. *)
Theorem compute_ctr_range (clicks impressions : Z) :
  ((impressions <= 0)%Z -> compute_ctr clicks impressions = of_int 0) /\
  ((0 <= clicks <= impressions)%Z ->
   fle (of_int 0) (compute_ctr clicks impressions) = true /\
   fle (compute_ctr clicks impressions) (of_int 100) = true).
Proof.
  rewrite compute_ctr_cases. split.
  - intros H. destruct (Z.ltb_spec 0 impressions); [lia | reflexivity].
  - intros H. destruct (Z.ltb_spec 0 impressions); [| split; reflexivity].
    destruct (percentage_bounds clicks impressions H ltac:(lia)) as [P0 P100].
    destruct (round_q_bounds _ 4 0 100 P0 P100) as [R0 R100].
    split; now apply fle_of_Qle.
Qed.

Lemma compute_ctr_range_witness :
  fle (of_int 0) (compute_ctr 7 9) = true /\ fle (compute_ctr 7 9) (of_int 100) = true.
Proof. apply (proj2 (compute_ctr_range 7 9)). lia. Defined.

Lemma compute_ctr_nonneg (clicks impressions : Z) :
  (0 <= clicks)%Z -> fle (of_int 0) (compute_ctr clicks impressions) = true.
Proof.
  intros H. rewrite compute_ctr_cases.
  destruct (Z.ltb_spec 0 impressions); [| reflexivity].
  pose proof (percentage_nonneg clicks impressions H ltac:(lia)) as P0.
  assert (Hb : (inject_Z clicks / inject_Z impressions * inject_Z 100
                <= inject_Z (Qnum (inject_Z clicks / inject_Z impressions * inject_Z 100) + 1))%Q).
  { set (q := (inject_Z clicks / inject_Z impressions * inject_Z 100)%Q).
    unfold Qle. cbn. pose proof (Pos2Z.is_pos (Qden q)).
    unfold Qle in P0. cbn in P0. nia. }
  destruct (round_q_bounds _ 4 0 _ P0 Hb) as [R0 _].
  now apply fle_of_Qle.
Qed.

(** ** The record built for a row: ranges *)

Lemma int_column_nonneg (row : post_row) (col : option string) :
  (0 <= int_column row col)%Z.
Proof.
  unfold int_column. destruct (located col); [apply safe_int_ge_0 | lia].
Qed.

Lemma substring_length (n : nat) (s : string) :
  (String.length (String.substring 0 n s) <= n)%nat.
Proof.
  revert s. induction n as [|n IH]; intros s.
  - destruct s; cbn; lia.
  - destruct s as [|c r]; cbn; [lia |]. specialize (IH r). lia.
Qed.

Lemma flt_fle (x y : pyfloat) : flt x y = true -> fle x y = true.
Proof.
  destruct x as [a| | |], y as [b| | |]; cbn; try congruence.
  now destruct (Qcompare a b).
Qed.

(** X3.  In every record built from a row, the five counts are not
    negative, reach equals impressions, the post type is one of the five
    canonical types, and the title is not empty and is cut to 500
    characters, the content to 2000. *)
Theorem normalized_record_wellformed cols ctx row rec :
  normalize_row cols ctx row = Some rec ->
  (0 <= impressions rec)%Z /\ (0 <= clicks rec)%Z /\ (0 <= likes rec)%Z /\
  (0 <= comments rec)%Z /\ (0 <= shares rec)%Z /\
  reach rec = impressions rec /\
  In (post_type rec) CANON_POST_TYPES /\
  post_title rec <> "" /\
  (String.length (post_title rec) <= 500)%nat /\
  (String.length (post_content rec) <= 2000)%nat.
Proof.
  unfold normalize_row. intros H.
  destruct (String.eqb_spec (strip (title_text row)) "") as [|Hne]; [discriminate |].
  injection H as <-. cbn [impressions clicks likes comments shares reach post_type
                            post_title post_content].
  repeat split; try apply int_column_nonneg; try apply substring_length.
  - destruct (located (views_col cols)); [| apply int_column_nonneg].
    destruct (int_column row (impressions_col cols) =? 0)%Z;
      [apply safe_int_ge_0 | apply int_column_nonneg].
  - apply canonical_result.
  - destruct (strip (title_text row)); [congruence | discriminate].
Qed.

Lemma normalized_record_wellformed_witness :
  exists rec,
    normalize_row example_columns example_context
      (example_row [("Impressions", CStr "-1,200"); ("Clicks", CFloat (Fin (7 # 2)))])
    = Some rec /\
    (0 <= impressions rec)%Z /\ reach rec = impressions rec.
Proof.
  eexists. split; [reflexivity |].
  destruct (normalized_record_wellformed example_columns example_context
              (example_row [("Impressions", CStr "-1,200"); ("Clicks", CFloat (Fin (7 # 2)))])
              _ eq_refl) as (H1 & _ & _ & _ & _ & H6 & _).
  split; [exact H1 | exact H6].
Defined.

Lemma record_clicks_nonneg cols ctx row rec :
  normalize_row cols ctx row = Some rec ->
  (0 <= clicks rec)%Z /\ (0 <= likes rec + comments rec + shares rec + clicks rec)%Z.
Proof.
  unfold normalize_row. intros H.
  destruct (String.eqb (strip (title_text row)) ""); [discriminate |].
  injection H as <-. cbn [clicks likes comments shares].
  pose proof (int_column_nonneg row (clicks_col cols)).
  pose proof (int_column_nonneg row (likes_col cols)).
  pose proof (int_column_nonneg row (comments_col cols)).
  pose proof (int_column_nonneg row (reposts_col cols)).
  lia.
Qed.

(** X4.  The ctr of a record is never negative and never nan, whatever the
    CTR column holds. *)
Theorem ctr_never_negative cols ctx row rec :
  normalize_row cols ctx row = Some rec -> fle (of_int 0) (ctr rec) = true.
Proof.
  intros H.
  destruct (record_clicks_nonneg cols ctx row rec H) as (Hc & _).
  unfold normalize_row in H.
  destruct (String.eqb (strip (title_text row)) ""); [discriminate |].
  injection H as <-. cbn [ctr clicks] in *.
  match goal with |- fle _ (if ?b then _ else _) = true => destruct b eqn:E end.
  - now apply flt_fle.
  - now apply compute_ctr_nonneg.
Qed.

Lemma ctr_never_negative_witness :
  exists rec,
    normalize_row
      {| post_title_col := Some "Post title"; post_link_col := None;
         distribution_col := None; content_type_col := None; created_col := None;
         impressions_col := Some "Impressions"; views_col := None;
         clicks_col := Some "Clicks"; ctr_col := Some "CTR";
         likes_col := None; comments_col := None; reposts_col := None;
         engagement_rate_col := None |}
      example_context
      (example_row [("Impressions", CInt 8); ("Clicks", CInt 2); ("CTR", CStr "-3%")])
    = Some rec /\
    ctr rec = Fin 25 /\ fle (of_int 0) (ctr rec) = true.
Proof.
  match goal with
  | |- exists rec, normalize_row ?c ?x ?r = Some rec /\ _ =>
      set (cols := c); set (row := r);
      destruct (normalize_row cols x row) as [rec|] eqn:E;
        [| vm_compute in E; discriminate];
      pose proof (ctr_never_negative cols x row rec E) as H
  end.
  exists rec. split; [reflexivity |]. split; [| exact H].
  vm_compute in E. injection E as <-. reflexivity.
Defined.

(** X5.  When a record has impressions, its engagement rate lies between 0
    and 100; when it has none and no engagement-rate column is located, the
    rate is 0.0. *)
Theorem engagement_rate_range cols ctx row rec :
  normalize_row cols ctx row = Some rec ->
  ((0 < impressions rec)%Z ->
   fle (of_int 0) (engagement_rate rec) = true /\
   fle (engagement_rate rec) (of_int 100) = true) /\
  ((impressions rec <= 0)%Z -> located (engagement_rate_col cols) = None ->
   engagement_rate rec = of_int 0).
Proof.
  intros H.
  destruct (record_clicks_nonneg cols ctx row rec H) as (_ & Hsum).
  unfold normalize_row in H.
  destruct (String.eqb (strip (title_text row)) ""); [discriminate |].
  injection H as <-. cbn [engagement_rate impressions likes comments shares clicks] in *.
  set (imp := match located (views_col cols) with
              | Some v => if (int_column row (impressions_col cols) =? 0)%Z
                          then safe_int (row_get row v)
                          else int_column row (impressions_col cols)
              | None => int_column row (impressions_col cols)
              end) in *.
  split.
  - intros Hpos. pose proof Hpos as Hb. apply Z.ltb_lt in Hb. rewrite Hb.
    split; [| apply min2_capped; discriminate].
    pose proof (percentage_nonneg _ imp Hsum Hpos) as P0.
    unfold min2. match goal with |- context [if ?b then _ else _] => destruct b end;
      [reflexivity |].
    cbn [round ratio100].
    match goal with |- fle _ (Fin (round_q ?q 6)) = true =>
      assert (Hb' : (q <= inject_Z (Qnum q + 1))%Q)
    end.
    { match goal with |- (?q <= _)%Q => set (x := q) in * end.
      unfold Qle. cbn. pose proof (Pos2Z.is_pos (Qden x)).
      unfold Qle in P0. cbn in P0. nia. }
    destruct (round_q_bounds _ 6 0 _ P0 Hb') as [R0 _].
    now apply fle_of_Qle.
  - intros Hle Hcol. destruct (Z.ltb_spec 0 imp); [lia |]. now rewrite Hcol.
Qed.

Lemma engagement_rate_range_witness :
  exists rec,
    normalize_row example_columns example_context
      (example_row [("Impressions", CInt 10); ("Likes", CInt 30); ("Clicks", CInt 4)])
    = Some rec /\
    engagement_rate rec = Fin 100 /\
    fle (of_int 0) (engagement_rate rec) = true /\
    fle (engagement_rate rec) (of_int 100) = true.
Proof.
  match goal with
  | |- exists rec, normalize_row ?c ?x ?r = Some rec /\ _ =>
      set (row := r);
      destruct (normalize_row c x row) as [rec|] eqn:E;
        [| vm_compute in E; discriminate];
      pose proof (proj1 (engagement_rate_range c x row rec E)) as H
  end.
  exists rec. split; [reflexivity |].
  assert (Hrec : engagement_rate rec = Fin 100 /\ (0 < impressions rec)%Z).
  { vm_compute in E. injection E as <-. split; reflexivity. }
  split; [apply Hrec | apply H, Hrec].
Defined.

(** ** [clean_rate]: fractions and percentages *)

Lemma flt_Qlt (a b : Q) : flt (Fin a) (Fin b) = true <-> (a < b)%Q.
Proof.
  unfold flt. rewrite Qlt_alt.
  destruct (Qcompare a b); split; intros H; try reflexivity; discriminate.
Qed.

(** X6.  [clean_rate] on a bare finite number.  A value strictly between
    0 and 1 is taken as a fraction and rescaled: the result lies between 0
    and 100, and is at least 1 when the value is at least 0.01.  Any other
    value keeps its side: a value of at least 1 gives a rate of at least
    1, and a value of at most 0 a rate of at most 0. *)
Theorem clean_rate_rescales_fractions (v : Q) :
  ((0 < v)%Q -> (v < 1)%Q ->
   exists r, clean_rate (CFloat (Fin v)) = Fin r /\
             (0 <= r)%Q /\ (r <= 100)%Q /\
             ((1 # 100 <= v)%Q -> (1 <= r)%Q)) /\
  ((1 <= v)%Q -> exists r, clean_rate (CFloat (Fin v)) = Fin r /\ (1 <= r)%Q) /\
  ((v <= 0)%Q -> exists r, clean_rate (CFloat (Fin v)) = Fin r /\ (r <= 0)%Q).
Proof.
  assert (Hstep : clean_rate (CFloat (Fin v)) = rate_of_number (Fin v)) by reflexivity.
  rewrite Hstep. unfold rate_of_number.
  assert (Hup : (v <= inject_Z (Qceiling v))%Q) by apply Qle_ceiling.
  assert (Hdown : (inject_Z (Qfloor v) <= v)%Q) by apply Qfloor_le.
  split; [| split].
  - intros H0 H1.
    assert (E0 : flt (of_int 0) (Fin v) = true) by (apply flt_Qlt; exact H0).
    assert (E1 : flt (Fin v) (of_int 1) = true) by (apply flt_Qlt; exact H1).
    rewrite E0, E1. cbn [andb mul100 round]. eexists. split; [reflexivity |].
    assert (Hlo : (inject_Z 0 <= v * inject_Z 100)%Q).
    { change (inject_Z 0) with (0 * inject_Z 100)%Q.
      apply Qmult_le_compat_r; [now apply Qlt_le_weak | discriminate]. }
    assert (Hhi : (v * inject_Z 100 <= inject_Z 100)%Q).
    { change (inject_Z 100) with (1 * inject_Z 100)%Q at 2.
      apply Qmult_le_compat_r; [now apply Qlt_le_weak | discriminate]. }
    destruct (round_q_bounds _ 6 0 100 Hlo Hhi) as [R0 R100].
    split; [exact R0 |]. split; [exact R100 |].
    intros Hcent.
    assert (Hone : (inject_Z 1 <= v * inject_Z 100)%Q).
    { apply Qle_trans with ((1 # 100) * inject_Z 100)%Q; [discriminate |].
      apply Qmult_le_compat_r; [exact Hcent | discriminate]. }
    exact (proj1 (round_q_bounds _ 6 1 100 Hone Hhi)).
  - intros H1.
    assert (E : flt (Fin v) (of_int 1) = false).
    { destruct (flt (Fin v) (of_int 1)) eqn:E1; [| reflexivity].
      apply flt_Qlt in E1. exfalso. now apply (Qlt_not_le _ _ E1). }
    rewrite E, andb_false_r. cbn [round]. eexists. split; [reflexivity |].
    exact (proj1 (round_q_bounds _ 6 1 (Qceiling v) H1 Hup)).
  - intros H0.
    assert (E : flt (of_int 0) (Fin v) = false).
    { destruct (flt (of_int 0) (Fin v)) eqn:E0; [| reflexivity].
      apply flt_Qlt in E0. exfalso. now apply (Qlt_not_le _ _ E0). }
    rewrite E. cbn [andb round]. eexists. split; [reflexivity |].
    exact (proj2 (round_q_bounds _ 6 (Qfloor v) 0 Hdown H0)).
Qed.

Lemma clean_rate_rescales_fractions_witness :
  exists r, clean_rate (CFloat (Fin (36 # 10000))) = Fin r /\ (0 <= r)%Q /\ (r <= 100)%Q.
Proof.
  destruct (proj1 (clean_rate_rescales_fractions (36 # 10000))) as (r & Hr & H0 & H100 & _);
    [reflexivity | reflexivity |].
  exists r. split; [exact Hr | split; [exact H0 | exact H100]].
Defined.

(** ** [upsert_posts]: merging twice, partition, batches *)

Lemma safe_int_merged (base q : dict) (f : string) :
  f ∈ NUMERIC_FIELDS ->
  _safe_int (get (_recompute_rates (merge_max base q)) f) = merged_count base q f.
Proof.
  intros Hf. destruct (numeric_not_special f Hf) as (H1 & H2 & _).
  unfold get. rewrite recompute_other by assumption.
  now rewrite merge_max_numeric.
Qed.

Lemma merge_max_lookup (base q : dict) (k : string) :
  merge_max base q !! k =
  if bool_decide (k ∈ NUMERIC_FIELDS) then Some (VInt (merged_count base q k)) else q !! k.
Proof.
  case_bool_decide as Hk; [now apply merge_max_numeric | now apply merge_max_other].
Qed.

Lemma recompute_counts_only (r r' : dict) :
  (forall f, f ∈ NUMERIC_FIELDS -> _safe_int (get r f) = _safe_int (get r' f)) ->
  ctr_of_counts (fun f => _safe_int (get r f)) = ctr_of_counts (fun f => _safe_int (get r' f)) /\
  engagement_of_counts (fun f => _safe_int (get r f))
  = engagement_of_counts (fun f => _safe_int (get r' f)).
Proof.
  intros H. unfold ctr_of_counts, engagement_of_counts.
  rewrite (H "impressions"), (H "clicks"), (H "likes"), (H "comments"), (H "shares")
    by in_fields.
  split; reflexivity.
Qed.

Lemma recompute_lookup (r : dict) (k : string) :
  _recompute_rates r !! k =
  if String.eqb k "engagement_rate"
  then Some (VFloat (engagement_of_counts (fun f => _safe_int (get r f))))
  else if String.eqb k "ctr"
       then Some (VFloat (ctr_of_counts (fun f => _safe_int (get r f))))
       else r !! k.
Proof.
  destruct (String.eqb_spec k "engagement_rate") as [->|H1];
    [apply recompute_engagement |].
  destruct (String.eqb_spec k "ctr") as [->|H2]; [apply recompute_ctr |].
  now apply recompute_other.
Qed.

(** X8.  Writing is idempotent under the policy "max": once the merged
    record [w] is what the store holds, merging the same incoming record
    against it yields [w] again, with the same counts and the same rates. *)
Theorem max_merge_idempotent (base q : dict) :
  let w := _recompute_rates (merge_max base q) in
  _recompute_rates (merge_max w q) = w.
Proof.
  intros w.
  assert (Hcount : forall f, f ∈ NUMERIC_FIELDS ->
                     merged_count w q f = merged_count base q f).
  { intros f Hf. unfold merged_count at 1. unfold w. rewrite safe_int_merged by exact Hf.
    unfold merged_count. lia. }
  assert (Hsame : forall f, f ∈ NUMERIC_FIELDS ->
                    _safe_int (get (merge_max w q) f) = _safe_int (get (merge_max base q) f)).
  { intros f Hf. rewrite !get_merge_max by exact Hf. now apply Hcount. }
  destruct (recompute_counts_only _ _ Hsame) as [Hctr Her].
  apply map_eq. intros k. unfold w at 2. rewrite !recompute_lookup, Hctr, Her.
  destruct (String.eqb k "engagement_rate"); [reflexivity |].
  destruct (String.eqb k "ctr"); [reflexivity |].
  rewrite !merge_max_lookup. case_bool_decide as Hk; [| reflexivity].
  now rewrite Hcount.
Qed.

(** X9.  Under the policy "max" the merged counts do not depend on the
    order of arrival: merging [p1] and then [p2] into a baseline gives, for
    each of the six counts, the same value as merging [p2] and then [p1],
    namely the largest of the three. *)
Theorem max_merge_order_independent (base p1 p2 : dict) (f : string) :
  f ∈ NUMERIC_FIELDS ->
  merged_count (_recompute_rates (merge_max base p1)) p2 f
  = merged_count (_recompute_rates (merge_max base p2)) p1 f /\
  merged_count (_recompute_rates (merge_max base p1)) p2 f
  = Z.max (_safe_int (get base f)) (Z.max (_safe_int (get p1 f)) (_safe_int (get p2 f))).
Proof.
  intros Hf. unfold merged_count at 1 2 3.
  rewrite !safe_int_merged by exact Hf. unfold merged_count. lia.
Qed.

Lemma max_merge_order_independent_witness :
  let base : dict := list_to_map [("impressions", VInt 10)] in
  let p1 : dict := list_to_map [("impressions", VInt 40)] in
  let p2 : dict := list_to_map [("impressions", VStr "25")] in
  merged_count (_recompute_rates (merge_max base p1)) p2 "impressions" = 40%Z.
Proof.
  intros base p1 p2.
  rewrite (proj2 (max_merge_order_independent base p1 p2 "impressions" ltac:(in_fields))).
  reflexivity.
Defined.

Section MoreClientFacts.

Variable select_in : nat -> list pyval -> outcome (list dict).
Variable execute : list request -> request -> outcome unit.
Variable cid : string.
Variable policy : string.

Lemma recompute_merge_company (base q : dict) :
  _recompute_rates (merge_max base q) !! "company_id" = q !! "company_id".
Proof.
  rewrite recompute_other by discriminate. apply merge_max_other.
  unfold NUMERIC_FIELDS. rewrite !not_elem_of_cons. repeat split; try discriminate.
  apply not_elem_of_nil.
Qed.

Lemma split_post_company (existing : baseline) (p : dict) (b : bool) (q : dict) :
  split_post policy existing p = Return (b, q) ->
  q !! "company_id" = p !! "company_id".
Proof.
  unfold split_post. intros H.
  destruct (p !! "post_id") as [id|]; [| discriminate].
  destruct (hashable id); [| discriminate].
  destruct (baseline_get existing id) as [base|].
  - destruct (String.eqb policy "max"); injection H as _ <-.
    + rewrite recompute_merge_company. now rewrite lookup_delete_ne by discriminate.
    + now rewrite lookup_delete_ne by discriminate.
  - injection H as _ <-. now rewrite lookup_delete_ne by discriminate.
Qed.

Lemma split_posts_partition (existing : baseline) (posts new_posts update_posts : list dict) :
  split_posts policy existing posts = Return (new_posts, update_posts) ->
  (length new_posts + length update_posts = length posts)%nat /\
  (forall q, q ∈ new_posts \/ q ∈ update_posts ->
             exists p, p ∈ posts /\ q !! "company_id" = p !! "company_id").
Proof.
  revert new_posts update_posts.
  induction posts as [|p rest IH]; intros new_posts update_posts H.
  - injection H as <- <-. split; [reflexivity |].
    intros q [Hq|Hq]; inversion Hq.
  - cbn in H.
    destruct (split_post policy existing p) as [[b q0]|] eqn:Hp; [| discriminate].
    cbn in H.
    destruct (split_posts policy existing rest) as [[n u]|] eqn:Hr; [| discriminate].
    cbn in H. apply split_post_company in Hp.
    destruct (IH n u eq_refl) as [Hlen Hsrc].
    assert (Hrest : forall q, q ∈ n \/ q ∈ u ->
                      exists p', p' ∈ p :: rest /\ q !! "company_id" = p' !! "company_id").
    { intros q Hq. destruct (Hsrc q Hq) as (p' & Hin & E). exists p'. split; [now right | exact E]. }
    destruct b; injection H as <- <-; (split; [cbn; lia |]); intros q [Hq|Hq].
    + now apply Hrest; left.
    + apply elem_of_cons in Hq as [->|Hq]; [exists p; split; [left | exact Hp] |].
      now apply Hrest; right.
    + apply elem_of_cons in Hq as [->|Hq]; [exists p; split; [left | exact Hp] |].
      now apply Hrest; left.
    + now apply Hrest; right.
Qed.

End MoreClientFacts.

(** X10.  When the planning step returns, every incoming post is placed
    in exactly one of the two lists (their lengths add up to the number of
    posts), and every record in either list carries the configured
    company id, whatever company id the incoming record had. *)
Theorem plan_posts_partition
        (select_in : nat -> list pyval -> outcome (list dict))
        (cid policy : string) (posts new_posts update_posts : list dict) :
  plan_posts select_in cid policy posts = Return (new_posts, update_posts) ->
  (length new_posts + length update_posts = length posts)%nat /\
  (forall q, q ∈ new_posts \/ q ∈ update_posts -> q !! "company_id" = Some (VStr cid)).
Proof.
  intros H. apply plan_posts_steps in H as (existing & _ & Hsplit).
  destruct (split_posts_partition policy existing _ _ _ Hsplit) as [Hlen Hsrc].
  split.
  - rewrite Hlen. unfold with_company. now rewrite length_fmap.
  - intros q Hq. destruct (Hsrc q Hq) as (p & Hp & E). rewrite E.
    unfold with_company in Hp. apply list_elem_of_fmap in Hp as (p0 & -> & _).
    apply lookup_insert_eq.
Qed.

Lemma plan_posts_partition_witness :
  let stored : dict := list_to_map [("post_id", VStr "a1"); ("impressions", VInt 100)] in
  let p1 : dict := list_to_map [("post_id", VStr "a1"); ("company_id", VStr "other")] in
  let p2 : dict := list_to_map [("post_id", VStr "b2")] in
  let q1 : dict := delete "date_collected" (<["company_id" := VStr "wentors"]> p1) in
  let q2 : dict := delete "date_collected" (<["company_id" := VStr "wentors"]> p2) in
  (length [q2] + length [q1] = 2)%nat /\
  q1 !! "company_id" = Some (VStr "wentors").
Proof.
  intros stored p1 p2 q1 q2.
  assert (E : plan_posts (fun _ _ => Return [stored]) "wentors" "new" [p1; p2]
              = Return ([q2], [q1])) by (vm_compute; reflexivity).
  destruct (plan_posts_partition _ _ _ _ _ _ E) as [Hlen Hcid].
  split; [exact Hlen |]. apply Hcid. right. left.
Defined.

Lemma chunks_loop_size {A : Type} (fuel n : nat) (l c : list A) :
  (0 < n)%nat -> c ∈ chunks_loop fuel n l -> (0 < length c <= n)%nat.
Proof.
  intros Hn. revert l. induction fuel as [|fuel IH]; intros l Hc; [inversion Hc |].
  destruct l as [|a l]; [inversion Hc |].
  cbn [chunks_loop] in Hc. apply elem_of_cons in Hc as [->|Hc]; [| now apply (IH _ Hc)].
  rewrite length_take. destruct n; [lia |]. cbn. lia.
Qed.

Lemma chunks_loop_concat {A : Type} (fuel n : nat) (l : list A) :
  (0 < n)%nat -> (length l <= fuel)%nat -> concat (chunks_loop fuel n l) = l.
Proof.
  intros Hn. revert l. induction fuel as [|fuel IH]; intros l Hlen.
  - destruct l; [reflexivity | cbn in Hlen; lia].
  - destruct l as [|a l]; [reflexivity |].
    cbn [chunks_loop concat]. rewrite IH; [apply take_drop |].
    rewrite length_drop. cbn in *. lia.
Qed.

Lemma concat_request_rows (f : list dict -> request) (cs : list (list dict)) :
  (forall rows, request_rows (f rows) = rows) ->
  concat (request_rows <$> (f <$> cs)) = concat cs.
Proof.
  intros Hf. induction cs as [|c cs IH]; [reflexivity |]. cbn. now rewrite Hf, IH.
Qed.

(** X11.  Every write sent by [upsert_posts] carries at least one and at
    most 100 records.  When the planning step returns and no write raises,
    the inserts are sent before the upserts, and the records sent, in
    order, are exactly the new posts followed by the posts to update: none
    is dropped and none is sent twice. *)
Theorem upsert_posts_batches
        (select_in : nat -> list pyval -> outcome (list dict))
        (execute : list request -> request -> outcome unit)
        (cid policy : string) (posts : list dict) :
  let sent := (upsert_posts select_in execute cid policy posts).1 in
  (forall r, r ∈ sent -> (0 < length (request_rows r) <= 100)%nat) /\
  (forall new_posts update_posts,
      plan_posts select_in cid policy posts = Return (new_posts, update_posts) ->
      (forall s r, execute s r = Return tt) ->
      sent = ((InsertRows <$> chunks 100 new_posts)
              ++ (UpsertRows <$> chunks 100 update_posts))%list /\
      concat (request_rows <$> sent) = (new_posts ++ update_posts)%list).
Proof.
  intros sent. split.
  - intros r Hr. unfold sent, upsert_posts in Hr.
    destruct posts as [|p0 rest]; [inversion Hr |].
    destruct (plan_posts select_in cid policy (p0 :: rest)) as [[n u]|]; [| inversion Hr].
    apply send_sent in Hr as [Hr|Hr]; [inversion Hr |].
    apply elem_of_app in Hr as [Hr|Hr];
      apply list_elem_of_fmap in Hr as (c & -> & Hc); cbn;
      apply (chunks_loop_size _ 100 _ c ltac:(lia) Hc).
  - intros new_posts update_posts Hplan Hok.
    assert (Hsent : sent = ((InsertRows <$> chunks 100 new_posts)
                            ++ (UpsertRows <$> chunks 100 update_posts))%list).
    { unfold sent, upsert_posts. destruct posts as [|p0 rest].
      - vm_compute in Hplan. injection Hplan as <- <-. reflexivity.
      - rewrite Hplan, send_all by exact Hok. reflexivity. }
    split; [exact Hsent |]. rewrite Hsent, fmap_app, concat_app.
    rewrite !concat_request_rows by reflexivity.
    unfold chunks. now rewrite !chunks_loop_concat by lia.
Qed.

Lemma upsert_posts_batches_witness :
  let p : dict := list_to_map [("post_id", VStr "a1"); ("impressions", VInt 5)] in
  let q : dict := delete "date_collected" (<["company_id" := VStr "wentors"]> p) in
  (upsert_posts (fun _ _ => Return []) (fun _ _ => Return tt) "wentors" "max" [p]).1
  = [InsertRows [q]].
Proof.
  intros p q.
  assert (E : plan_posts (fun _ _ => Return []) "wentors" "max" [p] = Return ([q], []))
    by (vm_compute; reflexivity).
  exact (proj1 (proj2 (upsert_posts_batches (fun _ _ => Return []) (fun _ _ => Return tt)
                         "wentors" "max" [p]) [q] [] E ltac:(reflexivity))).
Defined.

Section RaisingFacts.

Variable policy : string.

Lemma split_posts_missing_id (existing : baseline) (posts : list dict) (p : dict) :
  p ∈ posts -> p !! "post_id" = None ->
  exists e, split_posts policy existing posts = Raise e.
Proof.
  intros Hp Hid. induction posts as [|p0 rest IH]; [inversion Hp |]. cbn.
  destruct (split_post policy existing p0) as [[b q0]|e0] eqn:Hp0; [| now exists e0].
  cbn. apply elem_of_cons in Hp as [<-|Hp].
  - unfold split_post in Hp0. rewrite Hid in Hp0. discriminate.
  - destruct (IH Hp) as [e He]. rewrite He. now exists e.
Qed.

Lemma split_post_plain (existing : baseline) (p q : dict) (b : bool) :
  split_post policy existing p = Return (b, q) ->
  b = false \/ String.eqb policy "max" = false ->
  q = delete "date_collected" p.
Proof.
  unfold split_post. intros H Hb.
  destruct (p !! "post_id") as [id|]; [| discriminate].
  destruct (hashable id); [| discriminate].
  destruct (baseline_get existing id) as [base|].
  - destruct (String.eqb policy "max"); injection H as <- <-; [| reflexivity].
    destruct Hb; discriminate.
  - now injection H as <- <-.
Qed.

Lemma split_posts_plain (existing : baseline) (posts new_posts update_posts : list dict) :
  split_posts policy existing posts = Return (new_posts, update_posts) ->
  forall q, q ∈ new_posts \/ (q ∈ update_posts /\ String.eqb policy "max" = false) ->
            exists p, p ∈ posts /\ q = delete "date_collected" p.
Proof.
  revert new_posts update_posts.
  induction posts as [|p rest IH]; intros new_posts update_posts H q Hq.
  - injection H as <- <-. destruct Hq as [Hq|[Hq _]]; inversion Hq.
  - cbn in H.
    destruct (split_post policy existing p) as [[b q0]|] eqn:Hp; [| discriminate].
    cbn in H.
    destruct (split_posts policy existing rest) as [[n u]|] eqn:Hr; [| discriminate].
    cbn in H.
    assert (Hrest : q ∈ n \/ (q ∈ u /\ String.eqb policy "max" = false) ->
                    exists p', p' ∈ p :: rest /\ q = delete "date_collected" p').
    { intros Hin. destruct (IH n u eq_refl q Hin) as (p' & Hp' & E).
      exists p'. split; [now right | exact E]. }
    destruct b; injection H as <- <-.
    + destruct Hq as [Hq|[Hq Hpol]]; [now apply Hrest; left |].
      apply elem_of_cons in Hq as [->|Hq]; [| now apply Hrest; right].
      exists p. split; [left |]. eapply split_post_plain; [exact Hp | now right].
    + destruct Hq as [Hq|Hq]; [| now apply Hrest; right].
      apply elem_of_cons in Hq as [->|Hq]; [| now apply Hrest; left].
      exists p. split; [left |]. eapply split_post_plain; [exact Hp | now left].
Qed.

End RaisingFacts.

(** X12.  If some incoming post has no post_id, [upsert_posts] raises, and
    it does so before sending any write. *)
Theorem upsert_posts_missing_id
        (select_in : nat -> list pyval -> outcome (list dict))
        (execute : list request -> request -> outcome unit)
        (cid policy : string) (posts : list dict) (p : dict) :
  p ∈ posts -> p !! "post_id" = None ->
  exists e, upsert_posts select_in execute cid policy posts = ([], Raise e).
Proof.
  intros Hp Hid. unfold upsert_posts. destruct posts as [|p0 rest]; [inversion Hp |].
  assert (Hplan : exists e, plan_posts select_in cid policy (p0 :: rest) = Raise e).
  { unfold plan_posts.
    destruct (fetch_existing select_in (with_company cid (p0 :: rest))) as [existing|e0];
      [| now exists e0].
    cbn [mbind outcome_bind].
    apply (split_posts_missing_id policy existing _ (<["company_id" := VStr cid]> p)).
    - unfold with_company. apply list_elem_of_fmap. now exists p.
    - now rewrite lookup_insert_ne by discriminate. }
  destruct Hplan as [e ->]. now exists e.
Qed.

Lemma upsert_posts_missing_id_witness :
  exists e,
    upsert_posts (fun _ _ => Return []) (fun _ _ => Return tt) "wentors" "max"
      [list_to_map [("post_id", VStr "a1")]; list_to_map [("impressions", VInt 3)]]
    = ([], Raise e).
Proof.
  apply (upsert_posts_missing_id _ _ _ _ _ (list_to_map [("impressions", VInt 3)])).
  - right. left.
  - reflexivity.
Defined.

(** X13.  A new post is written as it came in, with the company id set and
    [date_collected] removed; under any policy other than "max" the same
    holds for a post that already exists, whose incoming counts and rates
    are written unchanged. *)
Theorem incoming_written_unchanged
        (select_in : nat -> list pyval -> outcome (list dict))
        (cid policy : string) (posts new_posts update_posts : list dict) (q : dict) :
  plan_posts select_in cid policy posts = Return (new_posts, update_posts) ->
  q ∈ new_posts \/ (q ∈ update_posts /\ String.eqb policy "max" = false) ->
  exists p, p ∈ posts /\
            q = delete "date_collected" (<["company_id" := VStr cid]> p).
Proof.
  intros H Hq. apply plan_posts_steps in H as (existing & _ & Hsplit).
  destruct (split_posts_plain policy existing _ _ _ Hsplit q Hq) as (p' & Hp' & ->).
  unfold with_company in Hp'. apply list_elem_of_fmap in Hp' as (p & -> & Hp).
  now exists p.
Qed.

Lemma incoming_written_unchanged_witness :
  let stored : dict := list_to_map [("post_id", VStr "a1"); ("impressions", VInt 100)] in
  let p1 : dict := list_to_map [("post_id", VStr "a1"); ("impressions", VInt 7)] in
  let q1 : dict := delete "date_collected" (<["company_id" := VStr "wentors"]> p1) in
  exists p, p ∈ [p1] /\ q1 = delete "date_collected" (<["company_id" := VStr "wentors"]> p).
Proof.
  intros stored p1 q1.
  apply (incoming_written_unchanged (fun _ _ => Return [stored]) "wentors" "new"
           [p1] [] [q1] q1).
  - vm_compute. reflexivity.
  - right. split; [left | reflexivity].
Defined.

(** ** [load_posts_df_robust]: what is read, and in which order *)

Lemma head_filter_first (P : string -> bool) (names : list string) :
  match head (filter (fun n => Is_true (P n)) names) with
  | Some target =>
      exists before after,
        names = (before ++ target :: after)%list /\ P target = true /\
        forall n, n ∈ before -> P n = false
  | None => forall n, n ∈ names -> P n = false
  end.
Proof.
  induction names as [|x rest IH]; [intros n Hn; inversion Hn |].
  rewrite filter_cons. cbv beta.
  destruct (decide (Is_true (P x))) as [Hx|Hx].
  - apply Is_true_true in Hx. cbn [head].
    exists [], rest. split; [reflexivity |]. split; [exact Hx |].
    intros n Hn. inversion Hn.
  - apply Is_true_false in Hx.
    destruct (head (filter (fun n => Is_true (P n)) rest)) as [target|].
    + destruct IH as (before & after & -> & Ht & Hbefore).
      exists (x :: before), after. split; [reflexivity |]. split; [exact Ht |].
      intros n Hn. apply elem_of_cons in Hn as [->|Hn]; [exact Hx | now apply Hbefore].
    + intros n Hn. apply elem_of_cons in Hn as [->|Hn]; [exact Hx | now apply IH].
Qed.

(** X14.  The sheet picked by name is the first of the names offered whose
    lowered name contains "post": no name before it contains it.  When no
    name does, the first name is picked; picking raises only when no name
    is offered. *)
Theorem pick_posts_prefers_posts (names : list string) :
  (names = [] -> pick_posts names = Raise "IndexError") /\
  (names <> [] ->
   exists target,
     pick_posts names = Return target /\
     ((exists before after,
          names = (before ++ target :: after)%list /\
          contains (lower target) "post" = true /\
          forall n, n ∈ before -> contains (lower n) "post" = false)
      \/
      ((forall n, n ∈ names -> contains (lower n) "post" = false) /\
       head names = Some target))).
Proof.
  split; [now intros -> |].
  intros Hne. destruct names as [|first rest]; [congruence |].
  unfold pick_posts. cbn [first_item mbind outcome_bind].
  pose proof (head_filter_first (fun n => contains (lower n) "post") (first :: rest)) as H.
  cbv beta in H.
  destruct (head (filter (fun n => Is_true (contains (lower n) "post")) (first :: rest)))
    as [target|]; cbn [default from_option id].
  - exists target. split; [reflexivity |]. now left.
  - exists first. split; [reflexivity |]. right. now split.
Qed.

Lemma pick_posts_prefers_posts_witness :
  exists target,
    pick_posts ["Summary"; "Posts A"; "Followers"; "Posts B"] = Return target /\
    (exists before after,
        ["Summary"; "Posts A"; "Followers"; "Posts B"] = (before ++ target :: after)%list /\
        contains (lower target) "post" = true /\
        forall n, n ∈ before -> contains (lower n) "post" = false).
Proof.
  destruct (proj2 (pick_posts_prefers_posts ["Summary"; "Posts A"; "Followers"; "Posts B"]))
    as (target & H1 & [H2|[H2 _]]); [discriminate | |].
  - exists target. split; [exact H1 | exact H2].
  - exfalso. specialize (H2 "Posts A" ltac:(in_fields)). vm_compute in H2. discriminate.
Defined.

Section LoaderOrder.

Context {Path : Type}.
Variable suffix : Path -> string.
Variable zip_namelist : Path -> outcome (list string).
Variable is_zipfile : Path -> outcome bool.
Variable excel_sheet_names : Path -> outcome (list string).
Variable read_excel : Path -> string -> outcome DataFrame.
Variable read_csv : Path -> option string -> outcome DataFrame.
Variable xlrd_sheet_names : Path -> outcome (list string).
Variable xlrd_sheet_frame : Path -> string -> outcome DataFrame.

Lemma read_csv_any_first (file_path : Path) (skipped : list string) (enc : string)
      (rest : list string) (df : DataFrame) :
  (forall e, e ∈ skipped -> ~ returns (read_csv file_path (Some e))) ->
  read_csv file_path (Some enc) = Return df ->
  read_csv_any read_csv file_path (skipped ++ enc :: rest) = Return df.
Proof.
  intros Hskip Henc. induction skipped as [|e skipped IH]; cbn.
  - now rewrite Henc.
  - destruct (read_csv file_path (Some e)) as [b|err] eqn:E.
    + exfalso. apply (Hskip e); [left | now exists b].
    + cbn. apply IH. intros e' He'. apply Hskip. now right.
Qed.

Lemma load_same_extract (extract1 extract2 : Path -> string -> outcome Path)
      (depth : nat) (file_path : Path) :
  (forall p m, tabular_member m = true -> extract1 p m = extract2 p m) ->
  load_posts_df_robust suffix zip_namelist extract1 is_zipfile excel_sheet_names
                       read_excel read_csv xlrd_sheet_names xlrd_sheet_frame
                       depth file_path
  = load_posts_df_robust suffix zip_namelist extract2 is_zipfile excel_sheet_names
                         read_excel read_csv xlrd_sheet_names xlrd_sheet_frame
                         depth file_path.
Proof.
  intros Hsame. revert file_path. induction depth as [|depth IH]; intros file_path;
    [reflexivity |].
  cbn [load_posts_df_robust].
  destruct (String.eqb (lower (suffix file_path)) ".zip"); [| reflexivity].
  f_equal. destruct (zip_namelist file_path) as [members|]; [| reflexivity].
  cbn [mbind outcome_bind].
  set (T := fun m => Is_true (tabular_member m)).
  destruct (filter T members) as [|first rest] eqn:Hf; [reflexivity |].
  set (Q := fun c => Is_true (contains (lower c) "post")).
  set (target := default first (head (filter Q (first :: rest)))).
  assert (Htab : tabular_member target = true).
  { assert (Hin : target ∈ filter T members).
    { rewrite Hf. unfold target.
      destruct (filter Q (first :: rest)) as [|t ts] eqn:Hq; cbn; [left |].
      assert (Ht : t ∈ filter Q (first :: rest)) by (rewrite Hq; left).
      now apply list_elem_of_filter in Ht as [_ Ht]. }
    apply list_elem_of_filter in Hin as [Hin _]. now apply Is_true_true. }
  rewrite (Hsame file_path target Htab).
  destruct (extract2 file_path target) as [inner|]; [| reflexivity].
  cbn [mbind outcome_bind]. apply IH.
Qed.

End LoaderOrder.

(** X15.  From a zip archive only a member whose lowered name ends in .csv,
    .xls or .xlsx is ever extracted: the result of the loader does not
    depend on what extracting any other member would do. *)
Theorem loader_extracts_only_tabular {Path : Type}
        (suffix : Path -> string)
        (zip_namelist : Path -> outcome (list string))
        (extract1 extract2 : Path -> string -> outcome Path)
        (is_zipfile : Path -> outcome bool)
        (excel_sheet_names : Path -> outcome (list string))
        (read_excel : Path -> string -> outcome DataFrame)
        (read_csv : Path -> option string -> outcome DataFrame)
        (xlrd_sheet_names : Path -> outcome (list string))
        (xlrd_sheet_frame : Path -> string -> outcome DataFrame)
        (depth : nat) (file_path : Path) :
  (forall p m, tabular_member m = true -> extract1 p m = extract2 p m) ->
  load_posts_df_robust suffix zip_namelist extract1 is_zipfile excel_sheet_names
                       read_excel read_csv xlrd_sheet_names xlrd_sheet_frame
                       depth file_path
  = load_posts_df_robust suffix zip_namelist extract2 is_zipfile excel_sheet_names
                         read_excel read_csv xlrd_sheet_names xlrd_sheet_frame
                         depth file_path.
Proof. apply load_same_extract. Qed.

Lemma loader_extracts_only_tabular_witness :
  let suffix := fun p : string => if endswith (lower p) ".zip" then ".zip" else ".csv" in
  let names := fun _ : string => Return ["Notes.txt"; "Posts_Q1.csv"] in
  let extract1 := fun (_ m : string) =>
    if tabular_member m then Return m else Raise "KeyError" in
  let extract2 := fun (_ m : string) =>
    if tabular_member m then Return m else Return "Notes.txt" in
  load_posts_df_robust suffix names extract1 (fun _ => Return false) (fun _ => Raise "OSError")
    failing_read failing_read (fun _ => Raise "XLRDError") failing_read 2 "export.zip"
  = load_posts_df_robust suffix names extract2 (fun _ => Return false) (fun _ => Raise "OSError")
      failing_read failing_read (fun _ => Raise "XLRDError") failing_read 2 "export.zip".
Proof.
  intros suffix names extract1 extract2.
  apply loader_extracts_only_tabular.
  intros p m Hm. unfold extract1, extract2. now rewrite Hm.
Defined.

(** X16.  A .csv file, and a .xlsx file that is not a zip container, is
    read with the encodings utf-8, cp1252, latin-1, iso-8859-1, utf-16 in
    that order, and the loader returns the frame of the first encoding
    whose read does not raise. *)
Theorem loader_first_encoding_wins {Path : Type}
        (suffix : Path -> string)
        (zip_namelist : Path -> outcome (list string))
        (zip_extract : Path -> string -> outcome Path)
        (is_zipfile : Path -> outcome bool)
        (excel_sheet_names : Path -> outcome (list string))
        (read_excel : Path -> string -> outcome DataFrame)
        (read_csv : Path -> option string -> outcome DataFrame)
        (xlrd_sheet_names : Path -> outcome (list string))
        (xlrd_sheet_frame : Path -> string -> outcome DataFrame)
        (depth : nat) (file_path : Path)
        (skipped : list string) (enc : string) (rest : list string) (df : DataFrame) :
  lower (suffix file_path) = ".csv" \/
  (lower (suffix file_path) = ".xlsx" /\ is_zipfile file_path = Return false) ->
  CSV_ENCODINGS = (skipped ++ enc :: rest)%list ->
  (forall e, e ∈ skipped -> ~ returns (read_csv file_path (Some e))) ->
  read_csv file_path (Some enc) = Return df ->
  load_posts_df_robust suffix zip_namelist zip_extract is_zipfile excel_sheet_names
                       read_excel read_csv xlrd_sheet_names xlrd_sheet_frame
                       (S depth) file_path
  = Return df.
Proof.
  intros Hext Hencs Hskip Henc. cbn [load_posts_df_robust].
  rewrite Hencs.
  destruct Hext as [E|[E Hz]]; rewrite E; cbn [String.eqb Ascii.eqb Bool.eqb];
    [| rewrite Hz]; now apply read_csv_any_first.
Qed.

Lemma loader_first_encoding_wins_witness :
  let frame := {| df_columns := ["Post title"]; df_rows := [[CStr "Launch"]] |} in
  load_posts_df_robust (Path := string) (fun _ => ".CSV")
    (fun _ => Raise "BadZipFile") failing_read (fun _ => Return false)
    (fun _ => Raise "OSError") failing_read
    (fun _ enc => if bool_decide (enc = Some "cp1252") then Return frame
                  else Raise "UnicodeDecodeError")
    (fun _ => Raise "XLRDError") failing_read 1 "posts.CSV"
  = Return frame.
Proof.
  intros frame.
  apply (loader_first_encoding_wins (Path := string) _ _ _ _ _ _ _ _ _ 0 "posts.CSV"
           ["utf-8"] "cp1252" ["latin-1"; "iso-8859-1"; "utf-16"]).
  - left. reflexivity.
  - reflexivity.
  - intros e He [a Ha]. apply list_elem_of_singleton in He as ->. discriminate.
  - reflexivity.
Defined.

(** ** [extract_urn_from_url] *)

Lemma drop_prefix_spec (p s r : string) : drop_prefix p s = Some r <-> s = p +:+ r.
Proof.
  revert s. induction p as [|a p IH]; intros s.
  - rewrite append_nil. destruct s; cbn; split; congruence.
  - destruct s as [|b s]; cbn [drop_prefix].
    + split; [discriminate | rewrite append_cons; discriminate].
    + rewrite append_cons. destruct (Ascii.eqb_spec a b) as [->|Hne].
      * rewrite IH. split; [now intros -> | now intros [= ->]].
      * split; [discriminate | intros [= E _]; congruence].
Qed.

Lemma span_split (p : ascii -> bool) (s : string) : s = (span p s).1 +:+ (span p s).2.
Proof.
  induction s as [|c r IH]; [reflexivity |]. cbn [span].
  destruct (p c); [| reflexivity].
  destruct (span p r) as [a b]. cbn in *. now rewrite append_cons, <- IH.
Qed.

Lemma span_all (p : ascii -> bool) (s : string) :
  all_chars p s = true -> span p s = (s, "").
Proof.
  induction s as [|c r IH]; [reflexivity |]. cbn.
  intros H. apply andb_true_iff in H as [Hc Hr]. now rewrite Hc, IH.
Qed.

Lemma urn_of_kind_form (kind s u : string) :
  urn_of_kind kind s = Some u ->
  exists digits rest,
    s = ("urn:li:" +:+ kind +:+ ":") +:+ digits +:+ rest /\
    u = ("urn:li:" +:+ kind +:+ ":") +:+ digits /\
    digits <> "" /\ all_chars is_digit digits = true.
Proof.
  unfold urn_of_kind. set (prefix := "urn:li:" +:+ kind +:+ ":").
  destruct (drop_prefix prefix s) as [rest|] eqn:Hp; [| discriminate].
  apply drop_prefix_spec in Hp.
  pose proof (span_split is_digit rest) as Hs.
  pose proof (span_chars is_digit rest) as Hd.
  destruct (span is_digit rest) as [digits rest']. cbn [fst snd] in *.
  destruct digits as [|d ds]; [discriminate |].
  intros [= <-]. exists (String d ds), rest'. repeat split.
  - now rewrite Hp, Hs.
  - discriminate.
  - exact Hd.
Qed.

Lemma urn_here_form (s u : string) :
  urn_here s = Some u ->
  exists kind digits rest,
    (kind = "activity" \/ kind = "ugcPost") /\
    s = ("urn:li:" +:+ kind +:+ ":") +:+ digits +:+ rest /\
    u = ("urn:li:" +:+ kind +:+ ":") +:+ digits /\
    digits <> "" /\ all_chars is_digit digits = true.
Proof.
  unfold urn_here. destruct (urn_of_kind "activity" s) as [u0|] eqn:Ha.
  - intros [= <-]. apply urn_of_kind_form in Ha as (d & r & H).
    exists "activity", d, r. split; [now left | exact H].
  - intros Hu. apply urn_of_kind_form in Hu as (d & r & H).
    exists "ugcPost", d, r. split; [now right | exact H].
Qed.

Lemma search_urn_form (s u : string) :
  search_urn s = Some u ->
  contains s u = true /\
  exists kind digits,
    (kind = "activity" \/ kind = "ugcPost") /\
    u = ("urn:li:" +:+ kind +:+ ":") +:+ digits /\
    digits <> "" /\ all_chars is_digit digits = true.
Proof.
  induction s as [|c r IH]; cbn [search_urn].
  - destruct (urn_here "") as [u0|] eqn:Hh; [| discriminate].
    intros [= <-]. apply urn_here_form in Hh as (k & d & rest & Hk & Hs & Hu & Hd).
    split; [| now exists k, d].
    apply contains_spec. exists "", rest. now rewrite Hu, app_assoc_s.
  - destruct (urn_here (String c r)) as [u0|] eqn:Hh.
    + intros [= <-]. apply urn_here_form in Hh as (k & d & rest & Hk & Hs & Hu & Hd).
      split; [| now exists k, d].
      apply contains_spec. exists "", rest. now rewrite Hu, app_assoc_s.
    + intros H. destruct (IH H) as [Hc Hform]. split; [| exact Hform].
      apply contains_spec in Hc as (a & b & ->). apply contains_spec.
      exists (String c a), b. now rewrite append_cons.
Qed.

Lemma search_urn_unfold (s : string) :
  search_urn s =
  match urn_here s with
  | Some u => Some u
  | None =>
      match s with
      | String _ r => search_urn r
      | EmptyString => None
      end
  end.
Proof. destruct s; reflexivity. Qed.

Lemma urn_here_own (kind digits : string) :
  kind = "activity" \/ kind = "ugcPost" ->
  digits <> "" -> all_chars is_digit digits = true ->
  urn_here (("urn:li:" +:+ kind +:+ ":") +:+ digits)
  = Some (("urn:li:" +:+ kind +:+ ":") +:+ digits).
Proof.
  intros Hk Hne Hd.
  assert (Hown : urn_of_kind kind (("urn:li:" +:+ kind +:+ ":") +:+ digits)
                 = Some (("urn:li:" +:+ kind +:+ ":") +:+ digits)).
  { unfold urn_of_kind.
    rewrite (proj2 (drop_prefix_spec _ _ digits) eq_refl).
    rewrite span_all by exact Hd. destruct digits; [congruence | reflexivity]. }
  unfold urn_here. destruct Hk as [->| ->]; [now rewrite Hown |].
  assert (Hother : urn_of_kind "activity" (("urn:li:" +:+ "ugcPost" +:+ ":") +:+ digits)
                   = None) by reflexivity.
  now rewrite Hother, Hown.
Qed.

(** X17.  The URN extracted from a URL is either empty or a piece of the
    URL of the form urn:li:activity:<digits> or urn:li:ugcPost:<digits>
    with at least one digit; and extracting from an extracted URN gives it
    back. *)
Theorem extract_urn_wellformed (url : string) :
  let u := extract_urn_from_url url in
  (u = "" \/
   (contains url u = true /\
    exists kind digits,
      (kind = "activity" \/ kind = "ugcPost") /\
      u = ("urn:li:" +:+ kind +:+ ":") +:+ digits /\
      digits <> "" /\ all_chars is_digit digits = true)) /\
  extract_urn_from_url u = u.
Proof.
  intros u. unfold u, extract_urn_from_url.
  destruct (String.eqb url "") eqn:Hurl; [split; [now left | reflexivity] |].
  destruct (search_urn url) as [v|] eqn:Hs; [| split; [now left | reflexivity]].
  change (default "" (Some v)) with v.
  destruct (search_urn_form url v Hs) as (Hc & k & d & Hk & Hv & Hne & Hd).
  split; [right; split; [exact Hc | now exists k, d] |].
  destruct (String.eqb_spec v "") as [->|_]; [reflexivity |].
  rewrite search_urn_unfold. subst v. now rewrite urn_here_own by assumption.
Qed.

(** ** [_guess_header_index] and the rows of a sheet *)

Lemma guess_loop_spec (rows : list (list string)) (i best_idx : nat) (best_score : Z) :
  let r := guess_loop rows i best_idx best_score in
  (r = best_idx /\ forall row, row ∈ rows -> (Z.of_nat (row_score row) <= best_score)%Z) \/
  (exists j row,
      r = (i + j)%nat /\ rows !! j = Some row /\
      (best_score < Z.of_nat (row_score row))%Z /\
      (forall j' row', rows !! j' = Some row' -> (row_score row' <= row_score row)%nat) /\
      (forall j' row', (j' < j)%nat -> rows !! j' = Some row' ->
                       (row_score row' < row_score row)%nat)).
Proof.
  revert i best_idx best_score.
  induction rows as [|row rest IH]; intros i best_idx best_score; cbn [guess_loop].
  - left. split; [reflexivity |]. intros row Hin. inversion Hin.
  - destruct (Z.ltb_spec best_score (Z.of_nat (row_score row))) as [Hlt|Hge].
    + destruct (IH (S i) i (Z.of_nat (row_score row))) as [[Hr Hall]|(j & row' & Hr & Hj & Hs & Hmax & Hfirst)].
      * right. exists 0%nat, row. rewrite Hr.
        split; [lia |]. split; [reflexivity |]. split; [exact Hlt |]. split.
        -- intros [|j'] row' Hj'; cbn in Hj'; [injection Hj' as <-; lia |].
           specialize (Hall row' ltac:(eapply list_elem_of_lookup_2; eauto)). lia.
        -- intros j' row' Hlt'. lia.
      * right. exists (S j), row'. rewrite Hr.
        split; [lia |]. split; [exact Hj |]. split; [lia |]. split.
        -- intros [|j'] r' Hj'; cbn in Hj'; [injection Hj' as <-; lia |].
           now apply (Hmax j').
        -- intros [|j'] r' Hlt' Hj'; cbn in Hj'; [injection Hj' as <-; lia |].
           apply (Hfirst j'); [lia | exact Hj'].
    + destruct (IH (S i) best_idx best_score) as [[Hr Hall]|(j & row' & Hr & Hj & Hs & Hmax & Hfirst)].
      * left. split; [exact Hr |].
        intros r' Hin. apply elem_of_cons in Hin as [->|Hin]; [exact Hge | now apply Hall].
      * right. exists (S j), row'. rewrite Hr.
        split; [lia |]. split; [exact Hj |]. split; [exact Hs |]. split.
        -- intros [|j'] r' Hj'; cbn in Hj'; [injection Hj' as <-; lia |].
           now apply (Hmax j').
        -- intros [|j'] r' Hlt' Hj'; cbn in Hj'; [injection Hj' as <-; lia |].
           apply (Hfirst j'); [lia | exact Hj'].
Qed.

Lemma guess_header_index_row (rows : list (list string)) :
  rows <> [] ->
  exists row,
    rows !! _guess_header_index rows = Some row /\
    (_guess_header_index rows < 10)%nat /\
    (forall j r, (j < 10)%nat -> rows !! j = Some r -> (row_score r <= row_score row)%nat) /\
    (forall j r, (j < _guess_header_index rows)%nat -> rows !! j = Some r ->
                 (row_score r < row_score row)%nat).
Proof.
  intros Hne. unfold _guess_header_index.
  destruct (guess_loop_spec (take 10 rows) 0 0 (-1))
    as [[_ Hall]|(j & row & Hr & Hj & _ & Hmax & Hfirst)].
  - exfalso. destruct rows as [|r0 rest]; [congruence |].
    specialize (Hall r0 ltac:(left)). lia.
  - rewrite Hr. cbn [Nat.add]. apply lookup_take_Some in Hj as [Hj Hlt].
    exists row. split; [exact Hj |]. split; [exact Hlt |]. split.
    + intros j' r Hj' Hr'. apply (Hmax j'). now apply lookup_take_Some.
    + intros j' r Hj' Hr'. apply (Hfirst j'); [exact Hj' |].
      apply lookup_take_Some. split; [exact Hr' | lia].
Qed.

(** X18.  The header row guessed for a sheet with rows is one of its first
    ten rows, scores at least as high as each of the first ten rows, and
    strictly higher than every row above it: the earliest row with the
    best score. *)
Theorem guess_header_index_first_best (rows : list (list string)) :
  rows <> [] ->
  exists row,
    rows !! _guess_header_index rows = Some row /\
    (_guess_header_index rows < 10)%nat /\
    (forall j r, (j < 10)%nat -> rows !! j = Some r -> (row_score r <= row_score row)%nat) /\
    (forall j r, (j < _guess_header_index rows)%nat -> rows !! j = Some r ->
                 (row_score r < row_score row)%nat).
Proof. apply guess_header_index_row. Qed.

Lemma guess_header_index_first_best_witness :
  exists row,
    [["LinkedIn export"; ""]; ["Post title"; "Impressions"]; ["Hello"; "12"]]
      !! _guess_header_index
           [["LinkedIn export"; ""]; ["Post title"; "Impressions"]; ["Hello"; "12"]]
    = Some row /\
    (_guess_header_index
       [["LinkedIn export"; ""]; ["Post title"; "Impressions"]; ["Hello"; "12"]] < 10)%nat.
Proof.
  destruct (guess_header_index_first_best
              [["LinkedIn export"; ""]; ["Post title"; "Impressions"]; ["Hello"; "12"]])
    as (row & H1 & H2 & _); [discriminate |].
  exists row. split; [exact H1 | exact H2].
Defined.

Section SheetFacts.

Context {A : Type}.
Variable text : A -> string.
Variable blank : A.

Lemma fit_row_length (n : nat) (r : list A) : length (fit_row blank n r) = n.
Proof.
  unfold fit_row. destruct (Nat.ltb_spec (length r) n).
  - rewrite length_app, length_replicate. lia.
  - destruct (Nat.ltb_spec n (length r)); [rewrite length_take; lia | lia].
Qed.

Lemma fit_row_prefix (n : nat) (r : list A) (i : nat) :
  (i < n)%nat -> (i < length r)%nat -> fit_row blank n r !! i = r !! i.
Proof.
  intros Hn Hr. unfold fit_row. destruct (Nat.ltb_spec (length r) n).
  - now apply lookup_app_l.
  - destruct (Nat.ltb_spec n (length r)); [now apply lookup_take_lt | reflexivity].
Qed.

Lemma header_name_nonempty (i : nat) (x : A) : header_name text i x <> "".
Proof.
  unfold header_name. destruct (String.eqb_spec (strip (text x)) ""); [discriminate | assumption].
Qed.

End SheetFacts.

(** X19.  In the grid built from a legacy sheet, the header has one name
    per cell of the guessed header row and no name is empty; every data
    row has exactly as many cells as the header, keeps its own cells in
    the positions it has in common with the header, and comes from a row
    below the header that is not entirely blank. *)
Theorem sheet_grid_rectangular {A : Type} (text : A -> string) (blank : A)
        (rows : list (list A)) (header : list string) (data : list (list A)) :
  sheet_grid text blank rows = Some (header, data) ->
  let idx := _guess_header_index ((fun r : list A => text <$> r) <$> rows) in
  (exists header_row, rows !! idx = Some header_row /\ length header = length header_row) /\
  (forall name, name ∈ header -> name <> "") /\
  (forall r, r ∈ data ->
     length r = length header /\
     exists source,
       source ∈ drop (S idx) rows /\ all_blank text source = false /\
       forall i, (i < length header)%nat -> (i < length source)%nat -> r !! i = source !! i).
Proof.
  unfold sheet_grid. destruct rows as [|first rest]; [discriminate |].
  destruct (guess_header_index_row ((fun r : list A => text <$> r) <$> (first :: rest)))
    as (srow & Hs & _); [discriminate |].
  remember (_guess_header_index ((fun r : list A => text <$> r) <$> first :: rest)) as idx eqn:Hidx.
  clear Hidx. rewrite list_lookup_fmap in Hs.
  destruct ((first :: rest) !! idx) as [hrow|] eqn:Hh; [| discriminate].
  cbn [default from_option id]. intros H. injection H as <- <-.
  split; [| split].
  - exists hrow. split; [reflexivity | apply length_imap].
  - intros name Hin. apply list_elem_of_lookup in Hin as [i Hi].
    apply list_lookup_imap_Some in Hi as (x & _ & ->). apply header_name_nonempty.
  - intros r Hr. unfold fixed_rows in Hr.
    apply list_elem_of_fmap in Hr as (source & -> & Hsrc).
    apply list_elem_of_filter in Hsrc as [Hnb Hin].
    split; [apply fit_row_length |].
    exists source. split; [exact Hin |]. split.
    + destruct (all_blank text source); [contradiction | reflexivity].
    + intros i Hi1 Hi2. now apply fit_row_prefix.
Qed.

Lemma sheet_grid_rectangular_witness :
  sheet_grid (fun x : string => x) ""
    [["Report"]; ["Post title"; " "; "Clicks"]; [""; " "]; ["a"; "1"; "2"; "3"]; ["b"]]
  = Some (["Post title"; "Column_1"; "Clicks"], [["a"; "1"; "2"]; ["b"; ""; ""]]) /\
  length ["b"; ""; ""] = length ["Post title"; "Column_1"; "Clicks"].
Proof.
  assert (E : sheet_grid (fun x : string => x) ""
                [["Report"]; ["Post title"; " "; "Clicks"]; [""; " "]; ["a"; "1"; "2"; "3"]; ["b"]]
              = Some (["Post title"; "Column_1"; "Clicks"], [["a"; "1"; "2"]; ["b"; ""; ""]]))
    by (vm_compute; reflexivity).
  split; [exact E |].
  destruct (sheet_grid_rectangular _ _ _ _ _ E) as (_ & _ & Hdata).
  destruct (Hdata ["b"; ""; ""]) as [Hlen _]; [| exact Hlen].
  apply list_elem_of_further, list_elem_of_here.
Defined.

(** ** [safe_float] and the demographics records *)

Lemma mantissa_loop_nonneg (fuel : nat) (q : Q) :
  (0 <= q)%Q -> (0 <= mantissa_loop fuel q)%Q.
Proof.
  revert q. induction fuel as [|fuel IH]; intros q Hq; cbn [mantissa_loop]; [exact Hq |].
  destruct (Qle_bool 10 q).
  - apply IH. apply Qle_shift_div_l; [reflexivity |]. now rewrite Qmult_0_l.
  - destruct (Qle_bool 1 q); [exact Hq |].
    apply IH. apply Qmult_le_0_compat; [exact Hq | discriminate].
Qed.

Lemma repr_unsigned_nonneg (q : Q) : (0 <= repr_unsigned q)%Q.
Proof.
  unfold repr_unsigned. cbv zeta.
  destruct (Qeq_bool (Qabs q) 0); [apply Qle_refl |].
  destruct (Qle_bool (1 # 10000) (Qabs q) && negb (Qle_bool (inject_Z (10 ^ 16)) (Qabs q)));
    rewrite Qred_correct.
  - apply Qabs_nonneg.
  - apply mantissa_loop_nonneg, Qabs_nonneg.
Qed.

Lemma float_of_str_needs_digit (s : string) (q : Q) :
  all_chars not_number_char s = true -> float_of_str s <> Some (Fin q).
Proof.
  intros H. unfold float_of_str.
  pose proof (read_sign_rest_chars _ _ (all_chars_number_strip _ _ H)) as Hr.
  destruct (read_sign (number_strip s)) as [neg r]. cbn [snd] in Hr.
  destruct (String.eqb (lower r) "inf" || String.eqb (lower r) "infinity");
    [now destruct neg |].
  destruct (String.eqb (lower r) "nan"); [discriminate |].
  now rewrite read_number_needs_digit.
Qed.

Lemma number_text_float_nonneg (text : string) (q : Q) :
  float_of_str (number_text text) = Some (Fin q) -> (0 <= q)%Q.
Proof.
  unfold number_text.
  set (s := strip (remove_char "," (remove_char "%" text))).
  destruct (search_number s) as [tok|] eqn:Htok.
  - apply float_of_str_unsigned.
    apply read_sign_no_minus, all_chars_number_strip, all_chars_remove.
    now apply search_number_no_minus in Htok.
  - apply search_number_none in Htok. intros H.
    now apply float_of_str_needs_digit in H.
Qed.

Lemma safe_float_nonneg (value : cell) (q : Q) : safe_float value = Fin q -> (0 <= q)%Q.
Proof.
  unfold safe_float. destruct (is_missing value).
  - intros [= <-]. discriminate.
  - destruct value as [|z|[q0| | |]|text]; try discriminate.
    + intros [= <-]. discriminate.
    + destruct (float_of_str (number_text (str_of_int z))) as [x|] eqn:E; cbn [default from_option id].
      * intros ->. now apply number_text_float_nonneg in E.
      * intros [= <-]. discriminate.
    + intros [= <-]. apply repr_unsigned_nonneg.
    + destruct (float_of_str (number_text text)) as [x|] eqn:E; cbn [default from_option id].
      * intros ->. now apply number_text_float_nonneg in E.
      * intros [= <-]. discriminate.
Qed.

Lemma min2_finite_range (x : pyfloat) (q : Q) :
  (forall q0, x = Fin q0 -> (0 <= q0)%Q) ->
  min2 x (of_int 100) = Fin q -> (0 <= q <= 100)%Q.
Proof.
  intros Hx. unfold min2. destruct (flt (of_int 100) x) eqn:E.
  - intros [= <-]. split; [discriminate | apply Qle_refl].
  - intros ->. split; [now apply Hx |].
    apply flt_false_fle in E. cbn in E.
    destruct (Qcompare q (inject_Z 100)) eqn:C; try discriminate.
    + apply Qeq_alt in C. rewrite C. apply Qle_refl.
    + apply Qlt_alt in C. now apply Qlt_le_weak.
Qed.

Lemma min2_positive (x : pyfloat) :
  fle x (of_int 0) = false ->
  min2 x (of_int 100) = NaN \/ flt (of_int 0) (min2 x (of_int 100)) = true.
Proof.
  intros H. unfold min2. destruct (flt (of_int 100) x) eqn:E; [now right |].
  destruct x as [q| | |]; try (cbn in *; (discriminate || tauto)).
  right. apply (flt_Qlt (inject_Z 0) q). apply Qnot_le_lt. intros Hle.
  apply fle_of_Qle in Hle. unfold of_int in H. congruence.
Qed.

Lemma substring_prefix (n : nat) (s : string) :
  startswith s (String.substring 0 n s) = true.
Proof.
  revert s. induction n as [|n IH]; intros s.
  - destruct s; reflexivity.
  - destruct s as [|c r]; [reflexivity |]. cbn. now rewrite Ascii.eqb_refl.
Qed.

(** X20.  A number read by [safe_float] is never a negative finite number:
    the sign of a cell is lost, and what cannot be read gives 0.0. *)
Theorem safe_float_never_negative (value : cell) (q : Q) :
  safe_float value = Fin q -> (0 <= q)%Q.
Proof. apply safe_float_nonneg. Qed.

Lemma safe_float_never_negative_witness :
  safe_float (CStr "-12.5%") = Fin (25 # 2) /\ (0 <= 25 # 2)%Q.
Proof.
  assert (E : safe_float (CStr "-12.5%") = Fin (25 # 2)) by (vm_compute; reflexivity).
  split; [exact E |]. exact (safe_float_never_negative _ _ E).
Defined.

(** X21.  Every record built from a row of a demographics sheet has a
    value that is not empty, at most 255 characters long and a prefix of
    the stripped value cell; a count that is not negative; a percentage
    that is never above 100 and, when it is a finite number, lies between
    0 and 100; and a row without a positive count is kept only for a
    percentage that is positive or not a number. *)
Theorem demographics_record_wellformed (cols : demo_columns) (company day : string)
        (followers : Z) (demo_type : string) (row : demo_row) (rec : demo_record) :
  demo_of_row cols company day followers demo_type row = Some rec ->
  demographic_value rec <> "" /\
  (String.length (demographic_value rec) <= 255)%nat /\
  startswith (strip (value_cell row)) (demographic_value rec) = true /\
  (0 <= count rec)%Z /\
  flt (of_int 100) (percentage rec) = false /\
  (forall q, percentage rec = Fin q -> (0 <= q <= 100)%Q) /\
  (count rec = 0%Z ->
   percentage rec = NaN \/ flt (of_int 0) (percentage rec) = true).
Proof.
  unfold demo_of_row. cbv zeta.
  destruct (String.eqb_spec (strip (value_cell row)) "") as [|Hval]; [discriminate |].
  set (pct := match located (percentage_col cols) with
              | Some c => safe_float (demo_get row (Some c))
              | None => of_int 0
              end).
  destruct ((safe_int (demo_get row (count_col cols)) <=? 0)%Z && fle pct (of_int 0)) eqn:Hkeep;
    [discriminate |].
  intros [= <-]. cbn [demographic_value count percentage].
  repeat split.
  - destruct (strip (value_cell row)); [congruence | discriminate].
  - apply substring_length.
  - apply substring_prefix.
  - apply safe_int_ge_0.
  - apply min2_not_above.
  - eapply min2_finite_range; [| eassumption].
    intros q0. unfold pct. destruct (located (percentage_col cols)).
    + apply safe_float_nonneg.
    + intros [= <-]. discriminate.
  - eapply min2_finite_range; [| eassumption].
    intros q0. unfold pct. destruct (located (percentage_col cols)).
    + apply safe_float_nonneg.
    + intros [= <-]. discriminate.
  - intros Hc. rewrite Hc in Hkeep. cbn in Hkeep. now apply min2_positive.
Qed.

Lemma demographics_record_wellformed_witness :
  exists rec,
    demo_of_row (detect_columns ["Location"; "Total followers"; "Percent"])
      "wentors" "2025-06-09T00:00:00+00:00" 1200 "location"
      {| value_cell := " Lagos ";
         demo_cells := {[ "Location" := CStr " Lagos ";
                          "Total followers" := CStr "1,024";
                          "Percent" := CStr "85.3%" ]} |} = Some rec /\
    (0 <= count rec)%Z /\ flt (of_int 100) (percentage rec) = false.
Proof.
  match goal with |- exists rec, ?f = Some rec /\ _ => destruct f as [rec|] eqn:E end;
    [| vm_compute in E; discriminate].
  exists rec. split; [reflexivity |].
  pose proof (demographics_record_wellformed _ _ _ _ _ _ _ E) as (_ & _ & _ & H1 & H2 & _).
  split; [exact H1 | exact H2].
Defined.

(** ** The columns of a demographics sheet *)

Lemma label_located (p : string -> bool) (col : string) :
  p "" = false -> p col = true -> located (Some col) = Some col.
Proof. intros H0 H. destruct col; [congruence | reflexivity]. Qed.

Lemma detect_loop_first (columns : list string) (found : demo_columns) :
  let pick (p : string -> bool) (old : option string) :=
    match located old with
    | Some _ => old
    | None => match find p columns with Some c => Some c | None => old end
    end in
  value_col (detect_loop columns found) = pick value_label (value_col found) /\
  count_col (detect_loop columns found) = pick count_label (count_col found) /\
  percentage_col (detect_loop columns found) = pick percentage_label (percentage_col found).
Proof.
  cbv zeta. revert found.
  induction columns as [|col rest IH]; intros found.
  - cbn [detect_loop find].
    repeat split; match goal with |- _ = match ?x with _ => _ end => now destruct x end.
  - cbn [detect_loop find]. cbv zeta.
    destruct (IH {|
      value_col :=
        match located (value_col found) with
        | None =>
            if any_in ["name"; "value"; "location"; "function"; "title"; "category"]
                 (strip (lower col))
            then Some col else value_col found
        | Some _ => value_col found
        end;
      count_col :=
        match located (count_col found) with
        | None =>
            if any_in ["count"; "number"; "followers"; "audience"; "members"; "total"]
                 (strip (lower col))
            then Some col else count_col found
        | Some _ => count_col found
        end;
      percentage_col :=
        match located (percentage_col found) with
        | None =>
            if any_in ["percentage"; "percent"; "%"; "share"; "pct"] (strip (lower col))
            then Some col else percentage_col found
        | Some _ => percentage_col found
        end |}) as (Hv & Hc & Hp).
    cbn [value_col count_col percentage_col] in Hv, Hc, Hp.
    rewrite Hv, Hc, Hp. clear IH Hv Hc Hp.
    fold (value_label col) (count_label col) (percentage_label col).
    repeat split.
    + destruct (located (value_col found)) eqn:E; [now rewrite E |].
      destruct (value_label col) eqn:L; [| now rewrite E].
      now rewrite (label_located value_label col eq_refl L).
    + destruct (located (count_col found)) eqn:E; [now rewrite E |].
      destruct (count_label col) eqn:L; [| now rewrite E].
      now rewrite (label_located count_label col eq_refl L).
    + destruct (located (percentage_col found)) eqn:E; [now rewrite E |].
      destruct (percentage_label col) eqn:L; [| now rewrite E].
      now rewrite (label_located percentage_label col eq_refl L).
Qed.

(** X22.  The columns of a demographics sheet: for each kind the first
    label that contains one of its keywords is taken, and a later label
    never replaces it; when no label names the value the first column is
    taken, when none names the count the second column is, and the
    percentage has no positional default. *)
Theorem detect_columns_first_match (columns : list string) :
  value_col (detect_columns columns)
  = match find value_label columns with Some c => Some c | None => columns !! 0%nat end /\
  count_col (detect_columns columns)
  = match find count_label columns with Some c => Some c | None => columns !! 1%nat end /\
  percentage_col (detect_columns columns) = find percentage_label columns.
Proof.
  unfold detect_columns. cbv zeta. cbn [value_col count_col percentage_col].
  destruct (detect_loop_first columns
              {| value_col := None; count_col := None; percentage_col := None |})
    as (Hv & Hc & Hp).
  cbn [value_col count_col percentage_col located] in Hv, Hc, Hp.
  rewrite Hv, Hc, Hp. clear Hv Hc Hp.
  repeat split.
  - destruct (find value_label columns) as [c|] eqn:F.
    + apply find_some in F as [_ L].
      now rewrite (label_located value_label c eq_refl L).
    + now destruct columns.
  - destruct (find count_label columns) as [c|] eqn:F.
    + apply find_some in F as [_ L].
      now rewrite (label_located count_label c eq_refl L).
    + now destruct columns as [|a [|b r]].
  - now destruct (find percentage_label columns).
Qed.

(** ** [reclassify_post_types.run] *)

Lemma rewritten_is_dropped (pt content url title : string) :
  in_list pt REWRITTEN = true ->
  normalize_post_type pt content url title = normalize_post_type "" content url title.
Proof.
  unfold in_list, REWRITTEN. cbn [existsb]. rewrite !orb_true_iff.
  intros [H|[H|[H|[H|[H|H]]]]]; try discriminate;
    apply String.eqb_eq in H as ->; reflexivity.
Qed.

(** X23.  A stored row that [run] rewrites gets the type inferred from its
    content, url and title alone, one of the five canonical types; and a
    row carrying that new type is left alone by a later run. *)
Theorem reclassify_settles (post_type post_content post_url post_title new_pt : string) :
  reclassify post_type post_content post_url post_title = Some new_pt ->
  new_pt = normalize_post_type "" post_content post_url post_title /\
  In new_pt CANON_POST_TYPES /\
  forall content url title, reclassify new_pt content url title = None.
Proof.
  unfold reclassify at 1. cbv zeta.
  destruct (in_list (lower post_type) REWRITTEN) eqn:E; [| discriminate].
  intros [= <-]. rewrite (rewritten_is_dropped _ _ _ _ E).
  split; [reflexivity |].
  pose proof (canonical_result "" post_content post_url post_title) as Hc.
  split; [exact Hc |].
  intros content url title. unfold CANON_POST_TYPES in Hc. cbn [In] in Hc.
  destruct Hc as [<-|[<-|[<-|[<-|[<-|[]]]]]]; reflexivity.
Qed.

Lemma reclassify_settles_witness :
  reclassify "Sponsored" "Our report (PDF)" "https://lnkd.in/x" "" = Some "document" /\
  reclassify "document" "Our report (PDF)" "https://lnkd.in/x" "" = None.
Proof.
  assert (E : reclassify "Sponsored" "Our report (PDF)" "https://lnkd.in/x" "" = Some "document")
    by (vm_compute; reflexivity).
  split; [exact E |].
  exact (proj2 (proj2 (reclassify_settles _ _ _ _ _ E)) _ _ _).
Defined.

(** ** [debug_dates.main] with a reference date *)

(** X24.  For an ambiguous created date that the reader accepts both day
    first and month first, and a campaign start it reads as a real
    timestamp, a row is reported with both readings; day first is chosen
    whenever it is at least as near to the campaign start as month first,
    and month first is chosen only when it is strictly nearer. *)
Theorem examine_picks_nearest (to_datetime : string -> bool -> option timestamp)
        (utc_year : Z) (s camp_text : string) (d m c : Z) :
  likely_ambiguous s = true ->
  to_datetime s true = Some (Ts d) ->
  to_datetime s false = Some (Ts m) ->
  or_else (to_datetime camp_text true) (to_datetime camp_text false) = Some (Ts c) ->
  exists row,
    examine to_datetime utc_year s camp_text = Some row /\
    raw_created row = s /\ dmy row = Ts d /\ mdy row = Ts m /\
    campaign_start row = Some (Ts c) /\
    ((Z.abs (d - c) <= Z.abs (m - c))%Z -> chosen row = Dmy) /\
    (chosen row = Mdy -> (Z.abs (m - c) < Z.abs (d - c))%Z).
Proof.
  intros Hamb Hd Hm Hc. unfold examine, parse_try.
  destruct (String.eqb_spec (strip s) "") as [E|_];
    [now apply ambiguous_not_blank in Hamb |].
  rewrite Hamb, Hd, Hm, Hc. eexists. split; [reflexivity |].
  cbn [raw_created dmy mdy campaign_start chosen]. rewrite choose_nearest.
  repeat split; try (destruct (Z.leb_spec (Z.abs (d - c)) (Z.abs (m - c))); (lia || congruence)).
Qed.

Lemma examine_picks_nearest_witness :
  exists row,
    examine example_reader 2025 "08/06/2025" "09/06/2025" = Some row /\ chosen row = Dmy.
Proof.
  destruct (examine_picks_nearest example_reader 2025 "08/06/2025" "09/06/2025"
              1749340800000000000 1754438400000000000 1749427200000000000)
    as (row & E & _ & _ & _ & _ & Hdmy & _);
    [reflexivity | vm_compute; reflexivity | vm_compute; reflexivity
     | vm_compute; reflexivity |].
  exists row. split; [exact E |]. apply Hdmy. vm_compute. discriminate.
Defined.

(** ** [extract_hashtags] and [extract_mentions] *)

Lemma append_nil_r (s : string) : s +:+ "" = s.
Proof. induction s as [|c r IH]; [reflexivity |]. now rewrite append_cons, IH. Qed.

Lemma startswith_empty (s : string) : startswith s "" = true.
Proof. now destruct s. Qed.

Lemma startswith_contains (s p : string) : startswith s p = true -> contains s p = true.
Proof. intros H. rewrite contains_unfold. now rewrite H. Qed.

Lemma contains_cons (c : ascii) (s p : string) :
  contains s p = true -> contains (String c s) p = true.
Proof.
  intros H. rewrite contains_unfold. now destruct (startswith (String c s) p).
Qed.

Lemma rstrip_no_space (s : string) :
  all_chars (fun c => negb (is_space c)) s = true -> rstrip s = s.
Proof.
  induction s as [|c r IH]; [reflexivity |]. cbn [all_chars rstrip].
  intros H. apply andb_true_iff in H as [Hc Hr]. rewrite (IH Hr).
  destruct r; [| reflexivity]. now destruct (is_space c).
Qed.

Lemma strip_no_space (s : string) :
  all_chars (fun c => negb (is_space c)) s = true -> strip s = s.
Proof.
  intros H. unfold strip.
  assert (lstrip s = s) as ->; [| now apply rstrip_no_space].
  destruct s as [|c r]; [reflexivity |]. cbn in *.
  now destruct (is_space c).
Qed.

Lemma mention_char_no_space (c : ascii) : is_mention_char c = true -> is_space c = false.
Proof.
  destruct c as [[] [] [] [] [] [] [] []]; vm_compute; congruence.
Qed.

Lemma word_is_mention_char (c : ascii) : is_word c = true -> is_mention_char c = true.
Proof. intros H. unfold is_mention_char. now rewrite H. Qed.

Section ScanFacts.

Variable marker : ascii.
Variable in_class : ascii -> bool.
Variable guard : bool.

(** Where a group found from a state lies in the text still to be read. *)
Lemma find_groups_occur (s : string) :
  forall (st : scan_state) (g : string),
    g ∈ find_groups marker in_class guard st s ->
    match st with
    | Idle _ => True
    | Marked => True
    | Capturing captured => captured <> "" /\ all_chars in_class captured = true
    end ->
    (g <> "" /\ all_chars in_class g = true) /\
    match st with
    | Idle _ => contains s (String marker g) = true
    | Marked => startswith s g = true \/ contains s (String marker g) = true
    | Capturing captured =>
        (exists p, g = captured +:+ p /\ startswith s p = true)
        \/ contains s (String marker g) = true
    end.
Proof.
  assert (Hidle : forall (c : ascii) (r : string) (after_amp : bool) (g : string),
             (forall st g,
                 g ∈ find_groups marker in_class guard st r ->
                 match st with
                 | Capturing captured => captured <> "" /\ all_chars in_class captured = true
                 | _ => True
                 end ->
                 (g <> "" /\ all_chars in_class g = true) /\
                 match st with
                 | Idle _ => contains r (String marker g) = true
                 | Marked => startswith r g = true \/ contains r (String marker g) = true
                 | Capturing captured =>
                     (exists p, g = captured +:+ p /\ startswith r p = true)
                     \/ contains r (String marker g) = true
                 end) ->
             g ∈ find_groups marker in_class guard (idle_step marker guard after_amp c) r ->
             (g <> "" /\ all_chars in_class g = true) /\
             contains (String c r) (String marker g) = true).
  { intros c r after_amp g IH Hg. unfold idle_step in Hg.
    destruct (Ascii.eqb_spec c marker) as [->|Hne]; cbn [andb] in Hg.
    - destruct (negb (guard && after_amp)).
      + destruct (IH Marked g Hg I) as [Hok [Hpre|Hin]]; (split; [exact Hok |]).
        * apply startswith_contains. cbn [startswith]. now rewrite Ascii.eqb_refl.
        * now apply contains_cons.
      + destruct (IH _ g Hg I) as [Hok Hin]. split; [exact Hok |]. now apply contains_cons.
    - destruct (IH _ g Hg I) as [Hok Hin]. split; [exact Hok |]. now apply contains_cons. }
  induction s as [|c r IH]; intros st g Hg Hst.
  - destruct st as [a| |captured]; cbn [find_groups] in Hg; try (inversion Hg; fail).
    apply list_elem_of_singleton in Hg as ->. split; [exact Hst |].
    left. exists "". now rewrite append_nil_r.
  - destruct st as [a| |captured]; cbn [find_groups] in Hg.
    + now apply (Hidle c r a g IH).
    + destruct (in_class c) eqn:Hc.
      * destruct (IH (Capturing (String c "")) g Hg) as [Hok [(p & -> & Hp)|Hin]].
        { split; [discriminate |]. cbn. now rewrite Hc. }
        -- split; [exact Hok |]. left. rewrite append_cons, append_nil. cbn [startswith].
           now rewrite Ascii.eqb_refl.
        -- split; [exact Hok |]. right. now apply contains_cons.
      * destruct (Hidle c r _ g IH Hg) as [Hok Hin]. split; [exact Hok |]. now right.
    + destruct Hst as [Hne Hall]. destruct (in_class c) eqn:Hc.
      * destruct (IH (Capturing (captured +:+ String c "")) g Hg) as [Hok [(p & -> & Hp)|Hin]].
        { split; [now destruct captured |].
          rewrite all_chars_app, Hall. cbn. now rewrite Hc. }
        -- split; [exact Hok |]. left. exists (String c p). split.
           ++ now rewrite app_assoc_s, append_cons, append_nil.
           ++ cbn [startswith]. now rewrite Ascii.eqb_refl.
        -- split; [exact Hok |]. right. now apply contains_cons.
      * apply elem_of_cons in Hg as [->|Hg].
        -- split; [now split |]. left. exists "". now rewrite append_nil_r.
        -- destruct (Hidle c r _ g IH Hg) as [Hok Hin]. split; [exact Hok |]. now right.
Qed.

Lemma find_groups_from_start (text g : string) :
  g ∈ find_groups marker in_class guard (Idle false) text ->
  g <> "" /\ all_chars in_class g = true /\ contains text (String marker g) = true.
Proof.
  intros Hg. destruct (find_groups_occur text (Idle false) g Hg I) as [[H1 H2] H3].
  now repeat split.
Qed.

Lemma tagged_groups (text tag : string) :
  (forall c, in_class c = true -> is_space c = false) ->
  tag ∈ tagged (String marker "") (find_groups marker in_class guard (Idle false) text) ->
  exists g, tag = String marker g /\ g <> "" /\ all_chars in_class g = true /\
            contains text tag = true.
Proof.
  intros Hsp Htag. unfold tagged in Htag.
  apply list_elem_of_fmap in Htag as (g & -> & Hg).
  apply list_elem_of_filter in Hg as [_ Hg].
  apply find_groups_from_start in Hg as (Hne & Hall & Hin).
  rewrite strip_no_space.
  - exists g. now rewrite append_cons, append_nil.
  - eapply all_chars_impl; [| exact Hall]. intros c Hc. now rewrite (Hsp c Hc).
Qed.

End ScanFacts.

Lemma take_set_order (set_order : list string -> list string) (l : list string) :
  (forall l, NoDup (set_order l) /\ forall x, x ∈ set_order l <-> x ∈ l) ->
  (length (take 50 (set_order l)) <= 50)%nat /\
  NoDup (take 50 (set_order l)) /\
  forall x, x ∈ take 50 (set_order l) -> x ∈ l.
Proof.
  intros Hset. destruct (Hset l) as [Hnd Hin]. repeat split.
  - rewrite length_take. lia.
  - eapply sublist_NoDup; [exact Hnd | apply sublist_take].
  - intros x Hx. apply Hin. apply elem_of_take in Hx as (i & Hi & _).
    eapply list_elem_of_lookup_2; exact Hi.
Qed.

(** X25.  [extract_hashtags] returns at most 50 tags without repetition;
    each is "#" followed by one or more word characters, and occurs in the
    text as it stands.  The order in which Python lists a set is left
    open: any order that lists each element once. *)
Theorem extract_hashtags_wellformed (set_order : list string -> list string) (text : string) :
  (forall l, NoDup (set_order l) /\ forall x, x ∈ set_order l <-> x ∈ l) ->
  let tags := extract_hashtags set_order text in
  (length tags <= 50)%nat /\ NoDup tags /\
  forall tag, tag ∈ tags ->
    exists word, tag = String "#" word /\ word <> "" /\ all_chars is_word word = true /\
                 contains text tag = true.
Proof.
  intros Hset tags. unfold tags, extract_hashtags.
  destruct (String.eqb text "").
  - repeat split; [cbn; lia | constructor | intros tag Htag; inversion Htag].
  - destruct (take_set_order set_order (tagged "#" (hashtag_groups text)) Hset)
      as (Hlen & Hnd & Hin).
    repeat split; [exact Hlen | exact Hnd |].
    intros tag Htag. apply Hin in Htag.
    apply (tagged_groups "#" is_word true text tag); [| exact Htag].
    intros c Hc. now apply mention_char_no_space, word_is_mention_char.
Qed.

Lemma extract_hashtags_wellformed_witness :
  extract_hashtags remove_dups "Hi #AI and #ml_ops! &#39; #AI" = ["#ml_ops"; "#AI"] /\
  NoDup (extract_hashtags remove_dups "Hi #AI and #ml_ops! &#39; #AI").
Proof.
  split; [vm_compute; reflexivity |].
  apply (extract_hashtags_wellformed remove_dups "Hi #AI and #ml_ops! &#39; #AI").
  intros l. split; [apply NoDup_remove_dups | intros x; apply elem_of_remove_dups].
Defined.

(** X26.  [extract_mentions] returns at most 50 mentions without
    repetition; each is "@" followed by one or more word characters, dots
    or hyphens, and occurs in the text as it stands. *)
Theorem extract_mentions_wellformed (set_order : list string -> list string) (text : string) :
  (forall l, NoDup (set_order l) /\ forall x, x ∈ set_order l <-> x ∈ l) ->
  let mentions := extract_mentions set_order text in
  (length mentions <= 50)%nat /\ NoDup mentions /\
  forall mention, mention ∈ mentions ->
    exists name, mention = String "@" name /\ name <> "" /\
                 all_chars is_mention_char name = true /\
                 contains text mention = true.
Proof.
  intros Hset mentions. unfold mentions, extract_mentions.
  destruct (String.eqb text "").
  - repeat split; [cbn; lia | constructor | intros tag Htag; inversion Htag].
  - destruct (take_set_order set_order (tagged "@" (mention_groups text)) Hset)
      as (Hlen & Hnd & Hin).
    repeat split; [exact Hlen | exact Hnd |].
    intros tag Htag. apply Hin in Htag.
    apply (tagged_groups "@" is_mention_char false text tag); [| exact Htag].
    exact mention_char_no_space.
Qed.

Lemma extract_mentions_wellformed_witness :
  extract_mentions remove_dups "cc @jane.doe, @acme-labs and a@b" = ["@jane.doe"; "@acme-labs"; "@b"] /\
  NoDup (extract_mentions remove_dups "cc @jane.doe, @acme-labs and a@b").
Proof.
  split; [vm_compute; reflexivity |].
  apply (extract_mentions_wellformed remove_dups "cc @jane.doe, @acme-labs and a@b").
  intros l. split; [apply NoDup_remove_dups | intros x; apply elem_of_remove_dups].
Defined.
